(** * AI-Resume-Scanner: the matching and scoring engine, embedded in Rocq

    A shallow embedding of the pure core of the Python sources

      - [utils/text_processing.py]  (class [TextProcessor])
      - [models/resume_parser.py]   (class [ResumeParserModel])
      - [models/job_matcher.py]     (class [JobMatcher])
      - [models/scoring_engine.py]  (class [ScoringEngine])
      - [config.py]

    Modelling conventions.

    - Python [str] values are [string]s, read as sequences of ASCII
      characters; [str.lower] is the ASCII lower-casing.
    - Python [float] values are rationals ([Q]), compared with [==].
      The modules [TextProcessor], [JobMatcher] and [ScoringEngine]
      compute them in exact arithmetic, a literal standing for its
      decimal value and [round(x, 2)] rounding the rational itself, ties
      to even; this is the model behind the ranges and the set algebra.
      Where binary floating point decides what the program does, the
      operation is rounded to the nearest binary64 number (module
      [F64]): the thresholds of the experience match, the average of
      [get_text_statistics], and the whole of [ScoringEngine64], the
      scoring engine with every operation rounded, which is the model
      behind the grade.
    - Python [dict] values are [gmap]s when only lookups matter, and
      association lists when the code sums or counts their values.
    - Python [set] values are [gset]s; [list(set(..))], whose order Python
      leaves unspecified, goes through an enumeration function that is
      only known to list each member once.
    - NLTK, spaCy, scikit-learn and the [re] engine are collaborators of
      the program, not part of it: they are the fields of the class
      [Backend].  Regular expressions of the shape [\b literal \b], the
      character classes of [clean_text] and the string methods are small
      enough to be written out. *)

From Stdlib Require Import QArith Qround Qabs Qpower Lqa Sorted Permutation.
From stdpp Require Import gmap strings list.
From Stdlib Require Import Ascii String.

Local Open Scope string_scope.
Local Open Scope list_scope.

(** ** Characters and strings *)

Module Chars.

Definition code (c : ascii) : nat := nat_of_ascii c.

(** [[A-Z]] *)
Definition is_upper (c : ascii) : bool :=
  (65 <=? code c)%nat && (code c <=? 90)%nat.

(** [[a-z]] *)
Definition is_lower (c : ascii) : bool :=
  (97 <=? code c)%nat && (code c <=? 122)%nat.

(** [[a-zA-Z]] *)
Definition is_letter (c : ascii) : bool := is_upper c || is_lower c.

(** [[0-9]] *)
Definition is_digit (c : ascii) : bool :=
  (48 <=? code c)%nat && (code c <=? 57)%nat.

(** [\s] of a [str] pattern and [str.isspace], on ASCII: tab, line feed,
    vertical tab, form feed, carriage return, the four separators
    0x1c-0x1f, and the space. *)
Definition is_space (c : ascii) : bool :=
  ((9 <=? code c)%nat && (code c <=? 13)%nat)
  || ((28 <=? code c)%nat && (code c <=? 32)%nat).

(** [\w] on ASCII: [[a-zA-Z0-9_]]. *)
Definition is_word (c : ascii) : bool :=
  is_letter c || is_digit c || (code c =? 95)%nat.

Definition space : ascii := " "%char.

(** One character of [str.lower]. *)
Definition lower_char (c : ascii) : ascii :=
  if is_upper c then ascii_of_nat (code c + 32) else c.

End Chars.

Module Str.
Import Chars.

(** [s.lower()] *)
Definition lower (l : list ascii) : list ascii := map lower_char l.

(** [s.lstrip()], [s.rstrip()], [s.strip()] *)
Fixpoint lstrip (l : list ascii) : list ascii :=
  match l with
  | [] => []
  | c :: t => if is_space c then lstrip t else l
  end.

Definition rstrip (l : list ascii) : list ascii := rev (lstrip (rev l)).

Definition strip (l : list ascii) : list ascii := rstrip (lstrip l).

(** [s.split(sep)] for a one-character separator: never empty. *)
Fixpoint split_on (sep : ascii) (l : list ascii) : list (list ascii) :=
  match l with
  | [] => [[]]
  | c :: t =>
      if Ascii.eqb c sep then [] :: split_on sep t
      else match split_on sep t with
           | [] => [[c]]
           | w :: ws => (c :: w) :: ws
           end
  end.

(** [pat in s] for strings: [pat] occurs in [s] as a contiguous block. *)
Fixpoint starts_with (pat l : list ascii) : bool :=
  match pat, l with
  | [], _ => true
  | _ :: _, [] => false
  | p :: pat', c :: l' => Ascii.eqb p c && starts_with pat' l'
  end.

Fixpoint contains (pat l : list ascii) : bool :=
  starts_with pat l ||
  match l with
  | [] => false
  | _ :: t => contains pat t
  end.

End Str.

Abbreviation chars := list_ascii_of_string (only parsing).
Abbreviation str := string_of_list_ascii (only parsing).

(** ** [utils/text_processing.py]: [clean_text] *)

Module CleanText.
Import Chars Str.

(** [re.sub(r'[^a-zA-Z\s]', ' ', text)] *)
Definition sub_non_letters (l : list ascii) : list ascii :=
  map (fun c => if is_letter c || is_space c then c else space) l.

(** [re.sub(r'\s+', ' ', text)]: every maximal run of white space becomes
    one space.  [in_run] tells that the previous character was white
    space, whose run has been replaced already. *)
Fixpoint collapse_from (in_run : bool) (l : list ascii) : list ascii :=
  match l with
  | [] => []
  | c :: t =>
      if is_space c
      then (if in_run then collapse_from true t
            else space :: collapse_from true t)
      else c :: collapse_from false t
  end.

Definition collapse_spaces (l : list ascii) : list ascii :=
  collapse_from false l.

Definition clean_chars (l : list ascii) : list ascii :=
  match l with
  | [] => []                                   (* if not text: return "" *)
  | _ => strip (collapse_spaces (sub_non_letters (lower l)))
  end.

Definition clean_text (text : string) : string :=
  str (clean_chars (chars text)).

End CleanText.

(** ** Numbers *)

Module Num.
Local Open Scope Q_scope.

(** [len(x)] and other natural numbers in arithmetic on floats. *)
Definition of_nat (n : nat) : Q := inject_Z (Z.of_nat n).

(** Rounding to the nearest integer, exact ties to the even one. *)
Definition round_half_even (q : Q) : Z :=
  let f := Qfloor q in
  match Qcompare (q - inject_Z f) (1 # 2) with
  | Lt => f
  | Gt => (f + 1)%Z
  | Eq => if Z.even f then f else (f + 1)%Z
  end.

(** [round(x, 2)] *)
Definition round2 (x : Q) : Q := inject_Z (round_half_even (x * 100)) / 100.

(** [sum(d.values())] of a dict of booleans, [True] counting for 1. *)
Definition count_true (d : list (string * bool)) : nat :=
  List.length (List.filter snd d).

(** [d[k]] for a dict literal [d] and one of its keys [k]. *)
Fixpoint get (d : list (string * Q)) (k : string) : Q :=
  match d with
  | [] => 0
  | (k', v) :: rest => if String.eqb k' k then v else get rest k
  end.

(** [sum(xs)] and [max(xs) if xs else 0], [min(xs) if xs else 0]. *)
Definition sum (xs : list Q) : Q := fold_right Qplus 0 xs.

Definition max_or_zero (xs : list Z) : Z :=
  match xs with
  | [] => 0%Z
  | x :: t => fold_left Z.max t x
  end.

Definition min_or_zero (xs : list Z) : Z :=
  match xs with
  | [] => 0%Z
  | x :: t => fold_left Z.min t x
  end.

End Num.

(** ** Binary floating point

    A Python [float] is an IEEE 754 binary64 number: 53 significant bits,
    the unit in the last place no smaller than [2^-1074], finite below
    [2^1024].  A finite float is modelled by the rational it denotes, and
    an operation by the exact operation followed by [rnd], rounding to
    the nearest float, ties to the even significand. *)

Module F64.
Local Open Scope Q_scope.

Definition pow2 (e : Z) : Q := Qpower 2 e.

(** The exponent [k] with [2^k <= |x| < 2^(k+1)], for [x] other than 0. *)
Definition ilog2 (x : Q) : Z :=
  let e := (Z.log2 (Z.abs (Qnum x)) - Z.log2 (Zpos (Qden x)))%Z in
  if Qle_bool (pow2 e) (Qabs x) then e else (e - 1)%Z.

(** The exponent of the unit in the last place of the floats around [x]. *)
Definition ulp_exp (x : Q) : Z := Z.max (ilog2 x - 52) (-1074).

Definition rnd (x : Q) : Q :=
  if Qeq_bool x 0 then 0
  else
    let e := ulp_exp x in
    inject_Z (Num.round_half_even (x / pow2 e)) * pow2 e.

Definition finite (x : Q) : bool := negb (Qle_bool (pow2 1024) (Qabs x)).

(** [float(n)] for an int [n], as in [n * 0.7]: [None] stands for
    [OverflowError: int too large to convert to float]. *)
Definition of_Z (n : Z) : option Q :=
  let x := rnd (inject_Z n) in
  if finite x then Some x else None.

(** [x + y], [x * y] and [x / y] on floats; [m / n] on ints is [div] of
    the two ints, Python rounding the exact quotient. *)
Definition add (x y : Q) : Q := rnd (x + y).
Definition mul (x y : Q) : Q := rnd (x * y).
Definition div (x y : Q) : Q := rnd (x / y).

(** [round(x, 2)] on a float: the exact value is rounded to two
    decimals, and the decimal result to the nearest float. *)
Definition round2 (x : Q) : Q := rnd (Num.round2 x).

(** [sum(xs)] as CPython computes it up to version 3.11: from the int 0,
    one addition after the other. *)
Definition sum (xs : list Q) : Q := fold_left add xs 0.



End F64.

(** ** [list.sort(key=..., reverse=True)]

    Python's sort is stable, and stays so under [reverse=True]: elements
    with equal keys keep the order they had.  A stable sort has one
    possible result, computed here by insertion: the head of the list goes
    in front of the first element of the sorted tail whose key is not
    greater than its own. *)

Module PySort.

Section Sort.
Context {A : Type} (key : A -> Q).

Fixpoint insert_desc (x : A) (l : list A) : list A :=
  match l with
  | [] => [x]
  | y :: t =>
      if Qle_bool (key y) (key x) then x :: l else y :: insert_desc x t
  end.

Definition sort_desc (l : list A) : list A := fold_right insert_desc [] l.

(** [a] may stand before [b]: its key is not smaller. *)
Definition descending (a b : A) : Prop := (key b <= key a)%Q.

(** The elements whose key equals [v], in their order. *)
Definition with_key (v : Q) (l : list A) : list A :=
  List.filter (fun a => Qeq_bool (key a) v) l.

End Sort.

End PySort.

(** ** [config.py] *)

Module Config.

Definition TECHNICAL_SKILLS : list string :=
  [ "python"; "java"; "javascript"; "c++"; "sql"; "html"; "css"; "react";
    "node.js"; "django"; "flask"; "spring"; "mongodb"; "postgresql";
    "machine learning"; "data science"; "tensorflow"; "pytorch";
    "scikit-learn"; "pandas"; "numpy"; "matplotlib"; "seaborn"; "tableau";
    "power bi"; "aws"; "azure"; "docker"; "kubernetes"; "git"; "jenkins" ].

Definition SOFT_SKILLS : list string :=
  [ "leadership"; "communication"; "teamwork"; "problem solving";
    "critical thinking"; "time management"; "adaptability"; "creativity";
    "project management"; "analytical thinking"; "collaboration" ].

End Config.

(** ** Regular expressions of the form [\b literal \b] *)

Module WordRegex.
Import Chars.

(** [\b] between two neighbours, [None] being an end of the text: exactly
    one of them is a word character. *)
Definition boundary (before after : option ascii) : bool :=
  xorb (from_option is_word false before) (from_option is_word false after).

(** Matching the escaped literal at the head of [l]: the last character
    read (or [before] when nothing was read) and what is left. *)
Fixpoint literal (pat l : list ascii) (before : option ascii)
  : option (option ascii * list ascii) :=
  match pat, l with
  | [], _ => Some (before, l)
  | _ :: _, [] => None
  | p :: pat', c :: l' =>
      if Ascii.eqb p c then literal pat' l' (Some c) else None
  end.

Definition match_here (pat l : list ascii) (before : option ascii) : bool :=
  boundary before (head l) &&
  match literal pat l before with
  | Some (last, rest) => boundary last (head rest)
  | None => false
  end.

Fixpoint search_from (pat l : list ascii) (before : option ascii) : bool :=
  match_here pat l before ||
  match l with
  | [] => false
  | c :: t => search_from pat t (Some c)
  end.

(** [re.search(r'\b' + re.escape(pat) + r'\b', text)] is not [None]. *)
Definition search (pat text : string) : bool :=
  search_from (chars pat) (chars text) None.

End WordRegex.

(** ** The collaborators

    What the program calls but does not define. *)

Class Backend := {
  (** [nltk.tokenize.word_tokenize], [sent_tokenize] *)
  word_tokenize : string -> list string;
  sent_tokenize : string -> list string;
  (** [set(stopwords.words('english'))] *)
  stop_words : gset string;
  (** [WordNetLemmatizer().lemmatize] *)
  lemmatize : string -> string;
  (** [load_spacy_model()]: [None] when the model is not installed, else
      the entities of a text, each with its [label_] and its [text]. *)
  nlp : option (string -> list (string * string));
  (** [re.search(pattern, text)] is not [None]. *)
  re_search : string -> string -> bool;
  (** [[int(m) for m in re.findall(pattern, text)]] for a pattern whose
      group 1 is [(\d+)]; when the pattern has two groups [m] is the pair
      of both and the code reads [int(m[0])]. *)
  re_findall_int : string -> string -> list N;
  (** [TfidfVectorizer.fit_transform] on two documents followed by
      [cosine_similarity] of the two rows. *)
  tfidf_cosine : string -> string -> Q;
  (** [fit_transform] on one document: [zip(feature_names, tfidf_scores)]. *)
  tfidf_terms : string -> list (string * Q);
  (** [list(s)] for a set [s]: its members, each once, in some order. *)
  list_of_set : gset string -> list string;
  list_of_set_perm : forall X, Permutation (list_of_set X) (elements X)
}.

(** ** [utils/text_processing.py]: class [TextProcessor] *)

Module TextProcessor.
Import Chars Str CleanText.

Definition lower (s : string) : string := str (Str.lower (chars s)).

(** [' '.join(words)] *)
Fixpoint join (words : list string) : string :=
  match words with
  | [] => ""
  | [w] => w
  | w :: rest => w ++ " " ++ join rest
  end.

(** [s.isalpha()]: not empty, letters only. *)
Definition isalpha (s : string) : bool :=
  match chars s with
  | [] => false
  | l => forallb is_letter l
  end.

(** The empty dict of entities made by [extract_entities] before it
    reads the recognizer's output. *)
Definition no_entities : gmap string (list string) :=
  <["PERSON" := []]> (<["ORG" := []]> (<["DATE" := []]>
    (<["GPE" := []]> (<["MONEY" := []]> (<["PERCENT" := []]> ∅))))).

(** [if ent.label_ in entities: entities[ent.label_].append(ent.text)] *)
Definition add_entity (entities : gmap string (list string))
    (ent : string * string) : gmap string (list string) :=
  match entities !! ent.1 with
  | Some spans => <[ent.1 := spans ++ [ent.2]]> entities
  | None => entities
  end.

Record TextStatistics := {
  word_count : nat;
  sentence_count : nat;
  character_count : nat;
  avg_words_per_sentence : Q;
  unique_words : nat
}.

Definition experience_patterns : list string :=
  [ "(\d+)\s*(?:years?|yrs?)\s*(?:of\s*)?(?:experience|exp)";
    "(\d+)\+?\s*(?:years?|yrs?)";
    "experience\s*(?:of\s*)?(\d+)\s*(?:years?|yrs?)" ].

Section WithBackend.
Context `{Backend}.

Definition remove_stopwords (text : string) : string :=
  join (List.filter (fun word => bool_decide (lower word ∉ stop_words))
                    (word_tokenize text)).

Definition lemmatize_text (text : string) : string :=
  join (map lemmatize (word_tokenize text)).

Definition extract_entities (text : string) : gmap string (list string) :=
  match nlp with
  | None => ∅                                  (* if not self.nlp: return {} *)
  | Some recognize => fold_left add_entity (recognize text) no_entities
  end.

Definition extract_skills (text : string) (skill_list : option (list string))
  : list string :=
  let skill_list :=
    match skill_list with
    | None => Config.TECHNICAL_SKILLS ++ Config.SOFT_SKILLS
    | Some l => l
    end in
  let text_lower := lower text in
  let found_skills :=
    List.filter (fun skill => WordRegex.search (lower skill) text_lower)
                skill_list in
  list_of_set (list_to_set found_skills).

Definition extract_experience_years (text : string) : Z :=
  let text_lower := lower text in
  let years :=
    flat_map (fun pattern => map Z.of_N (re_findall_int pattern text_lower))
             experience_patterns in
  Num.max_or_zero years.

Definition get_text_statistics (text : string) : option TextStatistics :=
  if String.eqb text "" then None                  (* return {} *)
  else
    let words := word_tokenize text in
    let sentences := sent_tokenize text in
    Some {|
      word_count := List.length words;
      sentence_count := List.length sentences;
      character_count := String.length text;
      avg_words_per_sentence :=
        match sentences with
        | [] => 0
        | _ => F64.div (Num.of_nat (List.length words))
                       (Num.of_nat (List.length sentences))
        end;
      unique_words :=
        size (list_to_set (map lower (List.filter isalpha words)) : gset string)
    |}.

Definition preprocess_for_similarity (text : string) : string :=
  let cleaned := clean_text text in
  let no_stopwords := remove_stopwords cleaned in
  let lemmatized := lemmatize_text no_stopwords in
  lemmatized.

End WithBackend.

End TextProcessor.

(** ** [models/resume_parser.py]: class [ResumeParserModel] *)

Module ResumeParser.
Import Chars Str.

(** The dict returned by [parse_resume], whose keys [clean_parsed_data]
    always sets. *)
Record ParsedResume := {
  name : string;
  email : list string;
  phone : list string;
  skills : list string;
  education : list string;
  experience_years : Z;
  companies : list string;
  designations : list string;
  sections : gmap string string;
  entities : gmap string (list string);
  degree : list string;
  no_of_pages : Z
}.

Definition empty_sections : list (string * string) :=
  [ ("objective", ""); ("summary", ""); ("experience", "");
    ("education", ""); ("skills", ""); ("projects", "");
    ("certifications", ""); ("achievements", "") ].

Definition section_patterns : list (string * string) :=
  [ ("objective", "(?i)(objective|career\s+objective|professional\s+objective)");
    ("summary", "(?i)(summary|professional\s+summary|profile|about)");
    ("experience", "(?i)(experience|work\s+experience|employment|professional\s+experience)");
    ("education", "(?i)(education|academic|qualification|academics)");
    ("skills", "(?i)(skills|technical\s+skills|core\s+competencies|expertise)");
    ("projects", "(?i)(projects|personal\s+projects|academic\s+projects)");
    ("certifications", "(?i)(certifications?|certificates?|training)");
    ("achievements", "(?i)(achievements?|accomplishments?|awards?|honors?)") ].

Definition strip (s : string) : string := str (Str.strip (chars s)).

(** [text.split('\n')] *)
Definition lines (text : string) : list string :=
  map str (split_on "010"%char (chars text)).

Section WithBackend.
Context `{Backend}.

(** The body of the loop over the lines: the state is the cursor
    [current_section] and the dict [sections]. *)
Definition section_step
    (st : option string * gmap string string) (line : string)
  : option string * gmap string string :=
  let '(current_section, sections) := st in
  let line := strip line in
  if String.eqb line "" then st                          (* continue *)
  else
    match List.find (fun sp => re_search sp.2 line) section_patterns with
    | Some (section_name, _) => (Some section_name, sections)   (* break *)
    | None =>                                            (* for ... else *)
        match current_section with
        | Some cur =>
            match sections !! cur with
            | Some body => (current_section, <[cur := (body ++ line ++ " ")%string]> sections)
            | None => st
            end
        | None => st
        end
    end.

Definition extract_resume_sections (text : string) : gmap string string :=
  let sections : gmap string string := list_to_map empty_sections in
  let '(_, sections) := fold_left section_step (lines text) (None, sections) in
  strip <$> sections.

End WithBackend.

End ResumeParser.

(** ** Calls made on the way to a result

    [calculate_similarity_score] either returns at once or runs its four
    scoring methods.  To tell the two apart, a computation carries the
    names of the methods it has run. *)

Module Trace.

Definition M (A : Type) : Type := A * list string.

Definition ret {A} (a : A) : M A := (a, []).

Definition bind {A B} (m : M A) (f : A -> M B) : M B :=
  let '(a, t1) := m in
  let '(b, t2) := f a in
  (b, t1 ++ t2).

(** Running the method [method], whose result is [v]. *)
Definition call {A} (method : string) (v : A) : M A := (v, [method]).

Definition result {A} (m : M A) : A := m.1.
Definition calls {A} (m : M A) : list string := m.2.

End Trace.

#[global] Instance trace_ret : MRet Trace.M := @Trace.ret.
#[global] Instance trace_bind : MBind Trace.M := fun A B f m => Trace.bind m f.

(** ** [models/job_matcher.py]: class [JobMatcher] *)

Module JobMatcher.
Import TextProcessor.
Local Open Scope Q_scope.

(** [pat in text] *)
Definition contains (pat text : string) : bool :=
  Str.contains (chars pat) (chars text).

Record SimilarityResult := {
  overall_score : Q;
  method_scores : list (string * Q)
}.

Record SkillGapResult := {
  matching_skills : list string;
  missing_skills : list string;
  additional_skills : list string;
  skill_match_percentage : Q
}.

Record RankingEntry := {
  rank : nat;
  name : string;
  rk_overall_score : Q;
  rk_method_scores : list (string * Q)
}.

Definition set_rank (i : nat) (r : RankingEntry) : RankingEntry :=
  {| rank := i; name := name r;
     rk_overall_score := rk_overall_score r;
     rk_method_scores := rk_method_scores r |}.

(** The end of [batch_resume_ranking]: sort by overall score, then update
    the ranks. *)
Definition sort_and_rank (rankings : list RankingEntry) : list RankingEntry :=
  let rankings := PySort.sort_desc rk_overall_score rankings in
  imap (fun i resume => set_rank (i + 1) resume) rankings.

(** An entry without its rank. *)
Definition unranked (r : RankingEntry) : string * Q * list (string * Q) :=
  (name r, rk_overall_score r, rk_method_scores r).

Definition weights : list (string * Q) :=
  [ ("tfidf_cosine", 0.4); ("keyword_match", 0.2);
    ("skills_match", 0.3); ("experience_match", 0.1) ].

Definition required_experience_patterns : list string :=
  [ "(\d+)\+?\s*(?:years?|yrs?)\s*(?:of\s*)?(?:experience|exp)";
    "(?:minimum|min|at least)\s*(\d+)\s*(?:years?|yrs?)";
    "(\d+)\s*to\s*(\d+)\s*(?:years?|yrs?)";
    "(\d+)\s*-\s*(\d+)\s*(?:years?|yrs?)" ].

(** The tiers of [experience_matching_score], on the two numbers of
    years it extracts, both ints.  [resume_exp >= job_exp] compares two
    ints; [job_exp * 0.7] and [job_exp * 0.5] are floats, the int being
    converted first, and Python compares an int with a float by their
    exact values.  A [job_exp] beyond the range of floats raises
    [OverflowError] there, which the [except] clause of the method turns
    into the score 0.0. *)
Definition experience_tiers (resume_exp job_exp : Z) : Q :=
  if (job_exp =? 0)%Z then 1.0
  else if (job_exp <=? resume_exp)%Z then 1.0
  else
    match F64.of_Z job_exp with
    | None => 0.0                                          (* except *)
    | Some j =>
        if Qle_bool (F64.mul j (F64.rnd 0.7)) (inject_Z resume_exp) then 0.8
        else if Qle_bool (F64.mul j (F64.rnd 0.5)) (inject_Z resume_exp) then 0.6
        else if (0 <? job_exp)%Z then inject_Z resume_exp / inject_Z job_exp
        else 0.0
    end.

Section WithBackend.
Context `{Backend}.

Definition tfidf_cosine_similarity (text1 text2 : string) : Q :=
  tfidf_cosine text1 text2.

Definition extract_important_keywords (text : string) (num_keywords : nat)
  : list string :=
  let processed_text := preprocess_for_similarity text in
  if String.eqb processed_text "" then []
  else
    let keyword_scores := PySort.sort_desc snd (tfidf_terms processed_text) in
    map fst (List.filter (fun ks => negb (Qle_bool ks.2 0))
                         (take num_keywords keyword_scores)).

Definition keyword_matching_score (resume_text job_description : string) : Q :=
  let job_keywords := extract_important_keywords job_description 20 in
  match job_keywords with
  | [] => 0.0
  | _ =>
      let resume_lower := lower resume_text in
      let matched_keywords :=
        List.length
          (List.filter (fun keyword => contains (lower keyword) resume_lower)
                       job_keywords) in
      Num.of_nat matched_keywords / Num.of_nat (List.length job_keywords)
  end.

(** [set(skill.lower() for skill in self.text_processor.extract_skills(text))] *)
Definition skill_set (text : string) : gset string :=
  list_to_set (map lower (extract_skills text None)).

Definition skills_matching_score (resume_text job_description : string) : Q :=
  let resume_skills := skill_set resume_text in
  let job_skills := skill_set job_description in
  if bool_decide (job_skills = ∅) then 0.0
  else
    let intersection := size (resume_skills ∩ job_skills) in
    let union := size (resume_skills ∪ job_skills) in
    let jaccard_score :=
      if (0 <? union)%nat then Num.of_nat intersection / Num.of_nat union
      else 0.0 in
    let job_skills_found := Num.of_nat intersection / Num.of_nat (size job_skills) in
    jaccard_score * 0.4 + job_skills_found * 0.6.

Definition extract_required_experience (job_description : string) : Z :=
  let text_lower := lower job_description in
  let years :=
    flat_map (fun pattern => map Z.of_N (re_findall_int pattern text_lower))
             required_experience_patterns in
  Num.min_or_zero years.

Definition experience_matching_score (resume_text job_description : string) : Q :=
  let resume_exp := extract_experience_years resume_text in
  let job_exp := extract_required_experience job_description in
  experience_tiers resume_exp job_exp.

Definition analyze_skill_gaps (resume_text job_description : string)
  : SkillGapResult :=
  let resume_skills := skill_set resume_text in
  let job_skills := skill_set job_description in
  let matching_skills := resume_skills ∩ job_skills in
  let missing_skills := job_skills ∖ resume_skills in
  let additional_skills := resume_skills ∖ job_skills in
  {| matching_skills := list_of_set matching_skills;
     missing_skills := list_of_set missing_skills;
     additional_skills := list_of_set additional_skills;
     skill_match_percentage :=
       if bool_decide (job_skills = ∅) then 0
       else Num.of_nat (size matching_skills) / Num.of_nat (size job_skills) * 100 |}.

Definition calculate_similarity_score (resume_text job_description : string)
  : Trace.M SimilarityResult :=
  let resume_processed := preprocess_for_similarity resume_text in
  let job_processed := preprocess_for_similarity job_description in
  if String.eqb resume_processed "" || String.eqb job_processed "" then
    mret {| overall_score := 0.0; method_scores := [] |}
  else
    s1 ← Trace.call "tfidf_cosine"
           (tfidf_cosine_similarity resume_processed job_processed);
    s2 ← Trace.call "keyword_match"
           (keyword_matching_score resume_text job_description);
    s3 ← Trace.call "skills_match"
           (skills_matching_score resume_text job_description);
    s4 ← Trace.call "experience_match"
           (experience_matching_score resume_text job_description);
    let scores := [ ("tfidf_cosine", s1); ("keyword_match", s2);
                    ("skills_match", s3); ("experience_match", s4) ] in
    let overall_score :=
      Num.sum (map (fun ms => ms.2 * Num.get weights ms.1) scores) in
    mret {| overall_score := Num.round2 (overall_score * 100);
                 method_scores :=
                   map (fun ms => (ms.1, Num.round2 (ms.2 * 100))) scores |}.

Definition batch_resume_ranking
    (resumes_data : list (string * string)) (job_description : string)
  : list RankingEntry :=
  let rankings :=
    imap (fun i nt =>
            let score_data :=
              Trace.result (calculate_similarity_score nt.2 job_description) in
            {| rank := i + 1; name := nt.1;
               rk_overall_score := overall_score score_data;
               rk_method_scores := method_scores score_data |})
         resumes_data in
  sort_and_rank rankings.

End WithBackend.

End JobMatcher.

(** ** [models/scoring_engine.py]: class [ScoringEngine]

    In exact arithmetic.  Of the result of [calculate_overall_score] the
    entries [overall_score] and [category_scores] are here; the entry
    [grade], which depends on how the floats are rounded, is in
    [ScoringEngine64], and the entry [feedback] in [ScoringEngineMore]. *)

Module ScoringEngine.
Import TextProcessor ResumeParser.
Local Open Scope Q_scope.

Record ScoreResult := {
  overall_score : Q;
  category_scores : list (string * Q)
}.

Definition weights : list (string * Q) :=
  [ ("completeness", 0.30); ("content_quality", 0.25);
    ("skills_relevance", 0.20); ("experience", 0.15); ("job_match", 0.10) ].

(** [key in parsed_resume.get('sections', {})] *)
Definition has_section (parsed_resume : ParsedResume) (key : string) : bool :=
  bool_decide (is_Some (sections parsed_resume !! key)).

(** [bool(l)] for a list *)
Definition nonempty {A} (l : list A) : bool := (0 <? List.length l)%nat.

Definition required_sections (parsed_resume : ParsedResume)
  : list (string * bool) :=
  [ ("name", negb (String.eqb (name parsed_resume) ""));
    ("contact", nonempty (email parsed_resume) || nonempty (phone parsed_resume));
    ("skills", (0 <? List.length (skills parsed_resume))%nat);
    ("education", (0 <? List.length (education parsed_resume))%nat);
    ("experience", (0 <? experience_years parsed_resume)%Z
                   || (0 <? List.length (companies parsed_resume))%nat) ].

Definition optional_sections (parsed_resume : ParsedResume)
  : list (string * bool) :=
  [ ("projects", has_section parsed_resume "projects");
    ("certifications", has_section parsed_resume "certifications");
    ("summary", existsb (has_section parsed_resume) ["summary"; "objective"]) ].

Definition calculate_completeness_score (parsed_resume : ParsedResume) : Q :=
  let required := required_sections parsed_resume in
  let optional := optional_sections parsed_resume in
  let required_score :=
    Num.of_nat (Num.count_true required) / Num.of_nat (List.length required) * 0.7 in
  let optional_score :=
    Num.of_nat (Num.count_true optional) / Num.of_nat (List.length optional) * 0.3 in
  required_score + optional_score.

(** [sum(scores) / len(scores)] *)
Definition mean (scores : list Q) : Q :=
  Num.sum scores / Num.of_nat (List.length scores).

Definition between (lo x hi : nat) : bool := (lo <=? x)%nat && (x <=? hi)%nat.
Definition from_below (lo x hi : nat) : bool := (lo <=? x)%nat && (x <? hi)%nat.
Definition up_to (lo x hi : nat) : bool := (lo <? x)%nat && (x <=? hi)%nat.

Definition word_score (word_count : nat) : Q :=
  if between 300 word_count 800 then 1.0
  else if from_below 200 word_count 300 || up_to 800 word_count 1000 then 0.8
  else if from_below 100 word_count 200 || up_to 1000 word_count 1200 then 0.6
  else 0.4.

Definition sentence_score (avg_words_per_sentence : Q) : Q :=
  let a := avg_words_per_sentence in
  if Qle_bool 10 a && Qle_bool a 25 then 1.0
  else if (Qle_bool 8 a && negb (Qle_bool 10 a))
          || (negb (Qle_bool a 25) && Qle_bool a 30) then 0.8
  else 0.6.

Definition diversity_score (word_count unique_words : nat) : Q :=
  if (0 <? word_count)%nat then
    let diversity_ratio := Num.of_nat unique_words / Num.of_nat word_count in
    if Qle_bool 0.5 diversity_ratio then 1.0
    else if Qle_bool 0.4 diversity_ratio then 0.8
    else if Qle_bool 0.3 diversity_ratio then 0.6
    else 0.4
  else 0.0.

Definition quantity_score (total_skills : nat) : Q :=
  if between 8 total_skills 15 then 1.0
  else if from_below 5 total_skills 8 || up_to 15 total_skills 20 then 0.8
  else if from_below 3 total_skills 5 || up_to 20 total_skills 25 then 0.6
  else 0.4.

Definition tech_score (tech_skills_count : nat) : Q :=
  if (5 <=? tech_skills_count)%nat then 1.0
  else if (3 <=? tech_skills_count)%nat then 0.8
  else if (1 <=? tech_skills_count)%nat then 0.6
  else 0.2.

Definition balance_score (tech_skills_count soft_skills_count : nat) : Q :=
  if (0 <? tech_skills_count)%nat && (0 <? soft_skills_count)%nat then 1.0
  else if (0 <? tech_skills_count)%nat || (0 <? soft_skills_count)%nat then 0.7
  else 0.3.

(** [any(known.lower() in skill_lower for known in known_skills)] *)
Definition mentions (known_skills : list string) (skill_lower : string) : bool :=
  existsb (fun known => JobMatcher.contains (lower known) skill_lower) known_skills.

Definition calculate_skills_relevance_score (parsed_resume : ParsedResume) : Q :=
  let skills := skills parsed_resume in
  match skills with
  | [] => 0.0
  | _ =>
      let technical_skills :=
        List.filter (fun skill => mentions Config.TECHNICAL_SKILLS (lower skill))
                    skills in
      let soft_skills :=
        List.filter (fun skill =>
                       negb (mentions Config.TECHNICAL_SKILLS (lower skill))
                       && mentions Config.SOFT_SKILLS (lower skill))
                    skills in
      let total_skills := List.length skills in
      let tech_skills_count := List.length technical_skills in
      let soft_skills_count := List.length soft_skills in
      mean [ quantity_score total_skills;
             tech_score tech_skills_count;
             balance_score tech_skills_count soft_skills_count ]
  end.

Definition exp_score (experience_years : Z) : Q :=
  if (5 <=? experience_years)%Z then 1.0
  else if (3 <=? experience_years)%Z then 0.8
  else if (1 <=? experience_years)%Z then 0.6
  else if (0 <? experience_years)%Z then 0.4
  else 0.0.

Definition company_score (companies : list string) : Q :=
  if (3 <=? List.length companies)%nat then 1.0
  else if (2 <=? List.length companies)%nat then 0.8
  else if (1 <=? List.length companies)%nat then 0.6
  else 0.2.

Definition progression_score (designations : list string) : Q :=
  if (2 <=? List.length designations)%nat then 1.0
  else if (1 <=? List.length designations)%nat then 0.7
  else 0.3.

Definition calculate_experience_score (parsed_resume : ParsedResume) : Q :=
  mean [ exp_score (experience_years parsed_resume);
         company_score (companies parsed_resume);
         progression_score (designations parsed_resume) ].

Definition get_score_grade (score : Q) : string :=
  if Qle_bool 90 score then "A+"
  else if Qle_bool 85 score then "A"
  else if Qle_bool 80 score then "A-"
  else if Qle_bool 75 score then "B+"
  else if Qle_bool 70 score then "B"
  else if Qle_bool 65 score then "B-"
  else if Qle_bool 60 score then "C+"
  else if Qle_bool 55 score then "C"
  else if Qle_bool 50 score then "C-"
  else "D".

Section WithBackend.
Context `{Backend}.

Definition calculate_content_quality_score (resume_text : string) : Q :=
  if String.eqb resume_text "" then 0.0
  else
    let stats := get_text_statistics resume_text in
    let word_count := from_option word_count 0%nat stats in
    let avg_words_per_sentence := from_option avg_words_per_sentence 0 stats in
    let unique_words := from_option unique_words 0%nat stats in
    mean [ word_score word_count;
           sentence_score avg_words_per_sentence;
           diversity_score word_count unique_words ].

(** The dict [scores] of [calculate_overall_score]. *)
Definition category_values (parsed_resume : ParsedResume)
    (resume_text : string) (job_description : option string)
  : list (string * Q) :=
  [ ("completeness", calculate_completeness_score parsed_resume);
    ("content_quality", calculate_content_quality_score resume_text);
    ("skills_relevance", calculate_skills_relevance_score parsed_resume);
    ("experience", calculate_experience_score parsed_resume);
    ("job_match",
      match job_description with
      | Some jd =>
          if String.eqb jd "" then 0.0
          else
            let match_result :=
              Trace.result (JobMatcher.calculate_similarity_score resume_text jd) in
            JobMatcher.overall_score match_result / 100
      | None => 0.0
      end) ].

(** [sum(scores[category] * weights[category] for category in scores)] *)
Definition weighted_sum (scores : list (string * Q)) : Q :=
  Num.sum (map (fun cs => cs.2 * Num.get weights cs.1) scores).

Definition calculate_overall_score (parsed_resume : ParsedResume)
    (resume_text : string) (job_description : option string) : ScoreResult :=
  let scores := category_values parsed_resume resume_text job_description in
  let overall_score := weighted_sum scores in
  {| overall_score := Num.round2 (overall_score * 100);
     category_scores := map (fun kv => (kv.1, Num.round2 (kv.2 * 100))) scores |}.

End WithBackend.

End ScoringEngine.

(** ** [calculate_overall_score] on floats

    The call [calculate_overall_score(parsed_resume, resume_text)] the
    application makes, [job_description] left at its default [None],
    with every operation rounded as Python rounds it.  (With a job
    description the job match is a number of numpy, whose arithmetic and
    rounding are numpy's.)  The tiers are those of [ScoringEngine]: they
    compare whole numbers, or a float with whole numbers, and their
    results are literals, which [F64.rnd] turns into floats.  [sum] is a
    parameter: [F64.sum] up to Python 3.11, [F64.sum_compensated] from
    Python 3.12 on. *)

Module ScoringEngine64.
Import TextProcessor ResumeParser ScoringEngine.
Local Open Scope Q_scope.

Record ScoreResult := {
  overall_score : Q;
  category_scores : list (string * Q);
  grade : string
}.

Section WithSum.
Variable fsum : list Q -> Q.

(** [sum(d.values()) / len(d) * weight] for a dict of booleans: a
    quotient of two ints, then a product of floats. *)
Definition share (d : list (string * bool)) (weight : Q) : Q :=
  F64.mul (F64.div (Num.of_nat (Num.count_true d)) (Num.of_nat (List.length d)))
          (F64.rnd weight).

Definition calculate_completeness_score (parsed_resume : ParsedResume) : Q :=
  let required_score := share (required_sections parsed_resume) 0.7 in
  let optional_score := share (optional_sections parsed_resume) 0.3 in
  F64.add required_score optional_score.

(** [sum(scores) / len(scores)] for a list of float literals. *)
Definition mean (scores : list Q) : Q :=
  F64.div (fsum (map F64.rnd scores)) (F64.rnd (Num.of_nat (List.length scores))).

Definition diversity_score (word_count unique_words : nat) : Q :=
  if (0 <? word_count)%nat then
    let diversity_ratio := F64.div (Num.of_nat unique_words) (Num.of_nat word_count) in
    if Qle_bool (F64.rnd 0.5) diversity_ratio then 1.0
    else if Qle_bool (F64.rnd 0.4) diversity_ratio then 0.8
    else if Qle_bool (F64.rnd 0.3) diversity_ratio then 0.6
    else 0.4
  else 0.0.

Definition calculate_skills_relevance_score (parsed_resume : ParsedResume) : Q :=
  let skills := skills parsed_resume in
  match skills with
  | [] => 0.0
  | _ =>
      let technical_skills :=
        List.filter (fun skill => mentions Config.TECHNICAL_SKILLS (lower skill))
                    skills in
      let soft_skills :=
        List.filter (fun skill =>
                       negb (mentions Config.TECHNICAL_SKILLS (lower skill))
                       && mentions Config.SOFT_SKILLS (lower skill))
                    skills in
      let total_skills := List.length skills in
      let tech_skills_count := List.length technical_skills in
      let soft_skills_count := List.length soft_skills in
      mean [ quantity_score total_skills;
             tech_score tech_skills_count;
             balance_score tech_skills_count soft_skills_count ]
  end.

Definition calculate_experience_score (parsed_resume : ParsedResume) : Q :=
  mean [ exp_score (experience_years parsed_resume);
         company_score (companies parsed_resume);
         progression_score (designations parsed_resume) ].

Section WithBackend.
Context `{Backend}.

Definition calculate_content_quality_score (resume_text : string) : Q :=
  if String.eqb resume_text "" then 0.0
  else
    let stats := get_text_statistics resume_text in
    let word_count := from_option word_count 0%nat stats in
    let avg_words_per_sentence := from_option avg_words_per_sentence 0 stats in
    let unique_words := from_option unique_words 0%nat stats in
    mean [ word_score word_count;
           sentence_score avg_words_per_sentence;
           diversity_score word_count unique_words ].

(** The dict [scores], without a job description. *)
Definition category_values (parsed_resume : ParsedResume) (resume_text : string)
  : list (string * Q) :=
  [ ("completeness", calculate_completeness_score parsed_resume);
    ("content_quality", calculate_content_quality_score resume_text);
    ("skills_relevance", calculate_skills_relevance_score parsed_resume);
    ("experience", calculate_experience_score parsed_resume);
    ("job_match", 0.0) ].

(** [sum(scores[category] * weights[category] for category in scores)] *)
Definition weighted_sum (scores : list (string * Q)) : Q :=
  fsum (map (fun cs => F64.mul cs.2 (F64.rnd (Num.get weights cs.1))) scores).


Definition calculate_overall_score (parsed_resume : ParsedResume)
    (resume_text : string) : ScoreResult :=
  let scores := category_values parsed_resume resume_text in
  let overall_score := weighted_sum scores in
  {| overall_score := F64.round2 (F64.mul overall_score 100);
     category_scores :=
       map (fun kv => (kv.1, F64.round2 (F64.mul kv.2 100))) scores;
     grade := get_score_grade (F64.mul overall_score 100) |}.

End WithBackend.

End WithSum.


End ScoringEngine64.

(** ** A stand-in for the collaborators, and sample inputs

    Simple tokenizers, no entity recognizer, no number found by the
    patterns of years, and a TF-IDF that weighs every word alike; the
    cosine of two documents is a parameter. *)

Module Demo.
Import Chars Str TextProcessor ResumeParser.

Definition nonblank (l : list ascii) : bool :=
  negb (forallb is_space l).

(** The pieces of [text] between occurrences of [sep], blank ones
    dropped and the others stripped. *)
Definition pieces (sep : ascii) (text : string) : list string :=
  map (fun l => str (Str.strip l))
      (List.filter nonblank (split_on sep (chars text))).

(** A header is recognised when the line holds the name of its section,
    which is the first alternative of the section's pattern. *)
Definition header_search (pattern line : string) : bool :=
  match List.find (fun sp => String.eqb sp.2 pattern) section_patterns with
  | Some (section_name, _) => JobMatcher.contains section_name (lower line)
  | None => false
  end.

Definition backend (cosine : Q) : Backend := {|
  word_tokenize := pieces space;
  sent_tokenize := pieces "."%char;
  stop_words := {[ "the"; "a"; "an"; "of"; "and" ]};
  lemmatize := fun w => w;
  nlp := None;
  re_search := header_search;
  re_findall_int := fun _ _ => [];
  tfidf_cosine := fun _ _ => cosine;
  tfidf_terms := fun text =>
    map (fun w => (w, 1%Q)) (elements (list_to_set (pieces space text) : gset string));
  list_of_set := elements;
  list_of_set_perm := fun X => Permutation_refl (elements X)
|}.

(** A resume text of twenty sentences of fifteen distinct words each. *)
Definition letter (n : nat) : ascii := ascii_of_nat (97 + n).

Definition word (i : nat) : string :=
  String (letter (i / 26)) (String (letter (i mod 26)) "").

Definition sentence (j : nat) : string :=
  (join (map word (seq (15 * j) 15)) ++ ".")%string.

Definition resume_text : string := join (map sentence (seq 0 20)).

Definition job_description : string := "Opening for a Quality Inspector".

Definition resume : ParsedResume := {|
  name := "Ada Lovelace";
  email := ["ada@example.org"];
  phone := [];
  skills := ["python"; "java"; "sql"; "docker"; "git"; "aws";
             "leadership"; "teamwork"];
  education := ["Bachelor of Science, University of London"];
  experience_years := 6;
  companies := ["Analytical Engines"; "Difference Works"; "Babbage and Co"];
  designations := ["Engineer"];
  sections := list_to_map empty_sections;
  entities := ∅;
  degree := [];
  no_of_pages := 1
|}.



(** A resume of three lines, with a name and a section on education and
    no other section. *)
Definition short_text : string :=
  "Ada Lovelace" ++ String "010" "Education" ++ String "010" "BSc".

Definition short_resume : ParsedResume := {|
  name := "Ada Lovelace";
  email := [];
  phone := [];
  skills := [];
  education := ["BSc"];
  experience_years := 0;
  companies := [];
  designations := [];
  sections :=
    list_to_map [ ("objective", ""); ("summary", ""); ("experience", "");
                  ("education", "BSc"); ("skills", ""); ("projects", "");
                  ("certifications", ""); ("achievements", "") ];
  entities := ∅;
  degree := [];
  no_of_pages := 1
|}.

End Demo.

(** ** The completeness score, in the words of the specification

    Five required and three optional facts about a parsed resume; the
    score is the share of required facts that hold, weighted 0.7, plus the
    share of optional facts that hold, weighted 0.3. *)

Module CompletenessSpec.
Import ResumeParser.
Local Open Scope Q_scope.

Definition has_name (r : ParsedResume) : Prop := name r <> "".
Definition has_contact (r : ParsedResume) : Prop := email r <> [] \/ phone r <> [].
Definition has_skill (r : ParsedResume) : Prop := (1 <= List.length (skills r))%nat.
Definition has_education (r : ParsedResume) : Prop :=
  (1 <= List.length (education r))%nat.
Definition has_experience (r : ParsedResume) : Prop :=
  (0 < experience_years r)%Z \/ (1 <= List.length (companies r))%nat.

(** The resume has a section called [key]: under that name its
    [sections] hold a text that is not empty.  (The names of the
    sections are fixed; a section that a resume does not have is there
    with the empty text.) *)
Definition has_section (r : ParsedResume) (key : string) : Prop :=
  match sections r !! key with
  | Some body => body <> ""
  | None => False
  end.

Definition has_projects (r : ParsedResume) : Prop := has_section r "projects".
Definition has_certifications (r : ParsedResume) : Prop :=
  has_section r "certifications".
Definition has_summary (r : ParsedResume) : Prop :=
  has_section r "summary" \/ has_section r "objective".

#[global] Instance has_section_dec r key : Decision (has_section r key).
Proof. unfold has_section. destruct (sections r !! key); apply _. Defined.

#[global] Instance has_projects_dec r : Decision (has_projects r).
Proof. unfold has_projects. apply _. Defined.

#[global] Instance has_certifications_dec r : Decision (has_certifications r).
Proof. unfold has_certifications. apply _. Defined.

#[global] Instance has_summary_dec r : Decision (has_summary r).
Proof. unfold has_summary. apply _. Defined.

(** 1 for a fact that holds, 0 for one that does not. *)
Definition indicator (P : Prop) `{Decision P} : nat := if decide P then 1 else 0.

Definition required_true (r : ParsedResume) : nat :=
  indicator (has_name r) + indicator (has_contact r) + indicator (has_skill r)
  + indicator (has_education r) + indicator (has_experience r).

Definition optional_true (r : ParsedResume) : nat :=
  indicator (has_projects r) + indicator (has_certifications r)
  + indicator (has_summary r).

(** The completeness score that the specification describes. *)
Definition completeness (r : ParsedResume) : Q :=
  Num.of_nat (required_true r) / 5 * 0.7 + Num.of_nat (optional_true r) / 3 * 0.3.

End CompletenessSpec.

(** ** Shapes used to state the properties *)

Module Shape.
Import Chars.

(** A character of a cleaned text: a lower-case letter or the space. *)
Definition clean_char (c : ascii) : Prop := is_lower c = true \/ c = space.

(** No two adjacent white-space characters; with [in_run], none at the
    head either. *)
Fixpoint no_runs (in_run : bool) (l : list ascii) : bool :=
  match l with
  | [] => true
  | c :: t => if is_space c then negb in_run && no_runs true t
              else no_runs false t
  end.

(** The first character, if any, is not white space. *)
Definition head_ok (l : list ascii) : Prop :=
  match l with
  | [] => True
  | c :: _ => is_space c = false
  end.

End Shape.


From Stdlib Require Import DecimalString.

(** ** A second stand-in for the collaborators

    As [Demo.backend], with a recognizer of entities (a capitalised word
    is a [PERSON], a number of four digits a [DATE], any other number a
    [CARDINAL]) and with patterns of years that find every digit standing
    before [" years"]. *)

Module Samples.
Import Chars Str TextProcessor.

Definition label_of (word : string) : option string :=
  match chars word with
  | [] => None
  | c :: rest =>
      if is_upper c then Some "PERSON"
      else if forallb is_digit (c :: rest)
           then Some (if (List.length (c :: rest) =? 4)%nat then "DATE" else "CARDINAL")
           else None
  end.

Definition recognize (text : string) : list (string * string) :=
  flat_map (fun word =>
              match label_of word with
              | Some label => [(label, word)]
              | None => []
              end)
           (Demo.pieces space text).

Fixpoint years_in (l : list ascii) : list N :=
  match l with
  | [] => []
  | c :: t =>
      if is_digit c && starts_with (chars " years") t
      then N.of_nat (code c - 48) :: years_in t
      else years_in t
  end.

Definition backend : Backend := {|
  word_tokenize := Demo.pieces space;
  sent_tokenize := Demo.pieces "."%char;
  stop_words := {[ "the"; "a"; "an"; "of"; "and" ]};
  lemmatize := fun w => w;
  nlp := Some recognize;
  re_search := Demo.header_search;
  re_findall_int := fun _ text => years_in (chars text);
  tfidf_cosine := fun _ _ => 0.5%Q;
  tfidf_terms := fun text =>
    map (fun w => (w, 1%Q))
        (elements (list_to_set (Demo.pieces space text) : gset string));
  list_of_set := elements;
  list_of_set_perm := fun X => Permutation_refl (elements X)
|}.

End Samples.

(** ** Texts of ASCII characters

    The classes of characters of [Chars] are those of Python on the 128
    ASCII characters.  Beyond them Python knows more letters and more
    white space ([str.lower] turns U+0130 and U+212A into the ASCII
    letters i and k, and [\w] holds of the letters of every script):
    what depends on that is stated of ASCII texts. *)

Module PlainText.
Import Chars.

Definition is_ascii (c : ascii) : bool := (code c <? 128)%nat.

Definition ascii_text (s : string) : Prop :=
  Forall (fun c => is_ascii c = true) (chars s).

End PlainText.

(** ** What a match of [\b literal \b] is

    The literal stands in the text between two word boundaries. *)

Module WordSpec.
Import Chars.

(** The last character of [l], or [before] when [l] is empty. *)
Definition last_or (before : option ascii) (l : list ascii) : option ascii :=
  match last l with
  | Some c => Some c
  | None => before
  end.

Definition occurs_as_word (pat text : list ascii) : Prop :=
  exists pre post,
    text = pre ++ pat ++ post
    /\ WordRegex.boundary (last pre) (head (pat ++ post)) = true
    /\ WordRegex.boundary (last (pre ++ pat)) (head post) = true.

End WordSpec.

(** ** The six kinds of entities kept by [extract_entities] *)

Module EntitySpec.

Definition kinds : list string :=
  ["PERSON"; "ORG"; "DATE"; "GPE"; "MONEY"; "PERCENT"].

(** The texts of the entities labelled [kind], in the order found. *)
Definition spans_of (kind : string) (ents : list (string * string)) : list string :=
  map snd (List.filter (fun ent => String.eqb ent.1 kind) ents).

End EntitySpec.

(** ** More of [config.py] *)

Module ConfigMore.

Definition MAX_FILE_SIZE_MB : Z := 10.

Definition ALLOWED_EXTENSIONS : list string := [".pdf"; ".docx"; ".doc"; ".txt"].

(** The dict [JOB_CATEGORIES], in the order of its keys. *)
Definition JOB_CATEGORIES : list (string * list string) :=
  [ ("data_science", ["data scientist"; "machine learning engineer"; "data analyst"]);
    ("software_development", ["software engineer"; "developer"; "programmer"]);
    ("web_development", ["web developer"; "frontend developer"; "backend developer"]);
    ("product_management", ["product manager"; "product owner"; "business analyst"]);
    ("marketing", ["marketing manager"; "digital marketing"; "content marketing"]) ].

End ConfigMore.

(** ** Python's [str] of an integer and [', '.join] *)

Module Text.

Definition of_Z (z : Z) : string := DecimalString.NilZero.string_of_int (Z.to_int z).

(** [', '.join(items)] *)
Fixpoint join_comma (items : list string) : string :=
  match items with
  | [] => ""
  | [w] => w
  | w :: rest => w ++ ", " ++ join_comma rest
  end.

(** [len(s.split())]: the number of maximal runs of characters that are
    not white space.  [in_word] tells that the previous character was
    part of a word. *)
Fixpoint count_words_from (in_word : bool) (l : list ascii) : nat :=
  match l with
  | [] => 0
  | c :: t =>
      if Chars.is_space c then count_words_from false t
      else if in_word then count_words_from true t
      else S (count_words_from true t)
  end.

Definition count_words (s : string) : nat := count_words_from false (chars s).

End Text.

(** ** [utils/text_processing.py]: the other extractors *)

Module TextProcessorMore.
Import TextProcessor.



Definition education_keywords : list string :=
  [ "bachelor"; "master"; "phd"; "doctorate"; "degree"; "university";
    "college"; "institute"; "school"; "bsc"; "msc"; "ba"; "ma";
    "btech"; "mtech"; "mba"; "graduation"; "undergraduate"; "postgraduate" ].

Section WithBackend.
Context `{Backend}.
(** [re.findall(pattern, text)] for a pattern without groups: the
    matches. *)
Variable re_findall : string -> string -> list string.



Definition extract_education (text : string) : list string :=
  let text_lower := lower text in
  let education_info :=
    flat_map
      (fun keyword =>
         if JobMatcher.contains keyword text_lower then
           map ResumeParser.strip
               (List.filter (fun sentence => JobMatcher.contains keyword (lower sentence))
                            (sent_tokenize text))
         else [])
      education_keywords in
  list_of_set (list_to_set education_info).

End WithBackend.

End TextProcessorMore.

(** ** [models/resume_parser.py]: [parse_resume_manual], [get_resume_summary] *)

Module ResumeParserMore.
Import TextProcessor TextProcessorMore ResumeParser.


(** The dict returned by [get_resume_summary]. *)
Record ResumeSummary := {
  contact_info_complete : bool;
  skills_count : nat;
  education_count : nat;
  summary_experience_years : Z;
  companies_count : nat;
  has_phone : bool;
  sections_found : list string
}.

Section WithBackend.
Context `{Backend}.
Variable re_findall : string -> string -> list string.


(** [list(d.keys())] goes through [list_of_set]: the order of the keys is
    not kept by the model. *)
Definition get_resume_summary (parsed_data : ParsedResume) : ResumeSummary :=
  {| contact_info_complete :=
       negb (String.eqb (name parsed_data) "")
       && ScoringEngine.nonempty (email parsed_data);
     skills_count := List.length (skills parsed_data);
     education_count := List.length (education parsed_data);
     summary_experience_years := experience_years parsed_data;
     companies_count := List.length (companies parsed_data);
     has_phone := ScoringEngine.nonempty (phone parsed_data);
     sections_found := list_of_set (dom (sections parsed_data)) |}.

End WithBackend.

End ResumeParserMore.

(** ** [models/job_matcher.py]: [categorize_job_role], [get_matching_recommendations] *)

Module JobMatcherMore.
Import TextProcessor JobMatcher.
Local Open Scope Q_scope.

Definition mentions_any (text_lower : string) (keywords : list string) : bool :=
  existsb (fun keyword => contains (lower keyword) text_lower) keywords.

Definition categorize_job_role (job_description : string) : string :=
  let job_desc_lower := lower job_description in
  match List.find (fun ck => mentions_any job_desc_lower ck.2)
                  ConfigMore.JOB_CATEGORIES with
  | Some (category, _) => category
  | None => "general"
  end.


Section WithBackend.
Context `{Backend}.


End WithBackend.

End JobMatcherMore.

(** ** [models/scoring_engine.py]: [generate_feedback], [get_improvement_suggestions] *)

Module ScoringEngineMore.
Import TextProcessor ResumeParser ScoringEngine.
Local Open Scope Q_scope.

Definition missing_information : string := "📝 **Missing Information**: Add ".
Definition improve_content : string := "📄 **Improve Content**: Resume may be too short/long or lack detail".
Definition add_more_skills : string := "🎯 **Add More Skills**: Include relevant technical and soft skills".
Definition optimize_skills : string := "🎯 **Optimize Skills**: Focus on most relevant skills (8-15 recommended)".
Definition add_experience : string := "💼 **Add Experience**: Include internships, projects, or volunteer work".
Definition enhance_experience : string := "💼 **Enhance Experience**: Add more details about roles and achievements".
Definition improve_job_match : string := "🎯 **Improve Job Match**: Tailor resume to better match job requirements".
Definition complete_profile : string := "✅ **Complete Profile**: Well-structured resume with all essential sections".
Definition strong_skills_profile : string := "🌟 **Strong Skills Profile**: Good mix of relevant technical and soft skills".

Definition add_numbers : string := "📊 **Add Numbers**: Include metrics, percentages, or quantities to showcase impact".
Definition use_action_verbs : string := "⚡ **Use Action Verbs**: Start bullet points with strong action verbs".
Definition expand_content : string := "📝 **Expand Content**: Add more details about your experience and achievements".
Definition concise_writing : string := "✂️ **Concise Writing**: Consider reducing content to focus on most relevant information".
Definition add_email : string := "📧 **Add Email**: Include a professional email address".
Definition add_phone : string := "📱 **Add Phone**: Include your phone number for contact".

(** [x < y] on floats *)
Definition below (x y : Q) : bool := negb (Qle_bool y x).

(** The list [missing_sections] of [generate_feedback]. *)
Definition missing_sections (parsed_resume : ParsedResume) : list string :=
  (if String.eqb (name parsed_resume) "" then ["name"] else [])
  ++ (if nonempty (email parsed_resume) || nonempty (phone parsed_resume)
      then [] else ["contact information"])
  ++ (if nonempty (skills parsed_resume) then [] else ["skills section"])
  ++ (if nonempty (education parsed_resume) then [] else ["education details"]).

Definition generate_feedback (scores : list (string * Q))
    (parsed_resume : ParsedResume) : list string :=
  let completeness_score := Num.get scores "completeness" in
  let about_completeness :=
    if below completeness_score 0.7 then
      match missing_sections parsed_resume with
      | [] => []
      | missing => [(missing_information ++ Text.join_comma missing)%string]
      end
    else [] in
  let content_score := Num.get scores "content_quality" in
  let about_content := if below content_score 0.6 then [improve_content] else [] in
  let skills_score := Num.get scores "skills_relevance" in
  let about_skills :=
    if below skills_score 0.6 then
      let skills_count := List.length (skills parsed_resume) in
      if (skills_count <? 5)%nat then [add_more_skills]
      else if (20 <? skills_count)%nat then [optimize_skills]
      else []
    else [] in
  let exp_score := Num.get scores "experience" in
  let about_experience :=
    if below exp_score 0.5 then
      if (experience_years parsed_resume =? 0)%Z then [add_experience]
      else [enhance_experience]
    else [] in
  let job_match_score := Num.get scores "job_match" in   (* scores.get('job_match', 0) *)
  let about_job_match :=
    if below 0 job_match_score && below job_match_score 0.6
    then [improve_job_match] else [] in
  let praise_completeness :=
    if Qle_bool 0.8 (Num.get scores "completeness") then [complete_profile] else [] in
  let praise_skills :=
    if Qle_bool 0.8 (Num.get scores "skills_relevance")
    then [strong_skills_profile] else [] in
  about_completeness ++ about_content ++ about_skills ++ about_experience
  ++ about_job_match ++ praise_completeness ++ praise_skills.

Definition action_verbs : list string :=
  ["achieved"; "developed"; "managed"; "led"; "created"; "improved"; "increased"].

Definition get_improvement_suggestions (parsed_resume : ParsedResume)
    (resume_text : string) : list string :=
  let about_numbers :=
    if existsb Chars.is_digit (chars resume_text) then [] else [add_numbers] in
  let about_verbs :=
    if existsb (fun verb => JobMatcher.contains verb (lower resume_text)) action_verbs
    then [] else [use_action_verbs] in
  let word_count := Text.count_words resume_text in
  let about_length :=
    if (word_count <? 200)%nat then [expand_content]
    else if (1000 <? word_count)%nat then [concise_writing]
    else [] in
  let about_email := if nonempty (email parsed_resume) then [] else [add_email] in
  let about_phone := if nonempty (phone parsed_resume) then [] else [add_phone] in
  about_numbers ++ about_verbs ++ about_length ++ about_email ++ about_phone.

Section WithBackend.
Context `{Backend}.

(** The entry [feedback] of the result of [calculate_overall_score]. *)
Definition overall_feedback (parsed_resume : ParsedResume)
    (resume_text : string) (job_description : option string) : list string :=
  generate_feedback (category_values parsed_resume resume_text job_description)
                    parsed_resume.

End WithBackend.

End ScoringEngineMore.

(** ** [utils/file_handler.py]: [validate_file], [extract_text] *)

Module FileHandler.
Import TextProcessor.

(** What the code reads of an uploaded file. *)
Record UploadedFile := {
  file_name : string;
  file_size : Z
}.

Definition max_file_size : Z := ConfigMore.MAX_FILE_SIZE_MB * 1024 * 1024.

Section WithLibraries.
(** [Path(name).suffix] *)
Variable path_suffix : string -> string.
(** [extract_text_from_pdf], [.._docx], [.._doc], [.._txt], which call
    the document libraries. *)
Variables extract_text_from_pdf extract_text_from_docx
          extract_text_from_doc extract_text_from_txt : UploadedFile -> string.

Definition validate_file (uploaded_file : option UploadedFile) : bool * string :=
  match uploaded_file with
  | None => (false, "No file uploaded")
  | Some file =>
      if (max_file_size <? file_size file)%Z then
        (false, ("File size exceeds " ++ Text.of_Z ConfigMore.MAX_FILE_SIZE_MB
                 ++ "MB limit")%string)
      else
        let file_extension := lower (path_suffix (file_name file)) in
        if existsb (String.eqb file_extension) ConfigMore.ALLOWED_EXTENSIONS then
          (true, "File is valid")
        else
          (false, ("File type " ++ file_extension
                   ++ " not supported. Allowed types: "
                   ++ Text.join_comma ConfigMore.ALLOWED_EXTENSIONS)%string)
  end.

Definition extract_text (uploaded_file : option UploadedFile) : string :=
  match uploaded_file with
  | None => ""
  | Some file =>
      let file_extension := lower (path_suffix (file_name file)) in
      if String.eqb file_extension ".pdf" then extract_text_from_pdf file
      else if String.eqb file_extension ".docx" then extract_text_from_docx file
      else if String.eqb file_extension ".doc" then extract_text_from_doc file
      else if String.eqb file_extension ".txt" then extract_text_from_txt file
      else ""
  end.

End WithLibraries.

End FileHandler.

(** ** A stand-in for [Path(name).suffix] and for the document readers *)

Module SampleFiles.

(** What follows the last dot of the name, the dot included; the empty
    string when the name has no dot. *)
Fixpoint suffix_from (l : list ascii) : option (list ascii) :=
  match l with
  | [] => None
  | c :: t =>
      match suffix_from t with
      | Some s => Some s
      | None => if Ascii.eqb c "."%char then Some (c :: t) else None
      end
  end.

Definition suffix (name : string) : string :=
  match suffix_from (chars name) with
  | Some s => str s
  | None => ""
  end.

Definition reader (kind : string) (file : FileHandler.UploadedFile) : string :=
  (kind ++ " text of " ++ FileHandler.file_name file)%string.

End SampleFiles.
(** * Properties *)

(** ** Binary floating point

    Rounding to the nearest float keeps the order, is exact on the
    numbers that are floats, and is off by at most half a unit in the
    last place. *)

Section RoundHalfEven.
Local Open Scope Q_scope.

Lemma round_half_even_comp (p q : Q) :
  p == q -> Num.round_half_even p = Num.round_half_even q.
Proof.
intros E. unfold Num.round_half_even.
rewrite (Qfloor_comp _ _ E).
assert (E' : p - inject_Z (Qfloor q) == q - inject_Z (Qfloor q)) by (rewrite E; reflexivity).
rewrite (Qcompare_comp _ _ E' _ _ (Qeq_refl (1 # 2))). reflexivity.
Qed.

Lemma round_half_even_Z (n : Z) : Num.round_half_even (inject_Z n) = n.
Proof.
unfold Num.round_half_even. rewrite Qfloor_Z.
assert (E : inject_Z n - inject_Z n == 0) by ring.
rewrite (Qcompare_comp _ _ E _ _ (Qeq_refl (1 # 2))). reflexivity.
Qed.

Lemma round_half_even_near (q : Q) :
  Qabs (inject_Z (Num.round_half_even q) - q) <= 1 # 2.
Proof.
unfold Num.round_half_even.
pose proof (Qfloor_le q) as Hfl. pose proof (Qlt_floor q) as Hfu.
rewrite inject_Z_plus in Hfu. change (inject_Z 1) with 1 in Hfu.
apply Qabs_Qle_condition.
destruct (Qcompare (q - inject_Z (Qfloor q)) (1 # 2)) eqn:Ecmp.
- apply Qeq_alt in Ecmp.
  destruct (Z.even (Qfloor q)).
  + lra.
  + rewrite inject_Z_plus. change (inject_Z 1) with 1. lra.
- apply Qlt_alt in Ecmp. lra.
- apply Qgt_alt in Ecmp. rewrite inject_Z_plus. change (inject_Z 1) with 1. lra.
Qed.

Lemma round_half_even_mono (p q : Q) :
  p <= q -> (Num.round_half_even p <= Num.round_half_even q)%Z.
Proof.
intros Hle.
pose proof (Qfloor_resp_le _ _ Hle) as Hfl.
destruct (Z.eq_dec (Qfloor p) (Qfloor q)) as [E | NE].
- unfold Num.round_half_even. rewrite E.
  destruct (Qcompare_spec (p - inject_Z (Qfloor q)) (1 # 2)) as [Hp | Hp | Hp];
    destruct (Qcompare_spec (q - inject_Z (Qfloor q)) (1 # 2)) as [Hq | Hq | Hq];
    try destruct (Z.even (Qfloor q)); try lia; exfalso; lra.
- assert (Hlt : (Qfloor p + 1 <= Qfloor q)%Z) by lia.
  assert (Hp : (Num.round_half_even p <= Qfloor p + 1)%Z).
  { unfold Num.round_half_even.
    destruct (Qcompare _ _); try destruct (Z.even _); lia. }
  assert (Hq : (Qfloor q <= Num.round_half_even q)%Z).
  { unfold Num.round_half_even.
    destruct (Qcompare _ _); try destruct (Z.even _); lia. }
  lia.
Qed.

End RoundHalfEven.

Section Pow2Facts.
Local Open Scope Q_scope.
Import F64.

Lemma two_nonzero : ~ 2 == 0.
Proof. discriminate. Qed.

Lemma pow2_pos e : 0 < pow2 e.
Proof. apply Qpower_0_lt. reflexivity. Qed.

Lemma pow2_add a b : pow2 (a + b) == pow2 a * pow2 b.
Proof. apply Qpower_plus, two_nonzero. Qed.

Lemma pow2_sub a b : pow2 (a - b) == pow2 a / pow2 b.
Proof. apply Qpower_minus, two_nonzero. Qed.


Lemma pow2_lt a b : (a < b)%Z -> pow2 a < pow2 b.
Proof. intros H. apply Qpower_lt_compat_l; [exact H | reflexivity]. Qed.

Lemma pow2_lt_inv a b : pow2 a < pow2 b -> (a < b)%Z.
Proof. intros H. apply (Qpower_lt_compat_l_inv 2); [exact H | reflexivity]. Qed.

Lemma pow2_Z e : (0 <= e)%Z -> pow2 e == inject_Z (2 ^ e).
Proof. intros H. unfold pow2. now rewrite Zpower_Qpower. Qed.

Lemma pow2_succ e : pow2 (e + 1) == 2 * pow2 e.
Proof. rewrite pow2_add. change (pow2 1) with 2. ring. Qed.


End Pow2Facts.

Section Ilog2Facts.
Local Open Scope Q_scope.
Import F64.

Lemma log2_pow2 (n : Z) :
  (0 < n)%Z -> pow2 (Z.log2 n) <= inject_Z n /\ inject_Z n < pow2 (Z.log2 n + 1).
Proof.
intros Hn. destruct (Z.log2_spec n Hn) as [Hl Hu].
pose proof (Z.log2_nonneg n) as Hnn.
rewrite !pow2_Z by lia. rewrite <- Zle_Qle, <- Zlt_Qlt.
split; [exact Hl |]. now rewrite Z.add_1_r.
Qed.

Lemma ilog2_spec (x : Q) :
  ~ x == 0 -> pow2 (ilog2 x) <= Qabs x /\ Qabs x < pow2 (ilog2 x + 1).
Proof.
intros Hx. unfold ilog2.
set (n := Z.abs (Qnum x)). set (d := Zpos (Qden x)).
assert (Hn : (0 < n)%Z).
{ unfold n. destruct x as [xn xd]. simpl.
  assert (xn <> 0%Z).
  { intros ->. apply Hx. reflexivity. }
  lia. }
assert (Hd : (0 < d)%Z) by (unfold d; lia).
destruct (log2_pow2 n Hn) as [Hnl Hnu].
destruct (log2_pow2 d Hd) as [Hdl Hdu].
assert (Eabs : Qabs x == inject_Z n / inject_Z d).
{ destruct x as [xn xd]. unfold n, d. simpl. apply Qmake_Qdiv. }
set (a := Z.log2 n) in *. set (b := Z.log2 d) in *.
pose proof (pow2_pos a) as Ha. pose proof (pow2_pos b) as Hb.
assert (HD : 0 < inject_Z d) by (rewrite <- (Zlt_Qlt 0); exact Hd).
assert (Hup : Qabs x < pow2 (a - b + 1)).
{ rewrite Eabs. apply Qlt_shift_div_r; [exact HD |].
  replace (a - b + 1)%Z with ((a + 1) - b)%Z by ring.
  rewrite pow2_sub.
  apply Qlt_le_trans with (pow2 (a + 1)); [exact Hnu |].
  apply Qle_trans with (pow2 (a + 1) / pow2 b * pow2 b).
  - apply Qle_lteq. right. field. lra.
  - apply Qmult_le_l; [| exact Hdl].
    apply Qlt_shift_div_l; [exact Hb |]. rewrite Qmult_0_l. apply pow2_pos. }
assert (Hlow : pow2 (a - b - 1) < Qabs x).
{ rewrite Eabs. apply Qlt_shift_div_l; [exact HD |].
  replace (a - b - 1)%Z with (a - (b + 1))%Z by ring.
  rewrite pow2_sub.
  apply Qlt_le_trans with (pow2 a); [| exact Hnl].
  pose proof (pow2_pos (b + 1)) as Hb1.
  apply Qlt_le_trans with (pow2 a / pow2 (b + 1) * pow2 (b + 1)).
  - apply Qmult_lt_l; [| exact Hdu].
    apply Qlt_shift_div_l; [exact Hb1 |]. rewrite Qmult_0_l. exact Ha.
  - apply Qle_lteq. right. field. lra. }
destruct (Qle_bool (pow2 (a - b)) (Qabs x)) eqn:E.
- apply Qle_bool_iff in E. split; [exact E | exact Hup].
- split; [apply Qlt_le_weak; exact Hlow |].
  replace (a - b - 1 + 1)%Z with (a - b)%Z by ring.
  apply Qnot_le_lt. intros Hc. apply Qle_bool_iff in Hc. congruence.
Qed.

End Ilog2Facts.

Section RndFacts.
Local Open Scope Q_scope.
Import F64.

Lemma pos_nonzero x : 0 < x -> ~ x == 0.
Proof. intros H E. rewrite E in H. discriminate. Qed.

Lemma ilog2_pos_spec (x : Q) :
  0 < x -> pow2 (ilog2 x) <= x /\ x < pow2 (ilog2 x + 1).
Proof.
intros Hx. destruct (ilog2_spec x (pos_nonzero x Hx)) as [Hl Hu].
rewrite Qabs_pos in Hl, Hu by lra. now split.
Qed.

Lemma ilog2_unique (x : Q) (k : Z) :
  pow2 k <= x -> x < pow2 (k + 1) -> ilog2 x = k.
Proof.
intros Hl Hu.
assert (Hx : 0 < x) by (pose proof (pow2_pos k); lra).
destruct (ilog2_pos_spec x Hx) as [Hl' Hu'].
assert (ilog2 x < k + 1)%Z by (apply pow2_lt_inv; lra).
assert (k < ilog2 x + 1)%Z by (apply pow2_lt_inv; lra).
lia.
Qed.


Lemma ilog2_comp (x y : Q) : 0 < x -> x == y -> ilog2 x = ilog2 y.
Proof.
intros Hx E. symmetry. destruct (ilog2_pos_spec x Hx) as [Hl Hu].
apply ilog2_unique; rewrite <- E; assumption.
Qed.


Lemma rnd_0 : rnd 0 = 0.
Proof. reflexivity. Qed.

Lemma rnd_pos_eq (x : Q) :
  0 < x ->
  rnd x = inject_Z (Num.round_half_even (x / pow2 (ulp_exp x))) * pow2 (ulp_exp x).
Proof.
intros Hx. unfold rnd.
destruct (Qeq_bool x 0) eqn:E; [| reflexivity].
apply Qeq_bool_iff in E. rewrite E in Hx. discriminate.
Qed.

Lemma rnd_comp (x y : Q) : 0 <= x -> x == y -> rnd x == rnd y.
Proof.
intros Hx E.
destruct (Qeq_dec x 0) as [E0 | N0].
- unfold rnd.
  assert (Ex : Qeq_bool x 0 = true) by (now apply Qeq_bool_iff).
  assert (Ey : Qeq_bool y 0 = true) by (apply Qeq_bool_iff; now rewrite <- E).
  rewrite Ex, Ey. reflexivity.
- assert (Hpx : 0 < x).
  { apply Qle_lteq in Hx. destruct Hx as [Hx | Hx]; [exact Hx |].
    contradiction N0. now symmetry. }
  assert (Hpy : 0 < y) by (now rewrite <- E).
  rewrite (rnd_pos_eq x Hpx), (rnd_pos_eq y Hpy).
  unfold ulp_exp. rewrite (ilog2_comp x y Hpx E).
  set (e := Z.max (ilog2 y - 52) (-1074)).
  assert (E' : x / pow2 e == y / pow2 e) by (now rewrite E).
  now rewrite (round_half_even_comp _ _ E').
Qed.

Lemma rnd_nonneg (x : Q) : 0 <= x -> 0 <= rnd x.
Proof.
intros Hx. destruct (Qeq_dec x 0) as [E0 | N0].
- rewrite (rnd_comp x 0 Hx E0). rewrite rnd_0. lra.
- assert (Hpx : 0 < x).
  { apply Qle_lteq in Hx. destruct Hx as [Hx | Hx]; [exact Hx |].
    contradiction N0. now symmetry. }
  rewrite (rnd_pos_eq x Hpx).
  pose proof (pow2_pos (ulp_exp x)) as Hp.
  assert (H0 : (0 <= Num.round_half_even (x / pow2 (ulp_exp x)))%Z).
  { rewrite <- (round_half_even_Z 0). apply round_half_even_mono.
    apply Qle_shift_div_l; [exact Hp |].
    change (inject_Z 0) with 0. rewrite Qmult_0_l. lra. }
  rewrite Zle_Qle in H0. change (inject_Z 0) with 0 in H0.
  apply Qmult_le_0_compat; lra.
Qed.

(** The error of one rounding: half a unit in the last place. *)
Lemma rnd_error_ulp (x : Q) :
  0 < x -> Qabs (rnd x - x) <= pow2 (ulp_exp x) * (1 # 2).
Proof.
intros Hx. rewrite (rnd_pos_eq x Hx).
set (e := ulp_exp x). pose proof (pow2_pos e) as Hp.
pose proof (round_half_even_near (x / pow2 e)) as Hn.
set (m := inject_Z (Num.round_half_even (x / pow2 e))) in *.
assert (E : m * pow2 e - x == (m - x / pow2 e) * pow2 e) by (field; lra).
rewrite E, Qabs_Qmult, (Qabs_pos (pow2 e)) by lra.
rewrite (Qmult_comm (pow2 e)). apply Qmult_le_compat_r; lra.
Qed.

Lemma rnd_error (x : Q) :
  0 <= x -> Qabs (rnd x - x) <= x * pow2 (-53) + pow2 (-1075).
Proof.
intros Hx0. destruct (Qeq_dec x 0) as [E0 | N0].
- rewrite (rnd_comp x 0 Hx0 E0), rnd_0, E0.
  pose proof (pow2_pos (-1075)). apply Qabs_Qle_condition. lra.
- assert (Hx : 0 < x).
  { apply Qle_lteq in Hx0. destruct Hx0 as [H | H]; [exact H |].
    contradiction N0. now symmetry. }
  eapply Qle_trans; [apply (rnd_error_ulp x Hx) |].
  destruct (ilog2_pos_spec x Hx) as [Hl _].
  pose proof (pow2_pos (-53)) as H53. pose proof (pow2_pos (-1075)) as H1075.
  unfold ulp_exp.
  destruct (Z.max_spec (ilog2 x - 52) (-1074)) as [[_ ->] | [_ ->]].
  + assert (E : pow2 (-1074) * (1 # 2) == pow2 (-1075)).
    { replace (-1074)%Z with (-1075 + 1)%Z by reflexivity.
      rewrite pow2_succ. ring. }
    rewrite E.
    assert (0 <= x * pow2 (-53)) by (apply Qmult_le_0_compat; lra).
    lra.
  + assert (E : pow2 (ilog2 x - 52) * (1 # 2) == pow2 (ilog2 x) * pow2 (-53)).
    { replace (ilog2 x - 52)%Z with (ilog2 x + -53 + 1)%Z by ring.
      rewrite pow2_succ, pow2_add. ring. }
    rewrite E.
    assert (pow2 (ilog2 x) * pow2 (-53) <= x * pow2 (-53)).
    { apply Qmult_le_compat_r; lra. }
    lra.
Qed.

(** A number with at most 53 significant bits, above the smallest
    exponent, is its own rounding. *)
Lemma rnd_exact (x : Q) (m c : Z) :
  (0 < m < 2 ^ 53)%Z -> (-1074 <= c)%Z -> x == inject_Z m * pow2 c ->
  rnd x == x.
Proof.
intros [Hm0 Hm] Hc Ex.
pose proof (pow2_pos c) as Hpc.
assert (Hqm : 0 < inject_Z m) by (rewrite <- (Zlt_Qlt 0); exact Hm0).
assert (Hx : 0 < x).
{ rewrite Ex. apply Qmult_lt_0_compat; assumption. }
rewrite (rnd_pos_eq x Hx).
destruct (ilog2_pos_spec x Hx) as [Hl _].
assert (Hlog : (ilog2 x < 53 + c)%Z).
{ apply pow2_lt_inv. eapply Qle_lt_trans; [exact Hl |].
  rewrite Ex, pow2_add. apply Qmult_lt_compat_r; [exact Hpc |].
  rewrite pow2_Z by lia. now rewrite <- Zlt_Qlt. }
set (e := ulp_exp x).
assert (He : (e <= c)%Z) by (unfold e, ulp_exp; lia).
pose proof (pow2_pos e) as Hpe.
assert (Ediv : x / pow2 e == inject_Z (m * 2 ^ (c - e))).
{ rewrite inject_Z_mult, <- pow2_Z by lia. rewrite Ex, pow2_sub.
  field. lra. }
rewrite (round_half_even_comp _ _ Ediv), round_half_even_Z.
rewrite inject_Z_mult, <- pow2_Z by lia. rewrite Ex, pow2_sub.
field. lra.
Qed.

Lemma rnd_Z (n : Z) : (0 <= n < 2 ^ 53)%Z -> rnd (inject_Z n) == inject_Z n.
Proof.
intros [H0 Hn]. destruct (Z.eq_dec n 0%Z) as [-> | N0].
- reflexivity.
- apply (rnd_exact _ n 0%Z); [lia | lia |].
  change (pow2 0) with 1. ring.
Qed.


End RndFacts.

(** ** Facts on characters *)

Section CharFacts.
Import Shape.
Import Chars.

Lemma lower_char_not_upper c : is_upper (lower_char c) = false.
Proof. destruct c as [[] [] [] [] [] [] [] []]; reflexivity. Qed.

Lemma upper_not_space c : is_upper c = true -> is_space c = false.
Proof. destruct c as [[] [] [] [] [] [] [] []]; vm_compute; congruence. Qed.

Lemma letter_not_space c : is_letter c = true -> is_space c = false.
Proof. destruct c as [[] [] [] [] [] [] [] []]; vm_compute; congruence. Qed.

Lemma letter_no_upper_is_lower c :
  is_letter c = true -> is_upper c = false -> is_lower c = true.
Proof. unfold is_letter. intros H1 H2. rewrite H2 in H1. exact H1. Qed.

Lemma clean_char_lower c : clean_char c -> lower_char c = c.
Proof.
intros [H | ->]; [| reflexivity].
destruct c as [[] [] [] [] [] [] [] []]; vm_compute in *; congruence.
Qed.

Lemma clean_char_kept c : clean_char c -> is_letter c || is_space c = true.
Proof.
intros [H | ->]; [| reflexivity].
unfold is_letter. rewrite H. now rewrite orb_true_r.
Qed.

Lemma clean_char_space c : clean_char c -> is_space c = true -> c = space.
Proof.
intros [H | ->] Hs; [| reflexivity].
destruct c as [[] [] [] [] [] [] [] []]; vm_compute in *; congruence.
Qed.

End CharFacts.

(** ** [clean_text] *)

Section CleanTextFacts.
Import Chars Str CleanText Shape.

Lemma lower_no_upper l : Forall (fun c => is_upper c = false) (lower l).
Proof.
induction l as [| c t IH]; simpl; constructor; auto using lower_char_not_upper.
Qed.

(** After lower-casing and the first substitution every character is a
    lower-case letter or white space. *)
Lemma sub_lower_chars l :
  Forall (fun c => is_lower c = true \/ is_space c = true)
         (sub_non_letters (lower l)).
Proof.
induction l as [| c t IH]; simpl; constructor; auto.
pose proof (lower_char_not_upper c) as Hu.
destruct (is_letter (lower_char c)) eqn:Hl; simpl.
- left. now apply letter_no_upper_is_lower.
- destruct (is_space (lower_char c)) eqn:Hs; right; [exact Hs | reflexivity].
Qed.

Lemma collapse_from_chars b l :
  Forall (fun c => is_lower c = true \/ is_space c = true) l ->
  Forall clean_char (collapse_from b l).
Proof.
intros H. revert b.
induction H as [| c t Hc _ IH]; intros b; simpl; [constructor |].
destruct (is_space c) eqn:Hs.
- destruct b; [apply IH |]. constructor; [now right | apply IH].
- constructor; [| apply IH]. destruct Hc as [Hc | Hc]; [now left | congruence].
Qed.

Lemma collapse_from_no_runs b l : no_runs b (collapse_from b l) = true.
Proof.
revert b. induction l as [| c t IH]; intros b; simpl; [reflexivity |].
destruct (is_space c) eqn:Hs.
- destruct b; [apply IH |]. simpl. apply IH.
- simpl. rewrite Hs. apply IH.
Qed.

Lemma collapse_from_fixed b l :
  Forall clean_char l -> no_runs b l = true -> collapse_from b l = l.
Proof.
intros H. revert b.
induction H as [| c t Hc _ IH]; intros b Hr; simpl in *; [reflexivity |].
destruct (is_space c) eqn:Hs.
- apply andb_prop in Hr as [Hb Hr]. destruct b; [discriminate |].
  rewrite (clean_char_space c Hc Hs). f_equal. now apply IH.
- f_equal. now apply IH.
Qed.

(** [lstrip] drops a prefix, [rstrip] a suffix. *)
Lemma lstrip_suffix l : exists p, l = p ++ lstrip l.
Proof.
induction l as [| c t [p Hp]]; simpl; [now exists [] |].
destruct (is_space c).
- exists (c :: p). simpl. now f_equal.
- now exists [].
Qed.

Lemma rstrip_prefix l : exists s, l = rstrip l ++ s.
Proof.
unfold rstrip. destruct (lstrip_suffix (rev l)) as [p Hp].
exists (rev p). rewrite <- rev_app_distr, <- Hp. now rewrite rev_involutive.
Qed.

Lemma lstrip_head_ok l : head_ok (lstrip l).
Proof.
induction l as [| c t IH]; simpl; [exact I |].
destruct (is_space c) eqn:Hs; [exact IH | exact Hs].
Qed.

Lemma head_ok_lstrip l : head_ok l -> lstrip l = l.
Proof. destruct l as [| c t]; simpl; [reflexivity |]. now intros ->. Qed.

Lemma head_ok_prefix p s : head_ok (p ++ s) -> head_ok p.
Proof. destruct p; simpl; auto. Qed.

Lemma lstrip_idem l : lstrip (lstrip l) = lstrip l.
Proof. apply head_ok_lstrip, lstrip_head_ok. Qed.

Lemma rstrip_idem l : rstrip (rstrip l) = rstrip l.
Proof. unfold rstrip. now rewrite rev_involutive, lstrip_idem. Qed.

Lemma strip_head_ok l : head_ok (strip l).
Proof.
unfold strip. destruct (rstrip_prefix (lstrip l)) as [s Hs].
apply head_ok_prefix with s. rewrite <- Hs. apply lstrip_head_ok.
Qed.

Lemma strip_idem l : strip (strip l) = strip l.
Proof.
unfold strip at 1. rewrite (head_ok_lstrip _ (strip_head_ok l)).
apply rstrip_idem.
Qed.

Lemma no_runs_weaken b l : no_runs b l = true -> no_runs false l = true.
Proof.
destruct l as [| c t]; simpl; [reflexivity |].
destruct (is_space c); [| auto].
intros H. apply andb_prop in H as [_ H]. exact H.
Qed.

Lemma no_runs_suffix p l b :
  no_runs b (p ++ l) = true -> no_runs false l = true.
Proof.
revert b. induction p as [| c t IH]; intros b; simpl.
- apply no_runs_weaken.
- destruct (is_space c).
  + intros H. apply andb_prop in H as [_ H]. eauto using no_runs_weaken.
  + eauto.
Qed.

Lemma no_runs_prefix p s b :
  no_runs b (p ++ s) = true -> no_runs b p = true.
Proof.
revert b. induction p as [| c t IH]; intros b; simpl; [reflexivity |].
destruct (is_space c).
- intros H. apply andb_prop in H as [Hb H]. rewrite Hb. simpl. eauto.
- eauto.
Qed.

Lemma strip_chars (P : ascii -> Prop) l : Forall P l -> Forall P (strip l).
Proof.
intros H. unfold strip.
destruct (lstrip_suffix l) as [p Hp].
destruct (rstrip_prefix (lstrip l)) as [s Hs].
rewrite Hp in H. apply Forall_app in H as [_ H].
rewrite Hs in H. now apply Forall_app in H as [H _].
Qed.

Lemma strip_no_runs l : no_runs false l = true -> no_runs false (strip l) = true.
Proof.
intros H. unfold strip.
destruct (lstrip_suffix l) as [p Hp].
destruct (rstrip_prefix (lstrip l)) as [s Hs].
rewrite Hp in H. apply no_runs_suffix in H.
rewrite Hs in H. now apply no_runs_prefix in H.
Qed.

(** The four steps of [clean_text] leave a text of clean shape alone. *)
Lemma lower_fixed l : Forall clean_char l -> lower l = l.
Proof.
induction 1 as [| c t Hc _ IH]; simpl; [reflexivity |].
now rewrite (clean_char_lower c Hc), IH.
Qed.

Lemma sub_non_letters_fixed l : Forall clean_char l -> sub_non_letters l = l.
Proof.
induction 1 as [| c t Hc _ IH]; simpl; [reflexivity |].
now rewrite (clean_char_kept c Hc), IH.
Qed.

Lemma clean_chars_shape l :
  Forall clean_char (clean_chars l)
  /\ no_runs false (clean_chars l) = true
  /\ strip (clean_chars l) = clean_chars l.
Proof.
destruct l as [| c t]; [repeat split; constructor |].
unfold clean_chars. set (x := sub_non_letters (lower (c :: t))).
repeat split.
- apply strip_chars, collapse_from_chars, sub_lower_chars.
- apply strip_no_runs, collapse_from_no_runs.
- apply strip_idem.
Qed.

Lemma clean_chars_fixed l :
  Forall clean_char l -> no_runs false l = true -> strip l = l ->
  clean_chars l = l.
Proof.
intros Hc Hr Hs. destruct l as [| c t]; [reflexivity |].
unfold clean_chars, collapse_spaces.
now rewrite (lower_fixed _ Hc), (sub_non_letters_fixed _ Hc),
  (collapse_from_fixed _ _ Hc Hr).
Qed.

Lemma clean_chars_idempotent l : clean_chars (clean_chars l) = clean_chars l.
Proof.
destruct (clean_chars_shape l) as (Hc & Hr & Hs).
now apply clean_chars_fixed.
Qed.

(** C9. [clean_text] is idempotent: cleaning a cleaned text changes
    nothing; and on the empty text it returns the empty text. *)
Theorem clean_text_idempotent :
  (forall T : string, clean_text (clean_text T) = clean_text T)
  /\ clean_text "" = "".
Proof.
split; [| reflexivity].
intros T. unfold clean_text.
now rewrite list_ascii_of_string_of_list_ascii, clean_chars_idempotent.
Qed.

Example clean_text_sample :
  clean_text "  Hello,	World! 5+ years  " = "hello world years".
Proof. reflexivity. Qed.

End CleanTextFacts.

(** ** Facts on numbers *)

Section NumberFacts.
Local Open Scope Q_scope.

Lemma Qle_bool_false x y : Qle_bool x y = false <-> y < x.
Proof.
rewrite <- not_true_iff_false, Qle_bool_iff. split.
- apply Qnot_le_lt.
- apply Qlt_not_le.
Qed.

Lemma Qeq_bool_same x : Qeq_bool x x = true.
Proof. apply Qeq_bool_iff. reflexivity. Qed.

End NumberFacts.

(** ** Skill extraction and skill gaps *)

Section SkillFacts.
Context `{Backend}.
Import TextProcessor JobMatcher.

(** Listing a set and collecting the list again gives the set back. *)
Lemma list_of_set_elem_of (X : gset string) x : x ∈ list_of_set X <-> x ∈ X.
Proof. rewrite (list_of_set_perm X). apply elem_of_elements. Qed.

Lemma list_of_set_NoDup (X : gset string) : NoDup (list_of_set X).
Proof. rewrite (list_of_set_perm X). apply NoDup_elements. Qed.


Lemma elem_of_bool_filter {A} (f : A -> bool) (l : list A) x :
  x ∈ List.filter f l <-> x ∈ l /\ f x = true.
Proof. rewrite !list_elem_of_In. apply filter_In. Qed.

(** C8. [extract_skills(T, S)] has no duplicates, and its elements are
    strings of [S] themselves: exactly those whose lower-cased form is
    found as a whole word in the lower-cased text. *)
Theorem extract_skills_canonical (T : string) (S : list string) :
  NoDup (extract_skills T (Some S))
  /\ (forall x, x ∈ extract_skills T (Some S) -> x ∈ S)
  /\ (forall x, x ∈ extract_skills T (Some S) <->
                x ∈ S /\ WordRegex.search (lower x) (lower T) = true).
Proof.
unfold extract_skills.
assert (Hiff : forall x,
  x ∈ list_of_set (list_to_set
        (List.filter (fun skill => WordRegex.search (lower skill) (lower T)) S))
  <-> x ∈ S /\ WordRegex.search (lower x) (lower T) = true).
{ intros x.
  rewrite list_of_set_elem_of, elem_of_list_to_set.
  exact (elem_of_bool_filter
           (fun skill => WordRegex.search (lower skill) (lower T)) S x). }
split; [apply list_of_set_NoDup |].
split; [| exact Hiff].
intros x Hx. now apply Hiff in Hx.
Qed.

(** The default list is the configured one. *)
Lemma extract_skills_default T :
  extract_skills T None
  = extract_skills T (Some (Config.TECHNICAL_SKILLS ++ Config.SOFT_SKILLS)).
Proof. reflexivity. Qed.




End SkillFacts.

Example extract_skills_sample :
  @TextProcessor.extract_skills (Demo.backend 0)
    "I know Python, Java and Node.js, but no JavaScripting." None
  = ["node.js"; "java"; "python"].
Proof. vm_compute. reflexivity. Qed.

(** ** Entities *)

Section EntityFacts.
Context `{Backend}.
Import TextProcessor.

Lemma add_entity_dom entities ent : dom (add_entity entities ent) = dom entities.
Proof.
unfold add_entity. destruct (entities !! ent.1) as [spans |] eqn:E; [| reflexivity].
rewrite dom_insert_L. apply elem_of_dom_2 in E.
apply subseteq_union_1_L. now apply singleton_subseteq_l.
Qed.

Lemma fold_add_entity_dom ents entities :
  dom (fold_left add_entity ents entities) = dom entities.
Proof.
revert entities. induction ents as [| e t IH]; intros entities; simpl; [reflexivity |].
now rewrite IH, add_entity_dom.
Qed.

(** With a recognizer the result has the six kinds as its keys, whatever
    the recognizer found. *)
Lemma extract_entities_configured recognize text :
  nlp = Some recognize ->
  dom (extract_entities text) = dom no_entities.
Proof. intros E. unfold extract_entities. rewrite E. apply fold_add_entity_dom. Qed.

(** C2, as the code has it.  Without a recognizer [extract_entities]
    returns, for every text, the empty dict: none of the six kinds is a
    key of it, so no kind maps to a sequence, empty or not.  Being a
    total function, it returns on every text. *)
Theorem extract_entities_unconfigured (text : string) :
  nlp = None ->
  extract_entities text = ∅
  /\ forall kind, extract_entities text !! kind = None.
Proof.
intros E. unfold extract_entities. rewrite E.
split; [reflexivity |]. intros kind. apply lookup_empty.
Qed.

End EntityFacts.

(** C2, as the claim states it: at a concrete text, without a recognizer,
    it is not the case that each of the six kinds maps to the empty
    sequence; [PERSON] maps to nothing. *)
Lemma extract_entities_unconfigured_six_kinds_fail :
  @nlp (Demo.backend 0) = None
  /\ ~ (forall kind,
          kind ∈ ["PERSON"; "ORG"; "DATE"; "GPE"; "MONEY"; "PERCENT"] ->
          @TextProcessor.extract_entities (Demo.backend 0)
            "Ada Lovelace joined Analytical Engines in 1843" !! kind = Some []).
Proof.
split; [reflexivity |].
intros Hall. specialize (Hall "PERSON" ltac:(left)).
change (@TextProcessor.extract_entities (Demo.backend 0)
          "Ada Lovelace joined Analytical Engines in 1843")
  with (∅ : gmap string (list string)) in Hall.
rewrite lookup_empty in Hall. discriminate.
Qed.

Lemma extract_entities_unconfigured_witness :
  @nlp (Demo.backend 0) = None
  /\ @TextProcessor.extract_entities (Demo.backend 0)
       "Ada Lovelace joined Analytical Engines in 1843" = ∅
  /\ forall kind,
       @TextProcessor.extract_entities (Demo.backend 0)
         "Ada Lovelace joined Analytical Engines in 1843" !! kind = None.
Proof.
split; [reflexivity |].
apply (@extract_entities_unconfigured (Demo.backend 0)). reflexivity.
Defined.

(** ** Similarity *)

Section SimilarityFacts.
Context `{Backend}.
Import TextProcessor JobMatcher.

(** C3. When preprocessing the resume text or the job description
    leaves the empty string, [calculate_similarity_score] returns
    [overall_score = 0.0] with an empty [method_scores], and none of the
    four scoring methods has run. *)
Theorem calculate_similarity_score_short_circuit
    (resume_text job_description : string) :
  preprocess_for_similarity resume_text = ""
  \/ preprocess_for_similarity job_description = "" ->
  let r := calculate_similarity_score resume_text job_description in
  Trace.result r = {| overall_score := 0.0; method_scores := [] |}
  /\ Trace.calls r = [].
Proof.
intros Hempty r. unfold r, calculate_similarity_score.
assert (String.eqb (preprocess_for_similarity resume_text) ""
        || String.eqb (preprocess_for_similarity job_description) "" = true)
  as ->.
{ apply orb_true_iff.
  destruct Hempty as [-> | ->]; [left | right]; reflexivity. }
split; reflexivity.
Qed.

(** Otherwise the four methods run, in the order of the source. *)
Lemma calculate_similarity_score_runs_all (resume_text job_description : string) :
  preprocess_for_similarity resume_text <> "" ->
  preprocess_for_similarity job_description <> "" ->
  Trace.calls (calculate_similarity_score resume_text job_description)
  = ["tfidf_cosine"; "keyword_match"; "skills_match"; "experience_match"].
Proof.
intros Hr Hj. unfold calculate_similarity_score.
apply String.eqb_neq in Hr, Hj. rewrite Hr, Hj. reflexivity.
Qed.

End SimilarityFacts.

Lemma calculate_similarity_score_short_circuit_witness :
  (@TextProcessor.preprocess_for_similarity (Demo.backend 0.124) "The 7 of 9!" = ""
   \/ @TextProcessor.preprocess_for_similarity (Demo.backend 0.124)
        Demo.job_description = "")
  /\ Trace.result (@JobMatcher.calculate_similarity_score (Demo.backend 0.124)
                     "The 7 of 9!" Demo.job_description)
     = {| JobMatcher.overall_score := 0.0; JobMatcher.method_scores := [] |}
  /\ Trace.calls (@JobMatcher.calculate_similarity_score (Demo.backend 0.124)
                    "The 7 of 9!" Demo.job_description) = [].
Proof.
split; [left; vm_compute; reflexivity |].
apply (@calculate_similarity_score_short_circuit (Demo.backend 0.124)).
left. vm_compute. reflexivity.
Defined.

(** ** Experience match *)

Section ExperienceFacts.
Import JobMatcher F64.
Local Open Scope Q_scope.


Lemma rnd_05 : rnd 0.5 == 1 # 2.
Proof. vm_compute. reflexivity. Qed.

Lemma pow2_m53 : pow2 (-53) == 1 # 9007199254740992.
Proof. vm_compute. reflexivity. Qed.

Lemma pow2_m1075_small : pow2 (-1075) <= 1 # 1000000.
Proof. vm_compute. discriminate. Qed.





End ExperienceFacts.



(** ** Grades *)

Section GradeFacts.
Import ScoringEngine.
Local Open Scope Q_scope.

Ltac grade_case s bound :=
  let E := fresh "E" in
  destruct (Qle_bool bound s) eqn:E;
  [apply Qle_bool_iff in E | apply Qle_bool_false in E].

Ltac grade_close :=
  repeat split; intros; try reflexivity; try discriminate; try lra.

(** C5. The grade of a score: A+ from 90, A from 85, A- from 80, B+ from
    75, B from 70, B- from 65, C+ from 60, C from 55, C- from 50, and D
    below 50; each lower bound belongs to its tier.  In particular
    89.999 is an A and 90.0 an A+, 49.999 is a D and 50.0 a C-. *)
Theorem get_score_grade_tiers :
  (forall s : Q,
      (get_score_grade s = "A+" <-> 90 <= s)
      /\ (get_score_grade s = "A" <-> 85 <= s < 90)
      /\ (get_score_grade s = "A-" <-> 80 <= s < 85)
      /\ (get_score_grade s = "B+" <-> 75 <= s < 80)
      /\ (get_score_grade s = "B" <-> 70 <= s < 75)
      /\ (get_score_grade s = "B-" <-> 65 <= s < 70)
      /\ (get_score_grade s = "C+" <-> 60 <= s < 65)
      /\ (get_score_grade s = "C" <-> 55 <= s < 60)
      /\ (get_score_grade s = "C-" <-> 50 <= s < 55)
      /\ (get_score_grade s = "D" <-> s < 50))
  /\ get_score_grade 89.999 = "A" /\ get_score_grade 90.0 = "A+"
  /\ get_score_grade 49.999 = "D" /\ get_score_grade 50.0 = "C-".
Proof.
split; [| repeat split; reflexivity].
intros s. unfold get_score_grade.
grade_case s 90; [grade_close |].
grade_case s 85; [grade_close |].
grade_case s 80; [grade_close |].
grade_case s 75; [grade_close |].
grade_case s 70; [grade_close |].
grade_case s 65; [grade_close |].
grade_case s 60; [grade_close |].
grade_case s 55; [grade_close |].
grade_case s 50; grade_close.
Qed.

End GradeFacts.

(** ** Completeness *)

Section CompletenessFacts.
Import ResumeParser ScoringEngine.
Local Open Scope Q_scope.

Lemma count_true_cons k (b : bool) d :
  Num.count_true ((k, b) :: d) = (Nat.b2n b + Num.count_true d)%nat.
Proof. unfold Num.count_true. simpl. now destruct b. Qed.

Lemma indicator_b2n (P : Prop) `{Decision P} (b : bool) :
  (b = true <-> P) -> Nat.b2n b = CompletenessSpec.indicator P.
Proof.
intros Hb. unfold CompletenessSpec.indicator.
destruct (decide P) as [HP | HP], b; simpl; try reflexivity.
- apply Hb in HP. discriminate.
- exfalso. now apply HP, Hb.
Qed.

Lemma nonempty_true {A} (l : list A) : nonempty l = true <-> l <> [].
Proof.
unfold nonempty. destruct l as [| a t]; simpl; split.
- discriminate.
- intros Hne. now contradiction Hne.
- discriminate.
- reflexivity.
Qed.

Lemma length_pos_true {A} (l : list A) :
  (0 <? List.length l)%nat = true <-> (1 <= List.length l)%nat.
Proof. rewrite Nat.ltb_lt. lia. Qed.

Lemma has_section_key r key :
  CompletenessSpec.has_section r key -> has_section r key = true.
Proof.
unfold has_section, CompletenessSpec.has_section. intros Hs.
apply bool_decide_eq_true. destruct (sections r !! key); [eauto | contradiction].
Qed.

Lemma required_sections_count r :
  Num.count_true (required_sections r) = CompletenessSpec.required_true r.
Proof.
unfold required_sections, CompletenessSpec.required_true.
rewrite !count_true_cons. unfold Num.count_true; simpl.
rewrite Nat.add_0_r, !Nat.add_assoc.
repeat f_equal; apply indicator_b2n.
- unfold CompletenessSpec.has_name. rewrite negb_true_iff.
  apply String.eqb_neq.
- unfold CompletenessSpec.has_contact.
  now rewrite orb_true_iff, !nonempty_true.
- apply length_pos_true.
- apply length_pos_true.
- unfold CompletenessSpec.has_experience.
  now rewrite orb_true_iff, Z.ltb_lt, length_pos_true.
Qed.

(** The optional facts that hold are among the optional booleans of the
    code that are true. *)
Lemma optional_sections_count r :
  (CompletenessSpec.optional_true r <= Num.count_true (optional_sections r) <= 3)%nat.
Proof.
unfold optional_sections, CompletenessSpec.optional_true, CompletenessSpec.indicator.
rewrite !count_true_cons. unfold Num.count_true; simpl.
rewrite orb_false_r.
destruct (decide (CompletenessSpec.has_projects r)) as [Hp | _];
  [rewrite (has_section_key r "projects" Hp) |];
  (destruct (decide (CompletenessSpec.has_certifications r)) as [Hc | _];
     [rewrite (has_section_key r "certifications" Hc) |]);
  (destruct (decide (CompletenessSpec.has_summary r)) as [[Hs | Hs] | _];
     [rewrite (has_section_key r "summary" Hs)
     | rewrite (has_section_key r "objective" Hs), ?orb_true_r |]);
  repeat match goal with |- context [has_section r ?k] => destruct (has_section r k) end;
  simpl; lia.
Qed.

Lemma calculate_completeness_score_formula_aux (r : ParsedResume) :
  calculate_completeness_score r ==
    Num.of_nat (CompletenessSpec.required_true r) / 5 * 0.7
    + Num.of_nat (Num.count_true (optional_sections r)) / 3 * 0.3.
Proof.
unfold calculate_completeness_score.
rewrite required_sections_count. reflexivity.
Qed.

Lemma indicator_le_1 (P : Prop) `{Decision P} : (CompletenessSpec.indicator P <= 1)%nat.
Proof. unfold CompletenessSpec.indicator. destruct (decide P); lia. Qed.

(** The score lies between 0 and 1. *)
Lemma calculate_completeness_score_range (r : ParsedResume) :
  0 <= calculate_completeness_score r <= 1.
Proof.
rewrite calculate_completeness_score_formula_aux.
assert (Hreq : (CompletenessSpec.required_true r <= 5)%nat).
{ unfold CompletenessSpec.required_true.
  pose proof (indicator_le_1 (CompletenessSpec.has_name r)).
  pose proof (indicator_le_1 (CompletenessSpec.has_contact r)).
  pose proof (indicator_le_1 (CompletenessSpec.has_skill r)).
  pose proof (indicator_le_1 (CompletenessSpec.has_education r)).
  pose proof (indicator_le_1 (CompletenessSpec.has_experience r)). lia. }
pose proof (optional_sections_count r) as [_ Hopt].
unfold Num.of_nat.
assert (0 <= inject_Z (Z.of_nat (CompletenessSpec.required_true r)) <= 5).
{ split; [rewrite <- (Zle_Qle 0) | rewrite <- (Zle_Qle _ 5)]; lia. }
assert (0 <= inject_Z (Z.of_nat (Num.count_true (optional_sections r))) <= 3).
{ split; [rewrite <- (Zle_Qle 0) | rewrite <- (Zle_Qle _ 3)]; lia. }
unfold Qdiv.
assert (E5 : / 5 == 0.2) by reflexivity.
assert (E3 : / 3 == 1 # 3) by reflexivity.
rewrite E5, E3. lra.
Qed.

End CompletenessFacts.

(** ** Sections of a parsed resume *)

Section SectionFacts.
Context `{Backend}.
Import ResumeParser.

Lemma section_step_dom st line : dom (section_step st line).2 = dom st.2.
Proof.
destruct st as [current sections]. unfold section_step.
destruct (String.eqb (strip line) ""); [reflexivity |].
destruct (List.find _ section_patterns) as [[section_name pattern] |];
  [reflexivity |].
destruct current as [cur |]; [| reflexivity].
destruct (sections !! cur) as [body |] eqn:E; [| reflexivity].
simpl. rewrite dom_insert_L. apply elem_of_dom_2 in E.
apply subseteq_union_1_L. now apply singleton_subseteq_l.
Qed.

Lemma fold_section_step_dom text_lines st :
  dom (fold_left section_step text_lines st).2 = dom st.2.
Proof.
revert st. induction text_lines as [| line rest IH]; intros st; simpl;
  [reflexivity |].
now rewrite IH, section_step_dom.
Qed.

(** Whatever the text, [extract_resume_sections] returns a dict with the
    eight section names as keys: a section that the text does not have is
    there with an empty body. *)
Lemma extract_resume_sections_dom text :
  dom (extract_resume_sections text)
  = dom (list_to_map empty_sections : gmap string string).
Proof.
unfold extract_resume_sections.
pose proof (fold_section_step_dom (lines text)
              (None, list_to_map empty_sections)) as Hd.
destruct (fold_left section_step (lines text) (None, list_to_map empty_sections))
  as [current sections].
rewrite dom_fmap_L. exact Hd.
Qed.

Lemma extract_resume_sections_key text key :
  In key (map fst empty_sections) ->
  key ∈ dom (extract_resume_sections text).
Proof.
intros Hk. rewrite extract_resume_sections_dom.
apply elem_of_dom. simpl in Hk.
repeat (destruct Hk as [<- | Hk]; [eexists; reflexivity |]).
contradiction.
Qed.

(** Hence the three optional facts of the completeness score hold of
    every resume whose sections come from [extract_resume_sections]. *)
(** [extract_resume_sections] creates the eight keys for every text: on
    a resume that it parsed the three optional booleans of the code are
    true. *)
Lemma parsed_sections_optional_true (r : ParsedResume) text :
  sections r = extract_resume_sections text ->
  Num.count_true (ScoringEngine.optional_sections r) = 3%nat.
Proof.
intros Hs.
assert (Hkey : forall key, In key (map fst empty_sections) ->
                           ScoringEngine.has_section r key = true).
{ intros key Hk. unfold ScoringEngine.has_section. rewrite Hs.
  apply bool_decide_eq_true. apply elem_of_dom.
  now apply extract_resume_sections_key. }
unfold ScoringEngine.optional_sections. simpl.
rewrite !Hkey by (simpl; tauto). reflexivity.
Qed.

End SectionFacts.

(** C1 does not hold of the code.  The five required booleans are the
    five required facts, but the three optional booleans test whether
    the name of the section is a key of [sections], and
    [extract_resume_sections] creates the eight keys for every text: on
    every resume that it parsed the optional share is the whole 0.3,
    whether or not the resume has a section on projects, on
    certifications, or a summary or objective.  The score is never below
    the one that the specification describes; for the resume of three
    lines [Demo.short_resume], with a name, a section on education and
    nothing else, the specification describes [2/5 * 0.7 = 0.28] and the
    code returns [0.28 + 0.3 = 0.58]. *)
Theorem calculate_completeness_score_counts_absent_sections :
  (forall (B : Backend) (r : ResumeParser.ParsedResume) (text : string),
      ResumeParser.sections r = ResumeParser.extract_resume_sections text ->
      ScoringEngine.calculate_completeness_score r ==
        Num.of_nat (CompletenessSpec.required_true r) / 5 * 0.7 + 0.3)%Q
  /\ (forall r : ResumeParser.ParsedResume,
        CompletenessSpec.completeness r
        <= ScoringEngine.calculate_completeness_score r)%Q
  /\ ResumeParser.sections Demo.short_resume
     = @ResumeParser.extract_resume_sections (Demo.backend 0) Demo.short_text
  /\ CompletenessSpec.required_true Demo.short_resume = 2%nat
  /\ CompletenessSpec.optional_true Demo.short_resume = 0%nat
  /\ (CompletenessSpec.completeness Demo.short_resume == 0.28)%Q
  /\ (ScoringEngine.calculate_completeness_score Demo.short_resume == 0.58)%Q.
Proof.
split; [| split].
- intros B r text Hs.
  rewrite calculate_completeness_score_formula_aux.
  rewrite (parsed_sections_optional_true r text Hs).
  apply Qplus_inj_l. reflexivity.
- intros r. rewrite calculate_completeness_score_formula_aux.
  unfold CompletenessSpec.completeness.
  destruct (optional_sections_count r) as [Hle _].
  apply Qplus_le_r. apply Qmult_le_compat_r; [| discriminate].
  apply Qmult_le_compat_r; [| discriminate].
  unfold Num.of_nat. rewrite <- Zle_Qle. lia.
- repeat split; vm_compute; reflexivity.
Qed.

Example extract_resume_sections_sample :
  let sections :=
    @ResumeParser.extract_resume_sections (Demo.backend 0)
      (TextProcessor.join ["Ada Lovelace"] ++ String "010" "Education"
       ++ String "010" "  BSc Mathematics" ++ String "010" "University of London  "
       ++ String "010" "Skills" ++ String "010" "python, sql")%string in
  sections !! "education" = Some "BSc Mathematics University of London"
  /\ sections !! "skills" = Some "python, sql"
  /\ sections !! "projects" = Some ""
  /\ sections !! "preamble" = None.
Proof. vm_compute. repeat split. Qed.

(** ** The stable descending sort *)

Section SortFacts.
Context {A : Type} (key : A -> Q).
Import PySort.
Local Open Scope Q_scope.

Lemma insert_desc_perm x l : Permutation (insert_desc key x l) (x :: l).
Proof.
induction l as [| y t IH]; simpl; [reflexivity |].
destruct (Qle_bool (key y) (key x)); [reflexivity |].
rewrite IH. apply perm_swap.
Qed.

Lemma sort_desc_perm l : Permutation (sort_desc key l) l.
Proof.
induction l as [| x t IH]; simpl; [reflexivity |].
rewrite insert_desc_perm. now apply perm_skip.
Qed.

Lemma insert_desc_hd x y l :
  descending key y x -> HdRel (descending key) y l ->
  HdRel (descending key) y (insert_desc key x l).
Proof.
intros Hyx Hl. destruct l as [| z t]; simpl; [now constructor |].
destruct (Qle_bool (key z) (key x)); constructor; [exact Hyx |].
now inversion Hl.
Qed.

Lemma insert_desc_sorted x l :
  Sorted (descending key) l -> Sorted (descending key) (insert_desc key x l).
Proof.
induction 1 as [| y t Hs IH Hhd]; simpl; [repeat constructor |].
destruct (Qle_bool (key y) (key x)) eqn:E.
- apply Qle_bool_iff in E. repeat constructor; assumption.
- apply Qle_bool_false in E. constructor; [exact IH |].
  apply insert_desc_hd; [| exact Hhd].
  unfold descending. now apply Qlt_le_weak.
Qed.

Lemma sort_desc_sorted l : Sorted (descending key) (sort_desc key l).
Proof.
induction l as [| x t IH]; simpl; [constructor |].
now apply insert_desc_sorted.
Qed.

Lemma descending_trans : Transitive (descending key).
Proof. intros a b c Hab Hbc. unfold descending in *. now apply Qle_trans with (key b). Qed.

Lemma sort_desc_strongly_sorted l : StronglySorted (descending key) (sort_desc key l).
Proof. apply Sorted_StronglySorted; [apply descending_trans | apply sort_desc_sorted]. Qed.

(** Stability: inserting [x] puts it in front of the elements of its own
    key, and does not move the others. *)
Lemma insert_desc_with_key v x l :
  with_key key v (insert_desc key x l) = with_key key v (x :: l).
Proof.
induction l as [| y t IH]; [reflexivity |].
cbn [insert_desc].
destruct (Qle_bool (key y) (key x)) eqn:E; [reflexivity |].
apply Qle_bool_false in E.
unfold with_key in *. cbn [List.filter] in *. rewrite IH.
destruct (Qeq_bool (key x) v) eqn:Ex; [| reflexivity].
destruct (Qeq_bool (key y) v) eqn:Ey; [| reflexivity].
apply Qeq_bool_iff in Ex, Ey. rewrite Ex, Ey in E.
now apply Qlt_irrefl in E.
Qed.

Lemma sort_desc_stable v l : with_key key v (sort_desc key l) = with_key key v l.
Proof.
induction l as [| x t IH]; [reflexivity |].
cbn [sort_desc fold_right]. rewrite insert_desc_with_key.
fold (sort_desc key t). unfold with_key in *. cbn [List.filter]. now rewrite IH.
Qed.

Lemma sort_desc_length l : List.length (sort_desc key l) = List.length l.
Proof. apply Permutation_length, sort_desc_perm. Qed.

(** A stable sort has one result: two descending lists with the same
    elements of each key, in the same order, are equal.  So any stable
    descending sort by [key] computes [sort_desc]. *)
Lemma with_key_head x l : with_key key (key x) (x :: l) = x :: with_key key (key x) l.
Proof. unfold with_key. cbn [List.filter]. now rewrite Qeq_bool_same. Qed.

Lemma with_key_In v x l : In x (with_key key v l) -> In x l.
Proof. unfold with_key. intros Hx. now apply filter_In in Hx. Qed.

Lemma with_key_tail v x l1 l2 :
  with_key key v (x :: l1) = with_key key v (x :: l2) ->
  with_key key v l1 = with_key key v l2.
Proof.
unfold with_key. cbn [List.filter].
destruct (Qeq_bool (key x) v); [now intros [= ->] | auto].
Qed.

Lemma descending_heads x y t1 t2 :
  Sorted (descending key) (x :: t1) -> Sorted (descending key) (y :: t2) ->
  (forall v, with_key key v (x :: t1) = with_key key v (y :: t2)) ->
  x = y.
Proof.
intros H1 H2 Hsame.
pose proof (Hsame (key x)) as Hx. rewrite with_key_head in Hx.
pose proof (Hsame (key y)) as Hy. rewrite with_key_head in Hy.
destruct (Qeq_bool (key y) (key x)) eqn:Eyx.
{ unfold with_key in Hx at 2. cbn [List.filter] in Hx. rewrite Eyx in Hx.
  now injection Hx. }
assert (Exy : Qeq_bool (key x) (key y) = false).
{ destruct (Qeq_bool (key x) (key y)) eqn:Exy; [| reflexivity].
  apply Qeq_bool_iff in Exy. symmetry in Exy. apply Qeq_bool_iff in Exy.
  congruence. }
exfalso.
unfold with_key in Hx at 2. cbn [List.filter] in Hx. rewrite Eyx in Hx.
unfold with_key in Hy at 1. cbn [List.filter] in Hy. rewrite Exy in Hy.
assert (Hx_in : In x t2).
{ apply with_key_In with (key x). unfold with_key. rewrite <- Hx. now left. }
assert (Hy_in : In y t1).
{ apply with_key_In with (key y). unfold with_key. rewrite Hy. now left. }
apply Sorted_StronglySorted in H1, H2; try apply descending_trans.
apply StronglySorted_inv in H1 as [_ S1], H2 as [_ S2].
rewrite List.Forall_forall in S1, S2.
specialize (S1 y Hy_in). specialize (S2 x Hx_in). unfold descending in S1, S2.
apply Qeq_bool_neq in Exy. apply Exy. now apply Qle_antisym.
Qed.

Lemma descending_unique l1 l2 :
  Sorted (descending key) l1 -> Sorted (descending key) l2 ->
  (forall v, with_key key v l1 = with_key key v l2) ->
  l1 = l2.
Proof.
revert l2. induction l1 as [| x t1 IH]; intros l2 H1 H2 Hsame.
- destruct l2 as [| y t2]; [reflexivity |].
  specialize (Hsame (key y)). rewrite with_key_head in Hsame. discriminate.
- destruct l2 as [| y t2].
  { specialize (Hsame (key x)). rewrite with_key_head in Hsame. discriminate. }
  assert (x = y) as <- by (now apply descending_heads with t1 t2).
  f_equal. apply IH.
  + now inversion H1.
  + now inversion H2.
  + intros v. apply with_key_tail with x, Hsame.
Qed.

Lemma sort_desc_unique l l' :
  Sorted (descending key) l' ->
  (forall v, with_key key v l' = with_key key v l) ->
  l' = sort_desc key l.
Proof.
intros Hs Hsame. apply descending_unique; [exact Hs | apply sort_desc_sorted |].
intros v. now rewrite Hsame, sort_desc_stable.
Qed.

End SortFacts.

(** ** Batch ranking *)

Section RankingFacts.
Context `{Backend}.
Import JobMatcher PySort.
Local Open Scope Q_scope.

Lemma rerank_unranked (f : nat -> nat) l :
  map unranked (imap (fun i resume => set_rank (f i) resume) l) = map unranked l.
Proof.
revert f. induction l as [| r t IH]; intros f; [reflexivity |].
cbn [imap map]. f_equal. apply (IH (f ∘ S)).
Qed.

Lemma rerank_ranks (start : nat) l :
  map rank (imap (fun i resume => set_rank (start + i + 1) resume) l)
  = seq (start + 1) (List.length l).
Proof.
revert start. induction l as [| r t IH]; intros start; [reflexivity |].
cbn [imap map List.length seq]. f_equal.
- simpl. lia.
- etransitivity; [| exact (IH (S start))].
  f_equal. apply imap_ext. intros i x _.
  simpl. f_equal. lia.
Qed.

Lemma map_with_key {B} (f : B -> RankingEntry) (g : B -> Q) v l :
  (forall b, g b = rk_overall_score (f b)) ->
  with_key rk_overall_score v (map f l) = map f (with_key g v l).
Proof.
intros Hg. unfold with_key. induction l as [| b t IH]; [reflexivity |].
cbn [map List.filter]. rewrite Hg.
destruct (Qeq_bool (rk_overall_score (f b)) v); cbn [map]; now rewrite IH.
Qed.

Lemma with_key_unranked v l :
  with_key (fun e : string * Q * list (string * Q) => e.1.2) v (map unranked l)
  = map unranked (with_key rk_overall_score v l).
Proof.
unfold with_key. induction l as [| r t IH]; [reflexivity |].
cbn [map List.filter]. change ((unranked r).1.2) with (rk_overall_score r).
destruct (Qeq_bool (rk_overall_score r) v); cbn [map]; now rewrite IH.
Qed.

Lemma Forall_same_scores (bound : Q) l l' :
  map rk_overall_score l' = map rk_overall_score l ->
  Forall (fun b => rk_overall_score b <= bound) l ->
  Forall (fun b => rk_overall_score b <= bound) l'.
Proof.
intros Hmap Hl. revert l' Hmap.
induction Hl as [| b t Hb _ IH]; intros l' Hmap.
- destruct l'; [constructor | discriminate].
- destruct l' as [| b' t']; [discriminate |].
  cbn [map] in Hmap. injection Hmap as Hb' Ht.
  constructor; [now rewrite Hb' | now apply IH].
Qed.

Lemma strongly_sorted_unranked l l' :
  map rk_overall_score l' = map rk_overall_score l ->
  StronglySorted (descending rk_overall_score) l ->
  StronglySorted (descending rk_overall_score) l'.
Proof.
intros Hmap Hs. revert l' Hmap.
induction Hs as [| r t Hs IH Hall]; intros l' Hmap.
- destruct l'; [constructor | discriminate].
- destruct l' as [| r' t']; [discriminate |].
  cbn [map] in Hmap. injection Hmap as Hr Ht.
  constructor; [now apply IH |].
  unfold descending. rewrite Hr.
  now apply Forall_same_scores with t.
Qed.

Lemma sort_and_rank_unranked rankings :
  map unranked (sort_and_rank rankings)
  = map unranked (sort_desc rk_overall_score rankings).
Proof. unfold sort_and_rank. apply (rerank_unranked (fun i => (i + 1)%nat)). Qed.

(** What [sort_and_rank] does to any list of entries. *)
Lemma sort_and_rank_spec rankings :
  let out := sort_and_rank rankings in
  Permutation (map unranked out) (map unranked rankings)
  /\ StronglySorted (descending rk_overall_score) out
  /\ (forall v,
        with_key (fun e : string * Q * list (string * Q) => e.1.2) v (map unranked out)
        = with_key (fun e : string * Q * list (string * Q) => e.1.2) v
            (map unranked rankings))
  /\ map rank out = seq 1 (List.length rankings).
Proof.
intros out. unfold out.
split; [| split; [| split]].
- rewrite sort_and_rank_unranked. apply Permutation_map, sort_desc_perm.
- apply strongly_sorted_unranked with (sort_desc rk_overall_score rankings);
    [| apply sort_desc_strongly_sorted].
  change rk_overall_score with (fun r => (unranked r).1.2).
  rewrite <- !(map_map unranked (fun e => e.1.2)).
  now rewrite sort_and_rank_unranked.
- intros v. rewrite sort_and_rank_unranked, !with_key_unranked.
  now rewrite sort_desc_stable.
- unfold sort_and_rank.
  rewrite (rerank_ranks 0), sort_desc_length. reflexivity.
Qed.

Lemma scored_unranked (f : nat -> nat) resumes_data job_description :
  map unranked
    (imap (fun i nt =>
             let score_data :=
               Trace.result (calculate_similarity_score nt.2 job_description) in
             {| rank := f i; name := nt.1;
                rk_overall_score := overall_score score_data;
                rk_method_scores := method_scores score_data |})
          resumes_data)
  = map (fun nt =>
           let score_data :=
             Trace.result (calculate_similarity_score nt.2 job_description) in
           (nt.1, overall_score score_data, method_scores score_data))
        resumes_data.
Proof.
revert f. induction resumes_data as [| nt t IH]; intros f; [reflexivity |].
cbn [imap map]. f_equal. apply (IH (f ∘ S)).
Qed.

(** C7. [batch_resume_ranking] returns the scored documents (name,
    overall score and method scores of each) in descending order of
    overall score; documents of equal score stand in the order of the
    input; the ranks are 1, 2, ..., N in the order of the output, so no
    rank is shared; and for no document the result is empty. *)
Theorem batch_resume_ranking_stable_dense
    (resumes_data : list (string * string)) (job_description : string) :
  let scored :=
    map (fun nt =>
           let score_data :=
             Trace.result (calculate_similarity_score nt.2 job_description) in
           (nt.1, overall_score score_data, method_scores score_data))
        resumes_data in
  let out := batch_resume_ranking resumes_data job_description in
  Permutation (map unranked out) scored
  /\ StronglySorted (descending rk_overall_score) out
  /\ (forall v,
        with_key (fun e : string * Q * list (string * Q) => e.1.2) v (map unranked out)
        = with_key (fun e : string * Q * list (string * Q) => e.1.2) v scored)
  /\ map rank out = seq 1 (List.length resumes_data)
  /\ batch_resume_ranking [] job_description = [].
Proof.
intros scored out.
set (rankings :=
  imap (fun i nt =>
          let score_data :=
            Trace.result (calculate_similarity_score nt.2 job_description) in
          {| rank := i + 1; name := nt.1;
             rk_overall_score := overall_score score_data;
             rk_method_scores := method_scores score_data |})
       resumes_data).
assert (Hscored : map unranked rankings = scored).
{ exact (scored_unranked (fun i => (i + 1)%nat) resumes_data job_description). }
assert (Hlen : List.length rankings = List.length resumes_data).
{ unfold rankings. apply length_imap. }
destruct (sort_and_rank_spec rankings) as (Hp & Hs & Hst & Hr).
rewrite Hscored in Hp, Hst. rewrite Hlen in Hr.
repeat split; try assumption. 
Qed.

End RankingFacts.

Example sort_and_rank_tie :
  map (fun r => (JobMatcher.name r, JobMatcher.rank r))
      (JobMatcher.sort_and_rank
         [ {| JobMatcher.rank := 1; JobMatcher.name := "A";
              JobMatcher.rk_overall_score := 90; JobMatcher.rk_method_scores := [] |};
           {| JobMatcher.rank := 2; JobMatcher.name := "B";
              JobMatcher.rk_overall_score := 90.00; JobMatcher.rk_method_scores := [] |};
           {| JobMatcher.rank := 3; JobMatcher.name := "C";
              JobMatcher.rk_overall_score := 70; JobMatcher.rk_method_scores := [] |} ])
  = [("A", 1%nat); ("B", 2%nat); ("C", 3%nat)].
Proof. reflexivity. Qed.

(** ** Overall score and grade *)

Section OverallFacts.
Import ResumeParser ScoringEngine.
Local Open Scope Q_scope.













End OverallFacts.

(** ** Years of experience read from the texts *)

Section YearsFacts.
Context `{Backend}.
Import TextProcessor JobMatcher.

Lemma fold_max_nonneg l x : (0 <= x)%Z -> (0 <= fold_left Z.max l x)%Z.
Proof.
revert x. induction l as [| y t IH]; intros x Hx; simpl; [exact Hx |].
apply IH. lia.
Qed.

Lemma fold_min_nonneg l x :
  (0 <= x)%Z -> Forall (fun y => 0 <= y)%Z l -> (0 <= fold_left Z.min l x)%Z.
Proof.
intros Hx Hl. revert x Hx.
induction Hl as [| y t Hy _ IH]; intros x Hx; simpl; [exact Hx |].
apply IH. lia.
Qed.

Lemma found_years_nonneg patterns text :
  Forall (fun y => 0 <= y)%Z
    (flat_map (fun pattern => map Z.of_N (re_findall_int pattern text)) patterns).
Proof.
apply List.Forall_forall. intros y Hy.
apply in_flat_map in Hy as (pattern & _ & Hy).
apply in_map_iff in Hy as (n & <- & _). lia.
Qed.

Lemma extract_experience_years_nonneg text : (0 <= extract_experience_years text)%Z.
Proof.
unfold extract_experience_years, Num.max_or_zero.
pose proof (found_years_nonneg experience_patterns (lower text)) as Hall.
destruct (flat_map _ experience_patterns) as [| y t]; [lia |].
apply fold_max_nonneg. now inversion Hall.
Qed.

Lemma extract_required_experience_nonneg text :
  (0 <= extract_required_experience text)%Z.
Proof.
unfold extract_required_experience, Num.min_or_zero.
pose proof (found_years_nonneg required_experience_patterns (lower text)) as Hall.
destruct (flat_map _ required_experience_patterns) as [| y t]; [lia |].
inversion Hall; subst. now apply fold_min_nonneg.
Qed.

(** [experience_matching_score] applies the tiers to two numbers of
    years that are never negative. *)
Lemma experience_matching_score_tiers resume_text job_description :
  experience_matching_score resume_text job_description
  = experience_tiers (extract_experience_years resume_text)
                     (extract_required_experience job_description)
  /\ (0 <= extract_experience_years resume_text)%Z
  /\ (0 <= extract_required_experience job_description)%Z.
Proof.
split; [reflexivity |].
split; [apply extract_experience_years_nonneg
       | apply extract_required_experience_nonneg].
Qed.

End YearsFacts.

(** * Further properties of the code *)

(** ** Rounding and ratios *)

Section RoundingFacts.
Local Open Scope Q_scope.

Lemma round_half_even_bounds (a b : Z) (q : Q) :
  inject_Z a <= q -> q <= inject_Z b ->
  (a <= Num.round_half_even q <= b)%Z.
Proof.
intros Ha Hb. unfold Num.round_half_even.
pose proof (Qfloor_le q) as Hfl. pose proof (Qlt_floor q) as Hfu.
assert (Hfa : (a <= Qfloor q)%Z).
{ rewrite <- (Qfloor_Z a). now apply Qfloor_resp_le. }
assert (Hfb : (Qfloor q <= b)%Z).
{ rewrite <- (Qfloor_Z b). now apply Qfloor_resp_le. }
assert (Hup : 0 < q - inject_Z (Qfloor q) -> (Qfloor q + 1 <= b)%Z).
{ intros Hpos. assert (Hlt : inject_Z (Qfloor q) < inject_Z b) by lra.
  rewrite <- Zlt_Qlt in Hlt. lia. }
destruct (Qcompare (q - inject_Z (Qfloor q)) (1 # 2)) eqn:Ecmp.
- apply Qeq_alt in Ecmp.
  destruct (Z.even (Qfloor q)); [lia |].
  split; [lia |]. apply Hup. rewrite Ecmp. reflexivity.
- lia.
- apply Qgt_alt in Ecmp. split; [lia |]. apply Hup. lra.
Qed.

(** [round(x, 2)] stays between two bounds that have two decimals. *)
Lemma round2_bounds (a b : Z) (x : Q) :
  inject_Z a / 100 <= x -> x <= inject_Z b / 100 ->
  inject_Z a / 100 <= Num.round2 x <= inject_Z b / 100.
Proof.
intros Ha Hb. unfold Num.round2.
assert (E : / 100 == 1 # 100) by reflexivity.
unfold Qdiv in *. rewrite E in *.
destruct (round_half_even_bounds a b (x * 100)) as [Hl Hu]; [lra | lra |].
rewrite Zle_Qle in Hl, Hu. lra.
Qed.

Lemma round2_percent (x : Q) : 0 <= x <= 1 -> 0 <= Num.round2 (x * 100) <= 100.
Proof.
intros [H0 H1].
destruct (round2_bounds 0 10000 (x * 100)) as [Hl Hu].
- change (inject_Z 0 / 100) with (0 / 100). unfold Qdiv. lra.
- assert (E : inject_Z 10000 / 100 == 100) by reflexivity. rewrite E. lra.
- split.
  + assert (E : inject_Z 0 / 100 == 0) by reflexivity. now rewrite E in Hl.
  + assert (E : inject_Z 10000 / 100 == 100) by reflexivity. now rewrite E in Hu.
Qed.

Lemma of_nat_nonneg n : 0 <= Num.of_nat n.
Proof. unfold Num.of_nat. rewrite <- (Zle_Qle 0). lia. Qed.

Lemma of_nat_le m n : (m <= n)%nat -> Num.of_nat m <= Num.of_nat n.
Proof. intros H. unfold Num.of_nat. rewrite <- Zle_Qle. lia. Qed.

Lemma of_nat_pos n : (0 < n)%nat -> 0 < Num.of_nat n.
Proof. intros H. unfold Num.of_nat. rewrite <- (Zlt_Qlt 0). lia. Qed.

(** A part over the whole lies between 0 and 1. *)
Lemma ratio_bounds m n :
  (m <= n)%nat -> (0 < n)%nat -> 0 <= Num.of_nat m / Num.of_nat n <= 1.
Proof.
intros Hle Hpos. pose proof (of_nat_pos n Hpos) as Hn.
split.
- apply Qle_shift_div_l; [exact Hn |]. rewrite Qmult_0_l. apply of_nat_nonneg.
- apply Qle_shift_div_r; [exact Hn |]. rewrite Qmult_1_l. now apply of_nat_le.
Qed.

Lemma ratio_one m n :
  (0 < n)%nat -> Num.of_nat m / Num.of_nat n == 1 -> m = n.
Proof.
intros Hpos E. pose proof (of_nat_pos n Hpos) as Hn.
assert (E' : Num.of_nat m == Num.of_nat n).
{ rewrite <- (Qmult_div_r (Num.of_nat m) (Num.of_nat n)) by lra.
  unfold Qdiv in *. rewrite E. ring. }
unfold Num.of_nat in E'. apply (proj1 (inject_Z_injective _ _)) in E'. lia.
Qed.

End RoundingFacts.

(** ** Ranges of the four method scores *)

Section MethodScoreFacts.
Context `{Backend}.
Import TextProcessor JobMatcher.
Local Open Scope Q_scope.

Lemma div_below (a j c : Q) : 0 < j -> a < c * j -> a / j < c.
Proof. intros Hj Ha. now apply Qlt_shift_div_r. Qed.

Lemma div_mono (a b j : Q) : 0 < j -> a <= b -> a / j <= b / j.
Proof.
intros Hj Hab. unfold Qdiv. apply Qmult_le_compat_r; [exact Hab |].
apply Qlt_le_weak, Qinv_lt_0_compat, Hj.
Qed.

Lemma div_nonneg (a j : Q) : 0 < j -> 0 <= a -> 0 <= a / j.
Proof.
intros Hj Ha. apply Qle_shift_div_l; [exact Hj |]. now rewrite Qmult_0_l.
Qed.

(** The float [job_exp * 0.5] is at most 0.6 of the requirement. *)
Lemma half_threshold_below (E_j : Z) :
  (0 < E_j)%Z ->
  F64.mul (F64.rnd (inject_Z E_j)) (F64.rnd 0.5) <= 0.6 * inject_Z E_j.
Proof.
intros Hj.
assert (Hq : 1 <= inject_Z E_j).
{ change 1 with (inject_Z 1). rewrite <- Zle_Qle. lia. }
pose proof (rnd_error (inject_Z E_j) ltac:(lra)) as HJ.
pose proof (rnd_nonneg (inject_Z E_j) ltac:(lra)) as HJ0.
set (J := F64.rnd (inject_Z E_j)) in *.
assert (Ey : J * F64.rnd 0.5 == J * (1 # 2)) by (now rewrite rnd_05).
assert (Hy0 : 0 <= J * F64.rnd 0.5) by (rewrite Ey; lra).
unfold F64.mul. rewrite (rnd_comp _ _ Hy0 Ey).
pose proof (rnd_error (J * (1 # 2)) ltac:(lra)) as Ht.
apply Qabs_Qle_condition in HJ, Ht.
rewrite pow2_m53 in HJ, Ht. pose proof pow2_m1075_small as Htiny.
lra.
Qed.

(** The branch that [experience_tiers] takes when years are required:
    the two thresholds are floats that depend on the requirement
    alone. *)
Lemma experience_tiers_branch (E_r E_j : Z) :
  (0 <= E_r)%Z -> (0 < E_j)%Z ->
  let r := inject_Z E_r in
  let j := inject_Z E_j in
  let t7 := F64.mul (F64.rnd j) (F64.rnd 0.7) in
  let t5 := F64.mul (F64.rnd j) (F64.rnd 0.5) in
  let s := experience_tiers E_r E_j in
  (j <= r /\ s == 1)
  \/ (r < j /\ F64.of_Z E_j = None /\ s == 0)
  \/ (r < j /\ F64.of_Z E_j <> None
      /\ ((t7 <= r /\ s == 0.8)
          \/ (r < t7 /\ t5 <= r /\ s == 0.6)
          \/ (r < t7 /\ r < t5 /\ s == r / j /\ 0 <= r / j <= 0.6))).
Proof.
intros Hr Hj r j t7 t5 s. unfold s, experience_tiers.
assert (Hqj : 0 < j) by (unfold j; rewrite <- (Zlt_Qlt 0); exact Hj).
assert (Hqr : 0 <= r) by (unfold r; rewrite <- (Zle_Qle 0); exact Hr).
destruct (Z.eqb_spec E_j 0) as [E0 | _]; [lia |].
destruct (Z.leb_spec E_j E_r) as [Hle | Hlt].
{ left. split; [| reflexivity]. unfold j, r. now rewrite <- Zle_Qle. }
assert (Hqlt : r < j) by (unfold j, r; now rewrite <- Zlt_Qlt).
right. unfold F64.of_Z. fold j.
destruct (F64.finite (F64.rnd j)).
2: { left. split; [exact Hqlt |]. split; reflexivity. }
right. split; [exact Hqlt |]. split; [discriminate |].
fold r t7 t5.
destruct (Qle_bool t7 r) eqn:H7.
{ apply Qle_bool_iff in H7. left. split; [exact H7 | reflexivity]. }
apply Qle_bool_false in H7. right.
destruct (Qle_bool t5 r) eqn:H5.
{ apply Qle_bool_iff in H5. left.
  split; [exact H7 |]. split; [exact H5 | reflexivity]. }
apply Qle_bool_false in H5. right.
assert ((0 <? E_j)%Z = true) as -> by (now apply Z.ltb_lt).
split; [exact H7 |]. split; [exact H5 |].
split; [reflexivity |]. split; [now apply div_nonneg |].
apply Qle_shift_div_r; [exact Hqj |].
pose proof (half_threshold_below E_j Hj) as Hhalf. fold j t5 in Hhalf. lra.
Qed.

Lemma experience_tiers_no_requirement (E_r : Z) : experience_tiers E_r 0 == 1.
Proof. reflexivity. Qed.

Lemma experience_tiers_range (E_r E_j : Z) :
  (0 <= E_r)%Z -> (0 <= E_j)%Z -> 0 <= experience_tiers E_r E_j <= 1.
Proof.
intros Hr Hj.
destruct (Z.eq_dec E_j 0%Z) as [-> | Hne].
{ rewrite experience_tiers_no_requirement. lra. }
assert (Hpos : (0 < E_j)%Z) by lia.
destruct (experience_tiers_branch E_r E_j Hr Hpos)
  as [[_ ->] | [(_ & _ & ->) | (_ & _ & [[_ ->] | [(_ & _ & ->)
      | (_ & _ & -> & Hlow)]])]]; lra.
Qed.

(** More years in the resume never lower the experience match. *)
Lemma experience_tiers_monotone (E_r E_r' E_j : Z) :
  (0 <= E_r)%Z -> (E_r <= E_r')%Z -> (0 <= E_j)%Z ->
  experience_tiers E_r E_j <= experience_tiers E_r' E_j.
Proof.
intros Hr Hrr Hj.
destruct (Z.eq_dec E_j 0%Z) as [-> | Hne].
{ rewrite !experience_tiers_no_requirement. lra. }
assert (Hpos : (0 < E_j)%Z) by lia.
assert (Hqj : 0 < inject_Z E_j) by (rewrite <- (Zlt_Qlt 0); exact Hpos).
assert (Hqrr : inject_Z E_r <= inject_Z E_r') by (now rewrite <- Zle_Qle).
pose proof (div_mono _ _ _ Hqj Hqrr) as Hdiv.
destruct (experience_tiers_branch E_r E_j Hr Hpos)
  as [[H1 ->] | [(H1 & Hof & ->) | (H1 & Hof & [[H2 ->] | [(H2 & H3 & ->)
      | (H2 & H3 & -> & Hlow)]])]];
destruct (experience_tiers_branch E_r' E_j ltac:(lia) Hpos)
  as [[H1' ->] | [(H1' & Hof' & ->) | (H1' & Hof' & [[H2' ->] | [(H2' & H3' & ->)
      | (H2' & H3' & -> & Hlow')]])]];
  try contradiction; try lra.
Qed.






End MethodScoreFacts.

Section ExperienceScoreFacts.
Context `{Backend}.
Import TextProcessor JobMatcher.
Local Open Scope Q_scope.

Lemma experience_matching_score_range_fact (resume_text job_description : string) :
  0 <= experience_matching_score resume_text job_description <= 1.
Proof.
unfold experience_matching_score.
apply experience_tiers_range;
  [apply extract_experience_years_nonneg | apply extract_required_experience_nonneg].
Qed.

(** X1. Whatever the two texts, the experience match lies between 0
    and 1. *)
Theorem experience_matching_score_range (resume_text job_description : string) :
  0 <= experience_matching_score resume_text job_description <= 1.
Proof. apply experience_matching_score_range_fact. Qed.


End ExperienceScoreFacts.

(** X3. For a fixed requirement, more years of experience never give a
    lower experience match. *)
Theorem experience_tiers_never_decrease (E_r E_r' E_j : Z) :
  (0 <= E_r)%Z -> (E_r <= E_r')%Z -> (0 <= E_j)%Z ->
  (JobMatcher.experience_tiers E_r E_j <= JobMatcher.experience_tiers E_r' E_j)%Q.
Proof. apply experience_tiers_monotone. Qed.

Lemma experience_tiers_never_decrease_witness :
  (JobMatcher.experience_tiers 2 5 <= JobMatcher.experience_tiers 3 5)%Q.
Proof. apply (experience_tiers_never_decrease 2 3 5); lia. Defined.


(** ** Skills match, keyword match and the similarity score *)

Section SimilarityRangeFacts.
Context `{Backend}.
Import TextProcessor JobMatcher.
Local Open Scope Q_scope.

Lemma size_pos_of_nonempty (X : gset string) : X <> ∅ -> (0 < size X)%nat.
Proof.
intros HX. destruct (size X) eqn:E; [| lia].
apply size_empty_iff in E. exfalso. apply HX. now apply leibniz_equiv.
Qed.

(** The two ratios of [skills_matching_score]. *)
Lemma skills_matching_score_unfold (resume_text job_description : string) :
  let R := skill_set resume_text in
  let J := skill_set job_description in
  J <> ∅ ->
  skills_matching_score resume_text job_description
  == Num.of_nat (size (R ∩ J)) / Num.of_nat (size (R ∪ J)) * 0.4
     + Num.of_nat (size (R ∩ J)) / Num.of_nat (size J) * 0.6.
Proof.
intros R J HJ. unfold skills_matching_score. fold R J.
rewrite bool_decide_eq_false_2 by exact HJ.
assert (Hu : (0 < size (R ∪ J))%nat).
{ pose proof (size_pos_of_nonempty J HJ).
  assert (size J <= size (R ∪ J))%nat by (apply subseteq_size, union_subseteq_r).
  lia. }
apply Nat.ltb_lt in Hu. rewrite Hu. reflexivity.
Qed.

Lemma skills_matching_score_range_fact (resume_text job_description : string) :
  let R := skill_set resume_text in
  let J := skill_set job_description in
  let s := skills_matching_score resume_text job_description in
  0 <= s <= 1
  /\ (s == 1 <-> J <> ∅ /\ R = J)
  /\ (s == 0 <-> R ∩ J = ∅).
Proof.
intros R J s.
destruct (decide (J = ∅)) as [HJ | HJ].
{ assert (Hs : s == 0).
  { unfold s, skills_matching_score. fold J.
    rewrite bool_decide_eq_true_2 by exact HJ. reflexivity. }
  rewrite Hs. split; [lra |]. split.
  - split; [intros E; exfalso; lra | intros [HJ' _]; contradiction].
  - split; [intros _ | reflexivity]. rewrite HJ. apply leibniz_equiv.
    apply intersection_empty_r. }
pose proof (skills_matching_score_unfold resume_text job_description HJ) as Hs.
fold R J s in Hs.
pose proof (size_pos_of_nonempty J HJ) as HposJ.
assert (HJU : (size J <= size (R ∪ J))%nat) by (apply subseteq_size, union_subseteq_r).
assert (HIJ : (size (R ∩ J) <= size J)%nat)
  by (apply subseteq_size, intersection_subseteq_r).
assert (HIU : (size (R ∩ J) <= size (R ∪ J))%nat) by lia.
destruct (ratio_bounds _ _ HIU ltac:(lia)) as [Ha0 Ha1].
destruct (ratio_bounds _ _ HIJ HposJ) as [Hb0 Hb1].
set (a := Num.of_nat (size (R ∩ J)) / Num.of_nat (size (R ∪ J))) in *.
set (b := Num.of_nat (size (R ∩ J)) / Num.of_nat (size J)) in *.
split; [rewrite Hs; lra |]. split.
- split.
  + intros E. rewrite Hs in E. split; [exact HJ |].
    assert (Ea : a == 1) by lra.
    apply ratio_one in Ea; [| lia].
    assert (HRJ : R ∩ J = R ∪ J).
    { apply set_subseteq_size_eq; [| lia].
      intros x Hx. apply elem_of_intersection in Hx as [Hx _].
      now apply elem_of_union_l. }
    apply leibniz_equiv. intros x. split; intros Hx.
    * assert (Hx' : x ∈ R ∪ J) by (now apply elem_of_union_l).
      rewrite <- HRJ in Hx'. now apply elem_of_intersection in Hx' as [_ ?].
    * assert (Hx' : x ∈ R ∪ J) by (now apply elem_of_union_r).
      rewrite <- HRJ in Hx'. now apply elem_of_intersection in Hx' as [? _].
  + intros [_ HRJ]. rewrite Hs. unfold a, b.
    assert (EI : R ∩ J = J).
    { rewrite HRJ. apply leibniz_equiv. intros x. rewrite elem_of_intersection. tauto. }
    assert (EU : R ∪ J = J).
    { rewrite HRJ. apply leibniz_equiv. intros x. rewrite elem_of_union. tauto. }
    rewrite EI, EU.
    assert (E1 : Num.of_nat (size J) / Num.of_nat (size J) == 1).
    { apply Qmult_inv_r. pose proof (of_nat_pos _ HposJ). lra. }
    rewrite E1. reflexivity.
- split.
  + intros E. rewrite Hs in E.
    assert (Eb : b == 0) by lra.
    assert (Hz : Num.of_nat (size (R ∩ J)) == 0).
    { pose proof (of_nat_pos _ HposJ) as Hp.
      rewrite <- (Qmult_div_r (Num.of_nat (size (R ∩ J))) (Num.of_nat (size J))) by lra.
      fold b. rewrite Eb. ring. }
    unfold Num.of_nat in Hz. change 0 with (inject_Z 0) in Hz.
    apply (proj1 (inject_Z_injective _ _)) in Hz.
    apply leibniz_equiv, size_empty_iff. lia.
  + intros E. rewrite Hs. unfold a, b. rewrite E, size_empty.
    unfold Qdiv. change (Num.of_nat 0) with 0. lra.
Qed.

(** X4. The skills match lies between 0 and 1.  It is 1 exactly when the
    job description names a skill and the resume names the same skills as
    the job description, no more and no less; it is 0 exactly when no
    skill of the job description is found in the resume. *)
Theorem skills_matching_score_range (resume_text job_description : string) :
  let R := skill_set resume_text in
  let J := skill_set job_description in
  let s := skills_matching_score resume_text job_description in
  0 <= s <= 1
  /\ (s == 1 <-> J <> ∅ /\ R = J)
  /\ (s == 0 <-> R ∩ J = ∅).
Proof. apply skills_matching_score_range_fact. Qed.

Lemma keyword_matching_score_range_fact (resume_text job_description : string) :
  0 <= keyword_matching_score resume_text job_description <= 1.
Proof.
unfold keyword_matching_score.
destruct (extract_important_keywords job_description 20) as [| k ks] eqn:E.
{ split; vm_compute; discriminate. }
apply ratio_bounds; [apply List.filter_length_le | simpl; lia].
Qed.

(** X5. The keyword match lies between 0 and 1. *)
Theorem keyword_matching_score_range (resume_text job_description : string) :
  0 <= keyword_matching_score resume_text job_description <= 1.
Proof. apply keyword_matching_score_range_fact. Qed.

End SimilarityRangeFacts.

Section GapAndKeywordFacts.
Context `{Backend}.
Import TextProcessor JobMatcher PySort.
Local Open Scope Q_scope.

Lemma list_of_set_nil (X : gset string) : list_of_set X = [] <-> X = ∅.
Proof.
split.
- intros E. apply leibniz_equiv, elements_empty_iff.
  apply Permutation_nil. rewrite <- E. apply list_of_set_perm.
- intros ->. apply Permutation_nil. rewrite list_of_set_perm.
  now rewrite elements_empty.
Qed.

(** X6. The skill match percentage lies between 0 and 100, and it is 100
    exactly when the job description names a skill and no skill is
    missing. *)
Theorem skill_match_percentage_range (resume_text job_description : string) :
  let gaps := analyze_skill_gaps resume_text job_description in
  0 <= skill_match_percentage gaps <= 100
  /\ (skill_match_percentage gaps == 100
      <-> skill_set job_description <> ∅ /\ missing_skills gaps = []).
Proof.
intros gaps. unfold gaps, analyze_skill_gaps. simpl.
set (R := skill_set resume_text). set (J := skill_set job_description).
rewrite list_of_set_nil.
destruct (decide (J = ∅)) as [HJ | HJ].
{ rewrite bool_decide_eq_true_2 by exact HJ.
  split; [split; vm_compute; discriminate |].
  split; [intros E; vm_compute in E; discriminate | intros [HJ' _]; contradiction]. }
rewrite bool_decide_eq_false_2 by exact HJ.
pose proof (size_pos_of_nonempty J HJ) as HposJ.
assert (HIJ : (size (R ∩ J) <= size J)%nat)
  by (apply subseteq_size, intersection_subseteq_r).
destruct (ratio_bounds _ _ HIJ HposJ) as [Hb0 Hb1].
split; [lra |]. split.
- intros E. split; [exact HJ |].
  assert (Eb : Num.of_nat (size (R ∩ J)) / Num.of_nat (size J) == 1) by lra.
  apply ratio_one in Eb; [| exact HposJ].
  assert (HE : R ∩ J = J).
  { apply set_subseteq_size_eq; [apply intersection_subseteq_r | lia]. }
  apply leibniz_equiv. intros x. rewrite elem_of_difference.
  split; [| intros Hx; now apply not_elem_of_empty in Hx].
  intros [HxJ HxR]. rewrite <- HE in HxJ.
  apply elem_of_intersection in HxJ as [HxR' _]. contradiction.
- intros [_ Hmiss].
  assert (HE : R ∩ J = J).
  { apply leibniz_equiv. intros x. rewrite elem_of_intersection.
    split; [tauto |]. intros HxJ. split; [| exact HxJ].
    destruct (decide (x ∈ R)) as [HxR | HxR]; [exact HxR |].
    assert (Hx : x ∈ J ∖ R) by (now apply elem_of_difference).
    rewrite Hmiss in Hx. now apply not_elem_of_empty in Hx. }
  rewrite HE.
  assert (E1 : Num.of_nat (size J) / Num.of_nat (size J) == 1).
  { apply Qmult_inv_r. pose proof (of_nat_pos _ HposJ). lra. }
  rewrite E1. reflexivity.
Qed.

Lemma strongly_sorted_app {A} (R : A -> A -> Prop) l1 l2 x y :
  StronglySorted R (l1 ++ l2) -> In x l1 -> In y l2 -> R x y.
Proof.
induction l1 as [| a t IH]; intros Hs Hx Hy; [contradiction |].
simpl in Hs. apply StronglySorted_inv in Hs as [Hs Hall].
destruct Hx as [-> | Hx]; [| now apply IH].
rewrite List.Forall_forall in Hall. apply Hall, in_or_app. now right.
Qed.

Lemma filter_split {A} (f : A -> bool) l :
  Permutation l (List.filter f l ++ List.filter (fun a => negb (f a)) l).
Proof.
induction l as [| a t IH]; [reflexivity |]. simpl.
destruct (f a); simpl.
- now apply perm_skip.
- rewrite IH at 1. apply Permutation_middle.
Qed.

(** X7. The important keywords of a text are terms of its TF-IDF
    vector with a positive weight, at most [num_keywords] of them, in
    descending order of weight; and no term left out weighs more than a
    term kept.  A text that preprocessing empties has no keyword. *)
Theorem extract_important_keywords_top (text : string) (num_keywords : nat) :
  let terms := tfidf_terms (preprocess_for_similarity text) in
  (preprocess_for_similarity text = "" ->
   extract_important_keywords text num_keywords = [])
  /\ (preprocess_for_similarity text <> "" ->
      exists kept rest,
        extract_important_keywords text num_keywords = map fst kept
        /\ Permutation terms (kept ++ rest)
        /\ (List.length kept <= num_keywords)%nat
        /\ Forall (fun kw => 0 < kw.2) kept
        /\ StronglySorted (descending snd) kept
        /\ (forall kw kw', In kw kept -> In kw' rest -> kw'.2 <= kw.2)).
Proof.
intros terms. unfold extract_important_keywords. fold terms. split.
{ intros ->. reflexivity. }
intros Hne. apply String.eqb_neq in Hne. rewrite Hne.
set (sorted := sort_desc snd terms).
set (positive := fun ks : string * Q => negb (Qle_bool ks.2 0)).
exists (List.filter positive (take num_keywords sorted)),
       (List.filter (fun a => negb (positive a)) (take num_keywords sorted)
        ++ drop num_keywords sorted).
assert (Hsorted : StronglySorted (descending snd) sorted)
  by apply sort_desc_strongly_sorted.
assert (Hparts : take num_keywords sorted ++ drop num_keywords sorted = sorted)
  by apply take_drop.
assert (Hpos : forall kw, In kw (List.filter positive (take num_keywords sorted)) ->
                          In kw (take num_keywords sorted) /\ 0 < kw.2).
{ intros kw Hkw. apply filter_In in Hkw as [Hin Hp]. split; [exact Hin |].
  unfold positive in Hp. apply negb_true_iff in Hp. now apply Qle_bool_false in Hp. }
split; [reflexivity |]. split; [| split; [| split; [| split]]].
- rewrite app_assoc, <- filter_split, Hparts.
  symmetry. apply sort_desc_perm.
- etransitivity; [apply List.filter_length_le |]. rewrite length_take. lia.
- apply List.Forall_forall. intros kw Hkw. now apply Hpos in Hkw.
- assert (Htake : StronglySorted (descending snd) (take num_keywords sorted)).
  { rewrite <- Hparts in Hsorted. clear -Hsorted.
    induction (take num_keywords sorted) as [| a t IH]; [constructor |].
    simpl in Hsorted. apply StronglySorted_inv in Hsorted as [Hs Hall].
    constructor; [now apply IH |].
    apply List.Forall_forall. intros x Hx.
    rewrite List.Forall_forall in Hall. apply Hall, in_or_app. now left. }
  clear -Htake. induction Htake as [| a t Hs IH Hall]; [constructor |].
  simpl. destruct (positive a); [| exact IH].
  constructor; [exact IH |].
  apply List.Forall_forall. intros x Hx. apply filter_In in Hx as [Hx _].
  rewrite List.Forall_forall in Hall. now apply Hall.
- intros kw kw' Hkw Hkw'. apply Hpos in Hkw as [Hin Hw].
  apply in_app_or in Hkw' as [Hneg | Hdrop].
  + apply filter_In in Hneg as [_ Hn]. unfold positive in Hn.
    rewrite negb_involutive in Hn. apply Qle_bool_iff in Hn. lra.
  + rewrite <- Hparts in Hsorted.
    exact (strongly_sorted_app _ _ _ _ _ Hsorted Hin Hdrop).
Qed.

End GapAndKeywordFacts.

Section SimilarityScoreRange.
Context `{Backend}.
Import TextProcessor JobMatcher.
Local Open Scope Q_scope.

Lemma calculate_similarity_score_range_fact (resume_text job_description : string) :
  (forall text1 text2, 0 <= tfidf_cosine text1 text2 <= 1) ->
  let r := Trace.result (calculate_similarity_score resume_text job_description) in
  0 <= overall_score r <= 100
  /\ Forall (fun ms => 0 <= ms.2 <= 100) (method_scores r).
Proof.
intros Hcos r. unfold r, calculate_similarity_score.
destruct (String.eqb (preprocess_for_similarity resume_text) ""
          || String.eqb (preprocess_for_similarity job_description) "").
{ simpl. split; [split; vm_compute; discriminate | constructor]. }
pose proof (Hcos (preprocess_for_similarity resume_text)
                 (preprocess_for_similarity job_description)) as H1.
pose proof (keyword_matching_score_range_fact resume_text job_description) as H2.
pose proof (skills_matching_score_range_fact resume_text job_description) as [H3 _].
pose proof (experience_matching_score_range_fact resume_text job_description) as H4.
unfold tfidf_cosine_similarity.
set (s1 := tfidf_cosine _ _) in *.
set (s2 := keyword_matching_score _ _) in *.
set (s3 := skills_matching_score _ _) in *.
set (s4 := experience_matching_score _ _) in *.
cbn [Trace.result mbind trace_bind Trace.bind Trace.call mret trace_ret Trace.ret
     fst snd overall_score method_scores map].
split.
- apply round2_percent.
  unfold Num.sum. cbn [map fold_right fst snd].
  change (Num.get weights "tfidf_cosine") with 0.4.
  change (Num.get weights "keyword_match") with 0.2.
  change (Num.get weights "skills_match") with 0.3.
  change (Num.get weights "experience_match") with 0.1.
  lra.
- repeat constructor; cbn [snd]; apply round2_percent; assumption.
Qed.

(** X8. When the TF-IDF cosine lies between 0 and 1, the overall
    similarity score and every method score reported lie between 0 and
    100. *)
Theorem calculate_similarity_score_range (resume_text job_description : string) :
  (forall text1 text2, 0 <= tfidf_cosine text1 text2 <= 1) ->
  let r := Trace.result (calculate_similarity_score resume_text job_description) in
  0 <= overall_score r <= 100
  /\ Forall (fun ms => 0 <= ms.2 <= 100) (method_scores r).
Proof. apply calculate_similarity_score_range_fact. Qed.

End SimilarityScoreRange.

Lemma calculate_similarity_score_range_witness :
  let r := Trace.result (@JobMatcher.calculate_similarity_score (Demo.backend 0.124)
                           Demo.resume_text Demo.job_description) in
  (0 <= JobMatcher.overall_score r <= 100)%Q
  /\ Forall (fun ms => 0 <= ms.2 <= 100)%Q (JobMatcher.method_scores r).
Proof.
apply (@calculate_similarity_score_range (Demo.backend 0.124)).
intros text1 text2. split; vm_compute; discriminate.
Defined.

(** ** Ranges of the category scores and of the overall score *)

Section CategoryRangeFacts.
Import ResumeParser ScoringEngine TextProcessor.
Local Open Scope Q_scope.

Ltac tier_cases :=
  repeat match goal with
         | |- context [if ?b then _ else _] => destruct b
         end;
  split; vm_compute; discriminate.

Lemma word_score_range n : 0.4 <= word_score n <= 1.
Proof. unfold word_score. tier_cases. Qed.

Lemma sentence_score_range a : 0.6 <= sentence_score a <= 1.
Proof. unfold sentence_score. tier_cases. Qed.

Lemma diversity_score_range n u : 0 <= diversity_score n u <= 1.
Proof. unfold diversity_score. tier_cases. Qed.

Lemma quantity_score_range n : 0.4 <= quantity_score n <= 1.
Proof. unfold quantity_score. tier_cases. Qed.

Lemma tech_score_range n : 0.2 <= tech_score n <= 1.
Proof. unfold tech_score. tier_cases. Qed.

Lemma balance_score_range n m : 0.3 <= balance_score n m <= 1.
Proof. unfold balance_score. tier_cases. Qed.

Lemma exp_score_range y : 0 <= exp_score y <= 1.
Proof. unfold exp_score. tier_cases. Qed.

Lemma company_score_range l : 0.2 <= company_score l <= 1.
Proof. unfold company_score. tier_cases. Qed.

Lemma progression_score_range l : 0.3 <= progression_score l <= 1.
Proof. unfold progression_score. tier_cases. Qed.

Lemma mean3 a b c : mean [a; b; c] == (a + b + c) / 3.
Proof. unfold mean, Num.sum. simpl. unfold Qdiv. change (Num.of_nat 3) with 3. ring. Qed.

Lemma calculate_experience_score_range_fact (r : ParsedResume) :
  1 # 6 <= calculate_experience_score r <= 1.
Proof.
unfold calculate_experience_score. rewrite mean3.
pose proof (exp_score_range (experience_years r)).
pose proof (company_score_range (companies r)).
pose proof (progression_score_range (designations r)).
unfold Qdiv. assert (E : / 3 == 1 # 3) by reflexivity. rewrite E. lra.
Qed.

(** X9. The experience score of a parsed resume lies between 1/6 and 1:
    a resume without years, companies and designations still scores
    1/6. *)
Theorem calculate_experience_score_range (r : ParsedResume) :
  1 # 6 <= calculate_experience_score r <= 1.
Proof. apply calculate_experience_score_range_fact. Qed.

Lemma calculate_skills_relevance_score_range_fact (r : ParsedResume) :
  (skills r = [] -> calculate_skills_relevance_score r == 0)
  /\ (skills r <> [] -> 0.3 <= calculate_skills_relevance_score r <= 1).
Proof.
unfold calculate_skills_relevance_score.
destruct (skills r) as [| s t]; split; try congruence; try reflexivity.
intros _. rewrite mean3.
set (tech := List.length (List.filter _ (s :: t))).
set (soft := List.length (List.filter _ (s :: t))).
pose proof (quantity_score_range (List.length (s :: t))).
pose proof (tech_score_range tech).
pose proof (balance_score_range tech soft).
unfold Qdiv. assert (E : / 3 == 1 # 3) by reflexivity. rewrite E. lra.
Qed.

(** X10. The skills relevance score is 0 for a resume without skills and
    lies between 0.3 and 1 otherwise. *)
Theorem calculate_skills_relevance_score_range (r : ParsedResume) :
  (skills r = [] -> calculate_skills_relevance_score r == 0)
  /\ (skills r <> [] -> 0.3 <= calculate_skills_relevance_score r <= 1).
Proof. apply calculate_skills_relevance_score_range_fact. Qed.

Lemma skills_relevance_unit (r : ParsedResume) :
  0 <= calculate_skills_relevance_score r <= 1.
Proof.
destruct (calculate_skills_relevance_score_range_fact r) as [Hnil Hcons].
destruct (skills r) as [| s t] eqn:E.
- rewrite Hnil by reflexivity. lra.
- assert (Hne : s :: t <> []) by discriminate. specialize (Hcons Hne). lra.
Qed.

Section WithBackend.
Context `{Backend}.

Lemma content_quality_unit (resume_text : string) :
  0 <= calculate_content_quality_score resume_text <= 1.
Proof.
unfold calculate_content_quality_score.
destruct (String.eqb resume_text ""); [split; vm_compute; discriminate |].
rewrite mean3.
set (wc := from_option word_count 0%nat _).
set (avg := from_option avg_words_per_sentence 0 _).
set (uw := from_option unique_words 0%nat _).
pose proof (word_score_range wc). pose proof (sentence_score_range avg).
pose proof (diversity_score_range wc uw).
unfold Qdiv. assert (E : / 3 == 1 # 3) by reflexivity. rewrite E. lra.
Qed.

Lemma weighted_sum_unfold c q s e j :
  weighted_sum [ ("completeness", c); ("content_quality", q);
                 ("skills_relevance", s); ("experience", e); ("job_match", j) ]
  == c * 0.30 + q * 0.25 + s * 0.20 + e * 0.15 + j * 0.10.
Proof.
unfold weighted_sum, Num.sum. cbn [map fold_right fst snd].
change (Num.get weights "completeness") with 0.30.
change (Num.get weights "content_quality") with 0.25.
change (Num.get weights "skills_relevance") with 0.20.
change (Num.get weights "experience") with 0.15.
change (Num.get weights "job_match") with 0.10.
ring.
Qed.

Lemma job_match_unit (resume_text : string) (job_description : option string) :
  (forall text1 text2, 0 <= tfidf_cosine text1 text2 <= 1) ->
  0 <= match job_description with
       | Some jd =>
           if String.eqb jd "" then 0.0
           else JobMatcher.overall_score
                  (Trace.result (JobMatcher.calculate_similarity_score resume_text jd))
                / 100
       | None => 0.0
       end <= 1.
Proof.
intros Hcos. destruct job_description as [jd |]; [| split; vm_compute; discriminate].
destruct (String.eqb jd ""); [split; vm_compute; discriminate |].
destruct (calculate_similarity_score_range_fact resume_text jd Hcos) as [[H0 H1] _].
unfold Qdiv. assert (E : / 100 == 1 # 100) by reflexivity. rewrite E. lra.
Qed.

(** X11. Without a job description (or with an empty one) the overall
    score reported lies between 2.5 and 90: the job match counts for 0,
    and the experience score is never below 1/6. *)
Theorem calculate_overall_score_without_job
    (parsed_resume : ParsedResume) (resume_text : string)
    (job_description : option string) :
  job_description = None \/ job_description = Some "" ->
  let r := calculate_overall_score parsed_resume resume_text job_description in
  2.5 <= overall_score r <= 90.
Proof.
intros Hjob r. unfold r, calculate_overall_score. cbn [overall_score].
assert (Hvalues :
  category_values parsed_resume resume_text job_description
  = [ ("completeness", calculate_completeness_score parsed_resume);
      ("content_quality", calculate_content_quality_score resume_text);
      ("skills_relevance", calculate_skills_relevance_score parsed_resume);
      ("experience", calculate_experience_score parsed_resume);
      ("job_match", 0.0) ]).
{ destruct Hjob as [-> | ->]; reflexivity. }
rewrite Hvalues.
pose proof (calculate_completeness_score_range parsed_resume).
pose proof (content_quality_unit resume_text).
pose proof (skills_relevance_unit parsed_resume).
pose proof (calculate_experience_score_range_fact parsed_resume).
destruct (round2_bounds 250 9000
            (weighted_sum
               [ ("completeness", calculate_completeness_score parsed_resume);
                 ("content_quality", calculate_content_quality_score resume_text);
                 ("skills_relevance", calculate_skills_relevance_score parsed_resume);
                 ("experience", calculate_experience_score parsed_resume);
                 ("job_match", 0.0) ] * 100)) as [Hl Hu].
- rewrite weighted_sum_unfold.
  assert (E : inject_Z 250 / 100 == 2.5) by reflexivity. rewrite E. lra.
- rewrite weighted_sum_unfold.
  assert (E : inject_Z 9000 / 100 == 90) by reflexivity. rewrite E. lra.
- assert (El : inject_Z 250 / 100 == 2.5) by reflexivity.
  assert (Eu : inject_Z 9000 / 100 == 90) by reflexivity.
  rewrite El in Hl. rewrite Eu in Hu. split; assumption.
Qed.

(** X12. When the TF-IDF cosine lies between 0 and 1, the overall score
    reported lies between 2.5 and 100, and so does each of the five
    category scores between 0 and 100. *)
Theorem calculate_overall_score_range
    (parsed_resume : ParsedResume) (resume_text : string)
    (job_description : option string) :
  (forall text1 text2, 0 <= tfidf_cosine text1 text2 <= 1) ->
  let r := calculate_overall_score parsed_resume resume_text job_description in
  2.5 <= overall_score r <= 100
  /\ Forall (fun kv => 0 <= kv.2 <= 100) (category_scores r).
Proof.
intros Hcos r. unfold r, calculate_overall_score.
cbn [overall_score category_scores]. unfold category_values.
pose proof (calculate_completeness_score_range parsed_resume) as Hc.
pose proof (content_quality_unit resume_text) as Hq.
pose proof (skills_relevance_unit parsed_resume) as Hs.
pose proof (calculate_experience_score_range_fact parsed_resume) as He.
pose proof (job_match_unit resume_text job_description Hcos) as Hj.
set (j := match job_description with Some _ => _ | None => _ end) in *.
split.
- destruct (round2_bounds 250 10000
              (weighted_sum
                 [ ("completeness", calculate_completeness_score parsed_resume);
                   ("content_quality", calculate_content_quality_score resume_text);
                   ("skills_relevance", calculate_skills_relevance_score parsed_resume);
                   ("experience", calculate_experience_score parsed_resume);
                   ("job_match", j) ] * 100)) as [Hl Hu].
  + rewrite weighted_sum_unfold.
    assert (E : inject_Z 250 / 100 == 2.5) by reflexivity. rewrite E. lra.
  + rewrite weighted_sum_unfold.
    assert (E : inject_Z 10000 / 100 == 100) by reflexivity. rewrite E. lra.
  + assert (El : inject_Z 250 / 100 == 2.5) by reflexivity.
    assert (Eu : inject_Z 10000 / 100 == 100) by reflexivity.
    rewrite El in Hl. rewrite Eu in Hu. split; assumption.
- cbn [map fst snd].
  repeat constructor; cbn [snd]; apply round2_percent; try assumption; lra.
Qed.

End WithBackend.

End CategoryRangeFacts.

Lemma calculate_overall_score_without_job_witness :
  (2.5 <= ScoringEngine.overall_score
            (@ScoringEngine.calculate_overall_score (Demo.backend 0)
               Demo.resume Demo.resume_text None) <= 90)%Q.
Proof.
apply (@calculate_overall_score_without_job (Demo.backend 0)). left. reflexivity.
Defined.

Lemma calculate_overall_score_range_witness :
  let r := @ScoringEngine.calculate_overall_score (Demo.backend 0.124)
             Demo.resume Demo.resume_text (Some Demo.job_description) in
  (2.5 <= ScoringEngine.overall_score r <= 100)%Q
  /\ Forall (fun kv => 0 <= kv.2 <= 100)%Q (ScoringEngine.category_scores r).
Proof.
apply (@calculate_overall_score_range (Demo.backend 0.124)).
intros text1 text2. split; vm_compute; discriminate.
Defined.

(** ** More on [clean_text] *)

Section CleanTextMore.
Import Chars Str CleanText Shape.

Lemma lstrip_fixed_head_ok l : lstrip l = l -> head_ok l.
Proof. intros E. rewrite <- E. apply lstrip_head_ok. Qed.

Lemma head_ok_head l : head_ok l -> Forall clean_char l -> head l <> Some space.
Proof.
destruct l as [| c t]; simpl; [discriminate |].
intros Hc _ [= ->]. discriminate.
Qed.

Lemma last_rev_head {A} (l : list A) : last l = head (rev l).
Proof.
induction l as [| a t IH] using rev_ind; [reflexivity |].
rewrite last_snoc, rev_app_distr. reflexivity.
Qed.

(** X13. A cleaned text consists of lower-case letters and spaces only,
    has no two spaces in a row, and neither starts nor ends with a
    space. *)
Theorem clean_text_shape (T : string) :
  let l := chars (clean_text T) in
  Forall clean_char l
  /\ no_runs false l = true
  /\ head l <> Some space
  /\ last l <> Some space.
Proof.
intros l. unfold l, clean_text.
rewrite list_ascii_of_string_of_list_ascii.
destruct (clean_chars_shape (chars T)) as (Hc & Hr & Hs).
set (x := clean_chars (chars T)) in *.
assert (Hhead : head_ok x) by (rewrite <- Hs; apply strip_head_ok).
assert (Hrs : rstrip x = x).
{ unfold strip in Hs. now rewrite (head_ok_lstrip _ Hhead) in Hs. }
assert (Hlast : head_ok (rev x)).
{ apply lstrip_fixed_head_ok. unfold rstrip in Hrs.
  rewrite <- (rev_involutive (lstrip (rev x))), Hrs. reflexivity. }
repeat split; try assumption.
- now apply head_ok_head.
- rewrite last_rev_head. apply head_ok_head; [exact Hlast |].
  now apply Forall_rev.
Qed.

Lemma letter_lower_char c : is_letter c = true -> is_lower (lower_char c) = true.
Proof. destruct c as [[] [] [] [] [] [] [] []]; vm_compute; congruence. Qed.

Lemma lower_is_letter c : is_lower c = true -> is_letter c = true.
Proof. unfold is_letter. intros ->. apply orb_true_r. Qed.

Lemma not_letter_lower_char c : is_letter c = false -> lower_char c = c.
Proof. destruct c as [[] [] [] [] [] [] [] []]; vm_compute; congruence. Qed.

Lemma collapse_from_keeps b l x :
  In x l -> is_space x = false -> In x (collapse_from b l).
Proof.
revert b. induction l as [| c t IH]; intros b Hx Hs; [contradiction |].
simpl. destruct Hx as [-> | Hx].
- rewrite Hs. now left.
- destruct (is_space c); [destruct b |]; simpl; auto.
Qed.

Lemma lstrip_keeps l x : In x l -> is_space x = false -> In x (lstrip l).
Proof.
induction l as [| c t IH]; intros Hx Hs; [contradiction |].
simpl. destruct (is_space c) eqn:Ec; [| exact Hx].
destruct Hx as [-> | Hx]; [congruence | now apply IH].
Qed.

Lemma strip_keeps l x : In x l -> is_space x = false -> In x (strip l).
Proof.
intros Hx Hs. unfold strip, rstrip.
apply (proj1 (in_rev (lstrip (rev (lstrip l))) x)).
apply lstrip_keeps; [| exact Hs].
apply (proj1 (in_rev (lstrip l) x)).
now apply lstrip_keeps.
Qed.

Lemma lstrip_spaces l : Forall (fun c => is_space c = true) l -> lstrip l = [].
Proof. induction 1 as [| c t Hc _ IH]; simpl; [reflexivity |]. now rewrite Hc. Qed.

Lemma collapse_from_spaces b l :
  Forall (fun c => is_space c = true) l ->
  Forall (fun c => is_space c = true) (collapse_from b l).
Proof.
intros Hl. revert b. induction Hl as [| c t Hc _ IH]; intros b; simpl; [constructor |].
rewrite Hc. destruct b; [apply IH |]. constructor; [reflexivity | apply IH].
Qed.

Lemma clean_text_empty_iff_fact (T : string) :
  clean_text T = "" <-> Forall (fun c => is_letter c = false) (chars T).
Proof.
unfold clean_text. split.
- intros E.
  assert (El : clean_chars (chars T) = []).
  { rewrite <- (list_ascii_of_string_of_list_ascii (clean_chars (chars T))), E.
    reflexivity. }
  apply List.Forall_forall. intros c Hc.
  destruct (is_letter c) eqn:Elet; [exfalso | reflexivity].
  assert (Hin : In (lower_char c) (clean_chars (chars T))).
  { destruct (chars T) as [| c0 t] eqn:ET; [contradiction |].
    unfold clean_chars. rewrite <- ET in *.
    pose proof (letter_lower_char c Elet) as Hlow.
    pose proof (letter_not_space _ (lower_is_letter _ Hlow)) as Hns.
    apply strip_keeps; [| exact Hns].
    apply collapse_from_keeps; [| exact Hns].
    unfold sub_non_letters. apply in_map_iff. exists (lower_char c). split.
    - now rewrite (lower_is_letter _ Hlow).
    - unfold lower. now apply in_map. }
  rewrite El in Hin. contradiction.
- intros Hall.
  destruct (chars T) as [| c0 t] eqn:ET; [reflexivity |].
  unfold clean_chars. rewrite <- ET in *. clear ET c0 t.
  assert (Hsp : Forall (fun c => is_space c = true)
                       (sub_non_letters (lower (chars T)))).
  { induction Hall as [| c t Hc _ IH]; simpl; constructor; [| exact IH].
    rewrite (not_letter_lower_char c Hc), Hc. simpl.
    destruct (is_space c) eqn:Es; [exact Es | reflexivity]. }
  unfold strip, collapse_spaces.
  rewrite (lstrip_spaces _ (collapse_from_spaces false _ Hsp)). reflexivity.
Qed.

(** X14. Of the texts of ASCII characters, [clean_text] returns the
    empty string exactly for those without a letter. *)
Theorem clean_text_empty_iff (T : string) :
  PlainText.ascii_text T ->
  clean_text T = "" <-> Forall (fun c => is_letter c = false) (chars T).
Proof. intros _. apply clean_text_empty_iff_fact. Qed.

End CleanTextMore.

Lemma clean_text_empty_iff_witness :
  CleanText.clean_text "+49 (0) 30 1234-5678 ***" = "".
Proof.
apply (clean_text_empty_iff "+49 (0) 30 1234-5678 ***").
- vm_compute. repeat constructor.
- vm_compute. repeat constructor.
Defined.

Section NoLetterSimilarity.
Context `{Backend}.
Import Chars TextProcessor JobMatcher.

(** X15. With a tokenizer that finds no word in the empty string, a
    resume text or a job description of ASCII characters without any
    letter gives the similarity score 0.0 with no method score, none of
    the four methods having run. *)
Theorem calculate_similarity_score_no_letters
    (resume_text job_description : string) :
  word_tokenize "" = [] ->
  (PlainText.ascii_text resume_text
   /\ Forall (fun c => is_letter c = false) (chars resume_text))
  \/ (PlainText.ascii_text job_description
      /\ Forall (fun c => is_letter c = false) (chars job_description)) ->
  calculate_similarity_score resume_text job_description
  = ({| overall_score := 0.0; method_scores := [] |}, []).
Proof.
intros Htok Hno.
assert (Hpre : forall text,
  Forall (fun c => is_letter c = false) (chars text) ->
  preprocess_for_similarity text = "").
{ intros text Ht. unfold preprocess_for_similarity.
  rewrite (proj2 (clean_text_empty_iff_fact text) Ht).
  unfold remove_stopwords. rewrite Htok. simpl.
  unfold lemmatize_text. rewrite Htok. reflexivity. }
unfold calculate_similarity_score.
destruct Hno as [[_ Hr] | [_ Hj]].
- rewrite (Hpre _ Hr). reflexivity.
- rewrite (Hpre _ Hj), orb_true_r. reflexivity.
Qed.

End NoLetterSimilarity.

Lemma calculate_similarity_score_no_letters_witness :
  @JobMatcher.calculate_similarity_score (Demo.backend 0.124)
    "+49 (0) 30 1234-5678 ***" Demo.job_description
  = ({| JobMatcher.overall_score := 0.0; JobMatcher.method_scores := [] |}, []).
Proof.
apply (@calculate_similarity_score_no_letters (Demo.backend 0.124)).
- reflexivity.
- left. split; vm_compute; repeat constructor.
Defined.

(** ** Whole-word matches and the skills found *)

Section WordFacts.
Import Chars WordRegex WordSpec.

Lemma last_or_cons before c l : last_or before (c :: l) = last_or (Some c) l.
Proof.
unfold last_or. destruct l as [| d t]; [reflexivity |].
rewrite last_cons. destruct (last (d :: t)); reflexivity.
Qed.

Lemma last_or_none l : last_or None l = last l.
Proof. unfold last_or. now destruct (last l). Qed.

Lemma literal_spec pat l before lst rest :
  literal pat l before = Some (lst, rest)
  <-> l = pat ++ rest /\ lst = last_or before pat.
Proof.
revert l before. induction pat as [| p pat' IH]; intros l before; simpl.
- unfold last_or. simpl. split.
  + intros [= -> ->]. auto.
  + intros [-> ->]. reflexivity.
- destruct l as [| c l']; [split; [discriminate | intros [[=] _]] |].
  rewrite last_or_cons.
  destruct (Ascii.eqb_spec p c) as [-> | Hne].
  + rewrite IH. split; intros [E ->]; (split; [| reflexivity]); congruence.
  + split; [discriminate | intros [[= E _] _]; congruence].
Qed.

Lemma match_here_spec pat l before :
  match_here pat l before = true
  <-> exists post,
        l = pat ++ post
        /\ boundary before (head (pat ++ post)) = true
        /\ boundary (last_or before pat) (head post) = true.
Proof.
unfold match_here. rewrite andb_true_iff. split.
- intros [Hb Hl].
  destruct (literal pat l before) as [[lst rest] |] eqn:E; [| discriminate].
  apply literal_spec in E as [-> ->]. now exists rest.
- intros (post & -> & Hb & He). split; [exact Hb |].
  assert (E : literal pat (pat ++ post) before = Some (last_or before pat, post))
    by (now apply literal_spec).
  now rewrite E.
Qed.

Lemma search_from_spec pat l before :
  search_from pat l before = true
  <-> exists pre post,
        l = pre ++ pat ++ post
        /\ boundary (last_or before pre) (head (pat ++ post)) = true
        /\ boundary (last_or before (pre ++ pat)) (head post) = true.
Proof.
revert before. induction l as [| c t IH]; intros before.
- cbn [search_from]. rewrite orb_false_r, match_here_spec. split.
  + intros (post & E & Hb & He). exists [], post. auto.
  + intros (pre & post & E & Hb & He).
    destruct pre as [| d pre']; [| discriminate]. exists post. auto.
- cbn [search_from]. rewrite orb_true_iff, match_here_spec, IH. split.
  + intros [(post & E & Hb & He) | (pre & post & E & Hb & He)].
    * exists [], post. auto.
    * exists (c :: pre), post. simpl. rewrite !last_or_cons.
      split; [now rewrite E | auto].
  + intros (pre & post & E & Hb & He).
    destruct pre as [| d pre'].
    * left. exists post. auto.
    * right. simpl in E. injection E as -> E.
      simpl in He. rewrite last_or_cons in Hb, He.
      exists pre', post. auto.
Qed.

Lemma search_spec (pat text : string) :
  search pat text = true <-> occurs_as_word (chars pat) (chars text).
Proof.
unfold search, occurs_as_word. rewrite search_from_spec.
split; intros (pre & post & E & Hb & He); exists pre, post;
  rewrite ?last_or_none in *; auto.
Qed.

End WordFacts.

Section SkillWordFacts.
Context `{Backend}.
Import Chars TextProcessor WordSpec.

Lemma extract_skills_whole_word_fact (T : string) (S : list string) (x : string) :
  x ∈ extract_skills T (Some S)
  <-> x ∈ S /\ occurs_as_word (chars (lower x)) (chars (lower T)).
Proof.
unfold extract_skills.
rewrite list_of_set_elem_of, elem_of_list_to_set.
rewrite (elem_of_bool_filter
           (fun skill => WordRegex.search (lower skill) (lower T)) S x).
now rewrite search_spec.
Qed.

(** X16. In a text of ASCII characters, [extract_skills] finds a skill
    with a name of ASCII characters exactly when the skill is in the list
    and its lower-cased name stands in the lower-cased text between two
    word boundaries: before its first and after its last character,
    exactly one of the two neighbours is a letter, a digit or an
    underscore (the ends of the text counting as neither). *)
Theorem extract_skills_whole_word (T : string) (S : list string) (x : string) :
  PlainText.ascii_text T -> PlainText.ascii_text x ->
  x ∈ extract_skills T (Some S)
  <-> x ∈ S /\ occurs_as_word (chars (lower x)) (chars (lower T)).
Proof. intros _ _. apply extract_skills_whole_word_fact. Qed.

(** X17. In a text of ASCII characters, a skill whose name, of ASCII
    characters, ends with a character that is no letter, digit or
    underscore (as [c++] does) is found only where its name is followed
    at once by a letter, a digit or an underscore; and one whose name
    starts with such a character only where a letter, a digit or an
    underscore stands right before it. *)
Theorem extract_skills_symbol_edge (T : string) (S : list string) (x : string) :
  PlainText.ascii_text T -> PlainText.ascii_text x ->
  x ∈ extract_skills T (Some S) ->
  (forall c, last (chars (lower x)) = Some c -> is_word c = false ->
     exists pre c' post,
       chars (lower T) = pre ++ chars (lower x) ++ c' :: post
       /\ is_word c' = true)
  /\ (forall c, head (chars (lower x)) = Some c -> is_word c = false ->
        exists pre c' post,
          chars (lower T) = (pre ++ [c']) ++ chars (lower x) ++ post
          /\ is_word c' = true).
Proof.
intros _ _ Hx.
apply extract_skills_whole_word_fact in Hx as [_ (pre & post & E & Hb & He)].
split.
- intros c Hlast Hc.
  assert (Hl : last (pre ++ chars (lower x)) = Some c).
  { destruct (chars (lower x)) as [| d t] using rev_ind; [discriminate |].
    rewrite last_snoc in Hlast. rewrite app_assoc, last_snoc. exact Hlast. }
  rewrite Hl in He. unfold WordRegex.boundary in He. simpl in He.
  rewrite Hc in He. simpl in He.
  destruct post as [| c' post']; [discriminate |].
  exists pre, c', post'. split; [exact E | exact He].
- intros c Hhead Hc.
  assert (Hh : head (chars (lower x) ++ post) = Some c).
  { destruct (chars (lower x)) as [| d t]; [discriminate | exact Hhead]. }
  rewrite Hh in Hb. unfold WordRegex.boundary in Hb. simpl in Hb.
  rewrite Hc, xorb_false_r in Hb.
  destruct pre as [| d t] using rev_ind; [discriminate |].
  rewrite last_snoc in Hb. simpl in Hb.
  exists t, d, post. split; [exact E | exact Hb].
Qed.

End SkillWordFacts.

Example extract_skills_cpp :
  @TextProcessor.extract_skills (Demo.backend 0)
    "Expert in C++, C++ templates and Java. Also c++" None
  = ["java"]
  /\ @TextProcessor.extract_skills (Demo.backend 0) "c++11 and java8" None = ["c++"].
Proof. split; vm_compute; reflexivity. Qed.

Lemma extract_skills_symbol_edge_witness :
  exists pre c' post,
    chars (TextProcessor.lower "c++11 and java8")
    = pre ++ chars (TextProcessor.lower "c++") ++ c' :: post
    /\ Chars.is_word c' = true.
Proof.
refine (proj1 (@extract_skills_symbol_edge (Demo.backend 0) "c++11 and java8"
                 ["c++"; "java"] "c++" _ _ _) "+"%char _ _).
- vm_compute. repeat constructor.
- vm_compute. repeat constructor.
- vm_compute. left.
- reflexivity.
- reflexivity.
Defined.

Lemma extract_skills_whole_word_witness :
  "sql" ∈ @TextProcessor.extract_skills (Demo.backend 0)
            "Python, SQL and Java8" (Some ["python"; "java"; "sql"])
  <-> "sql" ∈ ["python"; "java"; "sql"]
      /\ WordSpec.occurs_as_word
           (chars (TextProcessor.lower "sql"))
           (chars (TextProcessor.lower "Python, SQL and Java8")).
Proof.
apply (@extract_skills_whole_word (Demo.backend 0) "Python, SQL and Java8"
         ["python"; "java"; "sql"] "sql").
- vm_compute. repeat constructor.
- vm_compute. repeat constructor.
Defined.

(** ** Entities with a recognizer *)

Section EntityMoreFacts.
Context `{Backend}.
Import TextProcessor EntitySpec.

Lemma add_entity_lookup entities ent kind :
  add_entity entities ent !! kind
  = (fun spans => if String.eqb ent.1 kind then spans ++ [ent.2] else spans)
      <$> entities !! kind.
Proof.
unfold add_entity. destruct (entities !! ent.1) as [spans |] eqn:E.
- destruct (String.eqb_spec ent.1 kind) as [<- | Hne].
  + rewrite lookup_insert_eq, E. reflexivity.
  + rewrite lookup_insert_ne by exact Hne.
    destruct (entities !! kind); reflexivity.
- destruct (String.eqb_spec ent.1 kind) as [<- | Hne].
  + rewrite E. reflexivity.
  + destruct (entities !! kind); reflexivity.
Qed.

Lemma fold_add_entity_lookup ents entities kind :
  fold_left add_entity ents entities !! kind
  = (fun spans => spans ++ spans_of kind ents) <$> entities !! kind.
Proof.
revert entities. induction ents as [| ent rest IH]; intros entities.
- simpl. unfold spans_of. simpl.
  destruct (entities !! kind); simpl; [now rewrite app_nil_r | reflexivity].
- cbn [fold_left]. rewrite IH, add_entity_lookup.
  unfold spans_of. cbn [List.filter].
  destruct (entities !! kind) as [spans |]; simpl; [| reflexivity].
  destruct (String.eqb ent.1 kind); simpl; [| reflexivity].
  now rewrite <- app_assoc.
Qed.

Lemma extract_entities_by_kind_fact recognize (text kind : string) :
  nlp = Some recognize ->
  extract_entities text !! kind
  = if bool_decide (kind ∈ kinds) then Some (spans_of kind (recognize text))
    else None.
Proof.
intros E. unfold extract_entities. rewrite E, fold_add_entity_lookup.
unfold no_entities, kinds.
destruct (decide (kind ∈ ["PERSON"; "ORG"; "DATE"; "GPE"; "MONEY"; "PERCENT"]))
  as [Hin | Hout].
- rewrite bool_decide_eq_true_2 by exact Hin.
  rewrite !elem_of_cons in Hin.
  destruct Hin as [-> | [-> | [-> | [-> | [-> | [-> | Hin]]]]]];
    [reflexivity .. | now apply elem_of_nil in Hin].
- rewrite bool_decide_eq_false_2 by exact Hout.
  rewrite !elem_of_cons in Hout.
  rewrite !lookup_insert_ne, lookup_empty by (intros <-; tauto).
  reflexivity.
Qed.

(** X18. With a recognizer, [extract_entities] maps each of the six kinds
    to the texts of the entities of that kind, in the order in which the
    recognizer gives them (the empty sequence when there is none), and
    has no other key: entities of other kinds are dropped. *)
Theorem extract_entities_by_kind recognize (text kind : string) :
  nlp = Some recognize ->
  extract_entities text !! kind
  = if bool_decide (kind ∈ kinds) then Some (spans_of kind (recognize text))
    else None.
Proof. apply extract_entities_by_kind_fact. Qed.

End EntityMoreFacts.

Lemma extract_entities_by_kind_witness :
  @TextProcessor.extract_entities Samples.backend
     "Ada and Charles met in 1833 and built 2 engines" !! "PERSON"
  = Some ["Ada"; "Charles"]
  /\ @TextProcessor.extract_entities Samples.backend
       "Ada and Charles met in 1833 and built 2 engines" !! "CARDINAL" = None.
Proof.
split.
- exact (@extract_entities_by_kind Samples.backend Samples.recognize
           "Ada and Charles met in 1833 and built 2 engines" "PERSON" eq_refl).
- exact (@extract_entities_by_kind Samples.backend Samples.recognize
           "Ada and Charles met in 1833 and built 2 engines" "CARDINAL" eq_refl).
Defined.

(** ** More on the sections of a resume *)

Section SectionMoreFacts.
Context `{Backend}.
Import Str ResumeParser.

Lemma parser_strip_idem s : strip (strip s) = strip s.
Proof.
unfold strip. now rewrite list_ascii_of_string_of_list_ascii, strip_idem.
Qed.

Lemma extract_resume_sections_keys_and_bodies_fact (text : string) :
  dom (extract_resume_sections text)
  = list_to_set (map fst empty_sections)
  /\ forall key body,
       extract_resume_sections text !! key = Some body -> strip body = body.
Proof.
split.
- rewrite extract_resume_sections_dom. apply dom_list_to_map_L.
- intros key body. unfold extract_resume_sections.
  destruct (fold_left section_step (lines text) (None, list_to_map empty_sections))
    as [current sections].
  rewrite lookup_fmap. destruct (sections !! key) as [raw |]; [| discriminate].
  intros [= <-]. apply parser_strip_idem.
Qed.

(** X19. Whatever the text, the dict of [extract_resume_sections] has the
    eight section names as its keys, and no body in it starts or ends
    with white space: stripping a body again changes nothing. *)
Theorem extract_resume_sections_keys_and_bodies (text : string) :
  dom (extract_resume_sections text)
  = list_to_set (map fst empty_sections)
  /\ forall key body,
       extract_resume_sections text !! key = Some body -> strip body = body.
Proof. apply extract_resume_sections_keys_and_bodies_fact. Qed.

Lemma split_on_cons sep l : exists w ws, split_on sep l = w :: ws.
Proof.
induction l as [| c t (w & ws & E)]; simpl; [now exists [], [] |].
destruct (Ascii.eqb c sep); [now eexists _, _ |].
rewrite E. now eexists _, _.
Qed.

Lemma split_on_app sep a b :
  split_on sep (a ++ sep :: b) = split_on sep a ++ split_on sep b.
Proof.
induction a as [| c t IH]; simpl.
- now rewrite Ascii.eqb_refl.
- destruct (Ascii.eqb c sep); [now rewrite IH |].
  rewrite IH. destruct (split_on_cons sep t) as (w & ws & ->). reflexivity.
Qed.

Lemma chars_app (a b : string) : chars (a ++ b) = chars a ++ chars b.
Proof. induction a as [| c a IH]; simpl; [reflexivity | now rewrite IH]. Qed.

Lemma lines_app (a b : string) :
  lines (a ++ String "010" b) = lines a ++ lines b.
Proof.
unfold lines. rewrite chars_app. simpl.
now rewrite split_on_app, map_app.
Qed.

Lemma find_none_all {A} (f : A -> bool) l :
  (forall x, In x l -> f x = false) -> List.find f l = None.
Proof.
induction l as [| a t IH]; intros Hall; [reflexivity |].
simpl. rewrite (Hall a) by now left. apply IH. intros x Hx. apply Hall. now right.
Qed.

(** No line being a header, nothing is collected. *)
Lemma fold_section_step_no_header text_lines sections :
  (forall line, In line text_lines ->
     forall sp, In sp section_patterns -> re_search sp.2 (strip line) = false) ->
  fold_left section_step text_lines (None, sections) = (None, sections).
Proof.
induction text_lines as [| line rest IH]; intros Hno; [reflexivity |].
cbn [fold_left].
assert (Hstep : section_step (None, sections) line = (None, sections)).
{ unfold section_step. destruct (String.eqb (strip line) ""); [reflexivity |].
  rewrite find_none_all; [reflexivity |].
  intros sp Hsp. apply (Hno line); [now left | exact Hsp]. }
rewrite Hstep. apply IH. intros l Hl. apply Hno. now right.
Qed.

(** X20. The lines of a text that stand before its first header are
    thrown away: a text that begins with lines none of which is a header
    has the sections of what follows these lines; and a text without any
    header has eight empty sections. *)
Theorem extract_resume_sections_preamble (preamble rest : string) :
  (forall line, In line (lines preamble) ->
     forall sp, In sp section_patterns -> re_search sp.2 (strip line) = false) ->
  extract_resume_sections (preamble ++ String "010" rest)
  = extract_resume_sections rest
  /\ forall key, In key (map fst empty_sections) ->
       extract_resume_sections preamble !! key = Some "".
Proof.
intros Hno. unfold extract_resume_sections. split.
- rewrite lines_app, fold_left_app.
  now rewrite (fold_section_step_no_header _ _ Hno).
- intros key Hk. rewrite (fold_section_step_no_header _ _ Hno).
  rewrite lookup_fmap. simpl in Hk.
  repeat (destruct Hk as [<- | Hk]; [reflexivity |]). contradiction.
Qed.

End SectionMoreFacts.

Lemma extract_resume_sections_preamble_witness :
  @ResumeParser.extract_resume_sections (Demo.backend 0)
    ("Ada Lovelace" ++ String "010" "London"
     ++ String "010" ("Skills" ++ String "010" "python"))
  = @ResumeParser.extract_resume_sections (Demo.backend 0)
      ("Skills" ++ String "010" "python")
  /\ forall key, In key (map fst ResumeParser.empty_sections) ->
       @ResumeParser.extract_resume_sections (Demo.backend 0)
         ("Ada Lovelace" ++ String "010" "London") !! key = Some "".
Proof.
apply (@extract_resume_sections_preamble (Demo.backend 0)
         ("Ada Lovelace" ++ String "010" "London")
         ("Skills" ++ String "010" "python")).
intros line Hline sp Hsp. vm_compute in Hline.
destruct Hline as [<- | [<- | []]]; vm_compute in Hsp;
  repeat (destruct Hsp as [<- | Hsp]; [reflexivity |]); contradiction.
Defined.

(** ** Substrings *)

Section ContainsFacts.
Import Str.

Lemma starts_with_spec pat l :
  starts_with pat l = true <-> exists post, l = pat ++ post.
Proof.
revert l. induction pat as [| p pat' IH]; intros l; simpl.
- split; [intros _; now exists l | reflexivity].
- destruct l as [| c l']; [split; [discriminate | intros [post [=]]] |].
  rewrite andb_true_iff, IH. split.
  + intros [Hpc [post ->]]. apply Ascii.eqb_eq in Hpc as ->. now exists post.
  + intros [post [= -> ->]]. split; [apply Ascii.eqb_refl | now exists post].
Qed.

Lemma contains_spec pat l :
  contains pat l = true <-> exists pre post, l = pre ++ pat ++ post.
Proof.
induction l as [| c t IH].
- cbn [contains]. rewrite orb_false_r, starts_with_spec. split.
  + intros [post E]. now exists [], post.
  + intros (pre & post & E). destruct pre as [| d pre']; [| discriminate].
    now exists post.
- cbn [contains]. rewrite orb_true_iff, starts_with_spec, IH. split.
  + intros [[post E] | (pre & post & E)].
    * now exists [], post.
    * exists (c :: pre), post. simpl. now rewrite E.
  + intros (pre & post & E). destruct pre as [| d pre'].
    * left. now exists post.
    * right. injection E as -> E. now exists pre', post.
Qed.

Lemma contains_trans a b l :
  contains a b = true -> contains b l = true -> contains a l = true.
Proof.
rewrite !contains_spec. intros (p1 & s1 & ->) (p2 & s2 & ->).
exists (p2 ++ p1), (s1 ++ s2). now rewrite <- !app_assoc.
Qed.

End ContainsFacts.

(** ** Job categories *)

Section CategoryFacts.
Import TextProcessor JobMatcher JobMatcherMore.

Lemma mentions_any_false text_lower keywords keyword :
  mentions_any text_lower keywords = false -> In keyword keywords ->
  contains (lower keyword) text_lower = false.
Proof.
intros Hm Hk. unfold mentions_any in Hm.
destruct (contains (lower keyword) text_lower) eqn:E; [| reflexivity].
assert (Ht : existsb (fun keyword => contains (lower keyword) text_lower) keywords
             = true).
{ apply existsb_exists. now exists keyword. }
congruence.
Qed.

(** Every keyword of web development holds the keyword [developer] of
    software development. *)
Lemma web_keyword_developer text_lower keyword :
  In keyword ["web developer"; "frontend developer"; "backend developer"] ->
  contains (lower keyword) text_lower = true ->
  contains (lower "developer") text_lower = true.
Proof.
intros Hk Hc. unfold contains in *.
apply contains_trans with (chars (lower keyword)); [| exact Hc].
simpl in Hk. destruct Hk as [<- | [<- | [<- | []]]]; reflexivity.
Qed.

(** X21. [categorize_job_role] never answers [web_development]: each of
    its keywords holds [developer], a keyword of [software_development],
    which stands before it in the table.  The answer is one of the four
    other categories or [general]; and a job description that mentions a
    web development keyword is put under [data_science] or
    [software_development]. *)
Theorem categorize_job_role_never_web_development (job_description : string) :
  categorize_job_role job_description <> "web_development"
  /\ In (categorize_job_role job_description)
        ["data_science"; "software_development"; "product_management";
         "marketing"; "general"]
  /\ (mentions_any (lower job_description)
        ["web developer"; "frontend developer"; "backend developer"] = true ->
      In (categorize_job_role job_description)
         ["data_science"; "software_development"]).
Proof.
unfold categorize_job_role, ConfigMore.JOB_CATEGORIES. cbn [List.find snd].
set (t := lower job_description).
destruct (mentions_any t ["data scientist"; "machine learning engineer"; "data analyst"]).
{ repeat split; [discriminate | simpl; tauto | simpl; tauto]. }
destruct (mentions_any t ["software engineer"; "developer"; "programmer"]) eqn:Esoft.
{ repeat split; [discriminate | simpl; tauto | simpl; tauto]. }
assert (Hdev : contains (lower "developer") t = false).
{ apply (mentions_any_false _ _ _ Esoft). simpl. tauto. }
assert (Eweb : mentions_any t ["web developer"; "frontend developer";
                               "backend developer"] = false).
{ destruct (mentions_any t ["web developer"; "frontend developer";
                            "backend developer"]) eqn:E; [| reflexivity].
  unfold mentions_any in E. apply existsb_exists in E as (keyword & Hk & Hc).
  rewrite (web_keyword_developer t keyword Hk Hc) in Hdev. discriminate. }
rewrite Eweb.
destruct (mentions_any t ["product manager"; "product owner"; "business analyst"]).
{ repeat split; [discriminate | simpl; tauto | discriminate]. }
destruct (mentions_any t ["marketing manager"; "digital marketing"; "content marketing"]).
{ repeat split; [discriminate | simpl; tauto | discriminate]. }
repeat split; [discriminate | simpl; tauto | discriminate].
Qed.

(** X22. The answer is [general] exactly when no keyword of any category
    occurs in the lower-cased job description. *)
Theorem categorize_job_role_general (job_description : string) :
  categorize_job_role job_description = "general"
  <-> forall category keywords keyword,
        In (category, keywords) ConfigMore.JOB_CATEGORIES ->
        In keyword keywords ->
        contains (lower keyword) (lower job_description) = false.
Proof.
unfold categorize_job_role.
destruct (List.find _ ConfigMore.JOB_CATEGORIES) as [[category keywords] |] eqn:E.
- apply find_some in E as [Hin Hm]. split.
  + intros Hg. exfalso. subst category.
    unfold ConfigMore.JOB_CATEGORIES in Hin. simpl in Hin.
    repeat (destruct Hin as [[=] | Hin]). contradiction.
  + intros Hall. exfalso. cbn [snd] in Hm. unfold mentions_any in Hm.
    apply existsb_exists in Hm as (keyword & Hk & Hc).
    rewrite (Hall category keywords keyword Hin Hk) in Hc. discriminate.
- split; [| reflexivity]. intros _ category keywords keyword Hin Hk.
  pose proof (find_none _ _ E _ Hin) as Hm. cbn [snd] in Hm.
  now apply mentions_any_false with keywords.
Qed.

End CategoryFacts.

Example categorize_job_role_web :
  JobMatcherMore.categorize_job_role "Senior Web Developer (React)"
  = "software_development".
Proof. vm_compute. reflexivity. Qed.

(** ** Education *)

Section EducationFacts.
Context `{Backend}.
Import TextProcessor TextProcessorMore.

(** X23. [extract_education] returns, without repetition, the stripped
    sentences of the text whose lower-cased form holds one of the
    nineteen keywords as a substring, wherever it stands in a word
    ([ma] in [machine], [ba] in [database]); with no keyword in the text
    it returns the empty list. *)
Theorem extract_education_spec (text : string) :
  NoDup (extract_education text)
  /\ (forall s,
        s ∈ extract_education text
        <-> exists keyword sentence,
              In keyword education_keywords
              /\ JobMatcher.contains keyword (lower text) = true
              /\ In sentence (sent_tokenize text)
              /\ JobMatcher.contains keyword (lower sentence) = true
              /\ s = ResumeParser.strip sentence)
  /\ ((forall keyword, In keyword education_keywords ->
         JobMatcher.contains keyword (lower text) = false) ->
      extract_education text = []).
Proof.
unfold extract_education.
split; [apply list_of_set_NoDup |]. split.
- intros s. rewrite list_of_set_elem_of, elem_of_list_to_set, list_elem_of_In.
  rewrite in_flat_map. split.
  + intros (keyword & Hk & Hs).
    destruct (JobMatcher.contains keyword (lower text)) eqn:Et; [| contradiction].
    apply in_map_iff in Hs as (sentence & <- & Hs).
    apply filter_In in Hs as [Hin Hc].
    now exists keyword, sentence.
  + intros (keyword & sentence & Hk & Ht & Hin & Hc & ->).
    exists keyword. split; [exact Hk |]. rewrite Ht.
    apply in_map. apply filter_In. now split.
- intros Hnone.
  assert (E : flat_map
                (fun keyword =>
                   if JobMatcher.contains keyword (lower text) then
                     map ResumeParser.strip
                         (List.filter
                            (fun sentence => JobMatcher.contains keyword (lower sentence))
                            (sent_tokenize text))
                   else [])
                education_keywords = []).
  { induction education_keywords as [| k ks IH]; [reflexivity |].
    cbn [flat_map]. rewrite (Hnone k) by now left.
    apply IH. intros keyword Hk. apply Hnone. now right. }
  rewrite E. now apply list_of_set_nil.
Qed.

End EducationFacts.

Example extract_education_machine :
  @TextProcessorMore.extract_education (Demo.backend 0)
    "I enjoy machine learning. I like hiking."
  = ["I enjoy machine learning"].
Proof. vm_compute. reflexivity. Qed.

(** ** Text statistics *)

Section StatisticsFacts.
Context `{Backend}.
Import TextProcessor.
Local Open Scope Q_scope.

Lemma size_list_to_set_le (l : list string) :
  (size (list_to_set l : gset string) <= List.length l)%nat.
Proof.
induction l as [| x t IH]; [now rewrite list_to_set_nil, size_empty |].
rewrite list_to_set_cons, size_union_alt, size_singleton. simpl.
assert (size (list_to_set t ∖ {[x]} : gset string) <= size (list_to_set t : gset string))%nat
  by (apply subseteq_size, subseteq_difference_l; reflexivity).
lia.
Qed.

(** X24. [get_text_statistics] has no statistics exactly for the empty
    text.  Otherwise the number of unique words is at most the number of
    words, the number of characters is the length of the text, and the
    average of words per sentence is 0 without sentences and else the
    quotient of the two counts rounded to a float: times the number of
    sentences it is the number of words up to one part in [2^53] of
    that number (and [2^-1075] per sentence), and it is the quotient
    itself when that is a whole number below [2^53]. *)
Theorem get_text_statistics_spec (text : string) :
  (get_text_statistics text = None <-> text = "")
  /\ forall stats,
       get_text_statistics text = Some stats ->
       (unique_words stats <= word_count stats)%nat
       /\ character_count stats = String.length text
       /\ (sentence_count stats = 0%nat -> avg_words_per_sentence stats == 0)
       /\ (sentence_count stats <> 0%nat ->
           Qabs (avg_words_per_sentence stats * Num.of_nat (sentence_count stats)
                 - Num.of_nat (word_count stats))
           <= Num.of_nat (word_count stats) * F64.pow2 (-53)
              + Num.of_nat (sentence_count stats) * F64.pow2 (-1075))
       /\ (forall k : nat,
              sentence_count stats <> 0%nat ->
              word_count stats = (k * sentence_count stats)%nat ->
              (Z.of_nat k < 2 ^ 53)%Z ->
              avg_words_per_sentence stats == Num.of_nat k).
Proof.
unfold get_text_statistics.
destruct (String.eqb_spec text "") as [E | E].
{ split; [tauto | discriminate]. }
split; [split; [discriminate | contradiction] |].
intros stats [= <-]. cbn [unique_words word_count character_count
                          sentence_count avg_words_per_sentence].
split; [| split; [reflexivity |]].
- etransitivity; [apply size_list_to_set_le |].
  rewrite length_map. apply List.filter_length_le.
- destruct (sent_tokenize text) as [| s ss].
  { split; [reflexivity |]. split; intros; contradiction. }
  split; [discriminate |].
  set (wc := List.length (word_tokenize text)).
  set (sc := List.length (s :: ss)).
  assert (Hsc : 0 < Num.of_nat sc) by (apply of_nat_pos; unfold sc; simpl; lia).
  pose proof (of_nat_nonneg wc) as Hwc.
  assert (Hx0 : 0 <= Num.of_nat wc / Num.of_nat sc) by (now apply div_nonneg).
  split.
  + intros _. unfold F64.div.
    pose proof (rnd_error _ Hx0) as Herr.
    set (x := Num.of_nat wc / Num.of_nat sc) in *.
    assert (Ex : F64.rnd x * Num.of_nat sc - Num.of_nat wc
                 == (F64.rnd x - x) * Num.of_nat sc).
    { unfold x. field. lra. }
    rewrite Ex, Qabs_Qmult, (Qabs_pos (Num.of_nat sc)) by lra.
    eapply Qle_trans.
    { apply Qmult_le_compat_r; [exact Herr | lra]. }
    apply Qle_lteq. right. unfold x. field. lra.
  + intros k _ Hk Hbound. unfold F64.div.
    assert (Ex : Num.of_nat wc / Num.of_nat sc == inject_Z (Z.of_nat k)).
    { rewrite Hk. unfold Num.of_nat in *.
      rewrite Nat2Z.inj_mul, inject_Z_mult. field. lra. }
    rewrite (rnd_comp _ _ Hx0 Ex). apply rnd_Z. lia.
Qed.

End StatisticsFacts.

(** ** Manual parsing and the summary *)

Section ManualFacts.
Context `{Backend}.
Variable re_findall : string -> string -> list string.
Import TextProcessor ResumeParser ResumeParserMore EntitySpec.


End ManualFacts.

Section SummaryFacts.
Context `{Backend}.
Import TextProcessor ResumeParser ResumeParserMore.

(** X26. For a resume whose sections come from
    [extract_resume_sections], the entry [sections_found] of the summary
    lists all eight section names, whether the resume has them or not. *)
Theorem get_resume_summary_sections_found (parsed_data : ParsedResume) text :
  sections parsed_data = extract_resume_sections text ->
  Permutation (sections_found (get_resume_summary parsed_data))
              (map fst empty_sections).
Proof.
intros Hs. unfold get_resume_summary. cbn [sections_found].
rewrite list_of_set_perm, Hs.
destruct (extract_resume_sections_keys_and_bodies_fact text) as [-> _].
apply elements_list_to_set.
vm_compute. repeat constructor; rewrite ?elem_of_cons, ?elem_of_nil;
  intuition discriminate.
Qed.

End SummaryFacts.

(** ** Recommendations *)

Section RecommendationFacts.
Context `{Backend}.
Import TextProcessor JobMatcher JobMatcherMore.
Local Open Scope Q_scope.



End RecommendationFacts.


(** ** Feedback *)

Section FeedbackFacts.
Context `{Backend}.
Import TextProcessor ResumeParser ScoringEngine ScoringEngineMore.
Local Open Scope Q_scope.

Lemma In_app5 {A} (x : A) l1 l2 l3 l4 l5 l6 l7 :
  In x (l1 ++ l2 ++ l3 ++ l4 ++ l5 ++ l6 ++ l7)
  <-> In x l1 \/ In x l2 \/ In x l3 \/ In x l4 \/ In x l5 \/ In x l6 \/ In x l7.
Proof. rewrite !in_app_iff. tauto. Qed.

(** The affirmation of completeness is in the feedback exactly when the
    completeness score reaches 0.8. *)
Lemma complete_profile_In scores parsed_resume :
  In complete_profile (generate_feedback scores parsed_resume)
  <-> Qle_bool 0.8 (Num.get scores "completeness") = true.
Proof.
unfold generate_feedback. rewrite In_app5. split.
- intros [Hin | [Hin | [Hin | [Hin | [Hin | [Hin | Hin]]]]]].
  + destruct (below _ _); [| contradiction].
    destruct (missing_sections parsed_resume); [contradiction |].
    destruct Hin as [Hin | []]. discriminate.
  + destruct (below _ _); [| contradiction]. destruct Hin as [Hin | []]. discriminate.
  + destruct (below _ _); [| contradiction].
    destruct (_ <? 5)%nat; [destruct Hin as [Hin | []]; discriminate |].
    destruct (20 <? _)%nat; [destruct Hin as [Hin | []]; discriminate | contradiction].
  + destruct (below _ _); [| contradiction].
    destruct (_ =? 0)%Z; destruct Hin as [Hin | []]; discriminate.
  + destruct (_ && _); [| contradiction]. destruct Hin as [Hin | []]. discriminate.
  + destruct (Qle_bool 0.8 (Num.get scores "completeness")); [reflexivity | contradiction].
  + destruct (Qle_bool 0.8 (Num.get scores "skills_relevance")); [| contradiction].
    destruct Hin as [Hin | []]. discriminate.
- intros ->. do 5 right. left. now left.
Qed.

(** X29. For a resume whose sections come from
    [extract_resume_sections], the feedback of [calculate_overall_score]
    affirms a complete profile exactly when at least four of the five
    required facts hold: one of them, the name for instance, may be
    missing. *)
Theorem overall_feedback_complete_profile
    (parsed_resume : ParsedResume) (resume_text : string)
    (job_description : option string) (text : string) :
  sections parsed_resume = extract_resume_sections text ->
  In complete_profile (overall_feedback parsed_resume resume_text job_description)
  <-> (4 <= CompletenessSpec.required_true parsed_resume)%nat.
Proof.
intros Hs. unfold overall_feedback. rewrite complete_profile_In.
change (Num.get (category_values parsed_resume resume_text job_description)
                "completeness")
  with (calculate_completeness_score parsed_resume).
rewrite (Qleb_comp _ _ (Qeq_refl 0.8) _ _
           (calculate_completeness_score_formula_aux parsed_resume)).
rewrite (parsed_sections_optional_true parsed_resume text Hs).
assert (Hn : (CompletenessSpec.required_true parsed_resume <= 5)%nat).
{ unfold CompletenessSpec.required_true.
  pose proof (indicator_le_1 (CompletenessSpec.has_name parsed_resume)).
  pose proof (indicator_le_1 (CompletenessSpec.has_contact parsed_resume)).
  pose proof (indicator_le_1 (CompletenessSpec.has_skill parsed_resume)).
  pose proof (indicator_le_1 (CompletenessSpec.has_education parsed_resume)).
  pose proof (indicator_le_1 (CompletenessSpec.has_experience parsed_resume)). lia. }
destruct (CompletenessSpec.required_true parsed_resume) as [| [| [| [| [| [| n]]]]]];
  try lia; vm_compute; split; intros; try lia; try discriminate; reflexivity.
Qed.

End FeedbackFacts.

Lemma overall_feedback_complete_profile_witness :
  In ScoringEngineMore.complete_profile
     (@ScoringEngineMore.overall_feedback (Demo.backend 0)
        Demo.resume Demo.resume_text None)
  <-> (4 <= CompletenessSpec.required_true Demo.resume)%nat.
Proof.
apply (@overall_feedback_complete_profile (Demo.backend 0)
         Demo.resume Demo.resume_text None "").
vm_compute. reflexivity.
Defined.

(** ** Uploaded files *)

Section FileFacts.
Import TextProcessor FileHandler.
Variable path_suffix : string -> string.
Variables extract_text_from_pdf extract_text_from_docx
          extract_text_from_doc extract_text_from_txt : UploadedFile -> string.

(** X30. A file that [validate_file] accepts is no larger than 10 MB and
    has one of the four allowed extensions, and [extract_text] hands it to
    the reader of that extension: no accepted file ends in the branch of
    unsupported types. *)
Theorem validate_file_extract_text (file : UploadedFile) :
  fst (validate_file path_suffix (Some file)) = true ->
  let file_extension := lower (path_suffix (file_name file)) in
  let text :=
    extract_text path_suffix extract_text_from_pdf extract_text_from_docx
                 extract_text_from_doc extract_text_from_txt (Some file) in
  (file_size file <= 10485760)%Z
  /\ ((file_extension = ".pdf" /\ text = extract_text_from_pdf file)
      \/ (file_extension = ".docx" /\ text = extract_text_from_docx file)
      \/ (file_extension = ".doc" /\ text = extract_text_from_doc file)
      \/ (file_extension = ".txt" /\ text = extract_text_from_txt file)).
Proof.
intros Hvalid file_extension text. unfold validate_file in Hvalid.
destruct (Z.ltb_spec max_file_size (file_size file)) as [Hbig | Hsize];
  [discriminate |].
fold file_extension in Hvalid.
destruct (existsb (String.eqb file_extension) ConfigMore.ALLOWED_EXTENSIONS) eqn:Eext;
  [| discriminate].
split; [exact Hsize |].
unfold text, extract_text. fold file_extension.
unfold ConfigMore.ALLOWED_EXTENSIONS in Eext. cbn [existsb] in Eext.
destruct (String.eqb_spec file_extension ".pdf") as [Epdf | _]; [now left |].
destruct (String.eqb_spec file_extension ".docx") as [Edocx | _]; [right; now left |].
destruct (String.eqb_spec file_extension ".doc") as [Edoc | _];
  [right; right; now left |].
destruct (String.eqb_spec file_extension ".txt") as [Etxt | _];
  [right; right; right; now split | discriminate].
Qed.

End FileFacts.

Lemma validate_file_extract_text_witness :
  let file := {| FileHandler.file_name := "ada_lovelace.PDF";
                 FileHandler.file_size := 204800 |} in
  (FileHandler.file_size file <= 10485760)%Z
  /\ ((TextProcessor.lower (SampleFiles.suffix (FileHandler.file_name file)) = ".pdf"
       /\ FileHandler.extract_text SampleFiles.suffix
            (SampleFiles.reader "pdf") (SampleFiles.reader "docx")
            (SampleFiles.reader "doc") (SampleFiles.reader "txt") (Some file)
          = SampleFiles.reader "pdf" file)
      \/ (TextProcessor.lower (SampleFiles.suffix (FileHandler.file_name file)) = ".docx"
          /\ FileHandler.extract_text SampleFiles.suffix
               (SampleFiles.reader "pdf") (SampleFiles.reader "docx")
               (SampleFiles.reader "doc") (SampleFiles.reader "txt") (Some file)
             = SampleFiles.reader "docx" file)
      \/ (TextProcessor.lower (SampleFiles.suffix (FileHandler.file_name file)) = ".doc"
          /\ FileHandler.extract_text SampleFiles.suffix
               (SampleFiles.reader "pdf") (SampleFiles.reader "docx")
               (SampleFiles.reader "doc") (SampleFiles.reader "txt") (Some file)
             = SampleFiles.reader "doc" file)
      \/ (TextProcessor.lower (SampleFiles.suffix (FileHandler.file_name file)) = ".txt"
          /\ FileHandler.extract_text SampleFiles.suffix
               (SampleFiles.reader "pdf") (SampleFiles.reader "docx")
               (SampleFiles.reader "doc") (SampleFiles.reader "txt") (Some file)
             = SampleFiles.reader "txt" file)).
Proof.
intros file.
apply (validate_file_extract_text SampleFiles.suffix
         (SampleFiles.reader "pdf") (SampleFiles.reader "docx")
         (SampleFiles.reader "doc") (SampleFiles.reader "txt") file).
vm_compute. reflexivity.
Defined.


Lemma get_resume_summary_sections_found_witness :
  Permutation
    (ResumeParserMore.sections_found
       (@ResumeParserMore.get_resume_summary (Demo.backend 0) Demo.resume))
    (map fst ResumeParser.empty_sections).
Proof.
apply (@get_resume_summary_sections_found (Demo.backend 0) Demo.resume "").
vm_compute. reflexivity.
Defined.
